(** * HR_Management: employee directory search, verified against its specification

    A shallow embedding of the Django application
    - [employee_search/models.py]: modules [Organization],
      [OrganizationConfig], [Employee], [RateLimitRecord];
    - [hr_backend/employee_search/serializers.py]: modules
      [DynamicEmployeeSerializer], [EmployeeSearchSerializer];
    - [hr_backend/employee_search/views.py]: modules
      [EmployeeSearchPagination], [Views];
    - [hr_backend/employee_search/middleware.py]: modules
      [RateLimitRecords] (the ORM calls), [RateLimitMiddleware];
    followed by the properties the specification states about it.

    Conventions.  Database tables are lists of rows in storage order.  A
    Python [set] is a [gset], a [dict] read by key a [gmap]; an ordered dict
    whose key order is rendered is a list of pairs.  A function that may
    raise returns a [Result].  Timestamps are integers counting
    microseconds (the resolution of [datetime]). *)

From stdpp Require Import base option list strings pretty gmap sorting.
From Stdlib Require Import ZArith Lia Ascii.

Open Scope Z_scope.

(** ** Python values common to the modules *)

(** A [uuid.UUID] is a 128-bit number. *)
Abbreviation UUID := N.

(** Python data handed to the JSON renderer: [None], strings, integers,
    UUIDs, dates and datetimes (left to the renderer), lists and
    insertion-ordered dictionaries. *)
#[local] Unset Elimination Schemes.
Inductive Value :=
| VNone
| VStr (s : string)
| VInt (n : Z)
| VUuid (u : UUID)
| VDate (d : Z)
| VDateTime (t : Z)
| VList (items : list Value)
| VDict (items : list (string * Value)).
#[local] Set Elimination Schemes.

(** [d.get(key)] on a rendered dictionary. *)
Definition dict_get (key : string) (d : Value) : option Value :=
  match d with
  | VDict items => snd <$> (snd <$> list_find (λ kv, kv.1 = key) items)
  | _ => None
  end.

(** ** Python strings (ASCII) *)

(** [str.isspace] on the ASCII range. *)
Definition isspace (c : ascii) : bool :=
  let n := N_of_ascii c in
  ((9 <=? n) && (n <=? 13) || (28 <=? n) && (n <=? 32))%N.

Fixpoint lstrip (s : string) : string :=
  match s with
  | String c rest => if isspace c then lstrip rest else s
  | EmptyString => EmptyString
  end.

(** [s.strip()] *)
Definition strip (s : string) : string :=
  String.rev (lstrip (String.rev (lstrip s))).

(** [s.split(sep)[0]]: the text before the first separator. *)
Fixpoint split_first (sep : ascii) (s : string) : string :=
  match s with
  | String c rest =>
      if Ascii.eqb c sep then EmptyString else String c (split_first sep rest)
  | EmptyString => EmptyString
  end.

(** [s.startswith(prefix)] *)
Definition startswith (s prefix : string) : bool := String.prefix prefix s.

(** [needle in haystack] *)
Fixpoint contains (needle haystack : string) : bool :=
  String.prefix needle haystack ||
  match haystack with
  | String _ rest => contains needle rest
  | EmptyString => false
  end.

Definition lower_ascii (c : ascii) : ascii :=
  let n := N_of_ascii c in
  if ((65 <=? n) && (n <=? 90))%N then ascii_of_N (n + 32) else c.

Fixpoint lower (s : string) : string :=
  match s with
  | String c rest => String (lower_ascii c) (lower rest)
  | EmptyString => EmptyString
  end.

(** The [__icontains] lookup: case-insensitive containment (case folding
    of letters outside ASCII is the database's and is not modelled). *)
Definition icontains (field term : string) : bool :=
  contains (lower term) (lower field).

(** Exception classes raised and caught in the application. *)
Inductive Exception :=
| Organization_DoesNotExist
| OrganizationConfig_DoesNotExist
| MultipleObjectsReturned
| DatabaseError
| Http404
| ValidationError
| NotFound.

Inductive Result (A : Type) :=
| Ok (a : A)
| Raise (e : Exception).
Arguments Ok {A} a.
Arguments Raise {A} e.

Global Instance Result_ret : MRet Result := λ A a, Ok a.
Global Instance Result_bind : MBind Result := λ A B k m,
  match m with
  | Ok a => k a
  | Raise e => Raise e
  end.

(** [Model.objects.get(...)] over the rows matching the lookup. *)
Definition queryset_get {A : Type} (matching : list A)
    (does_not_exist : Exception) : Result A :=
  match matching with
  | [] => Raise does_not_exist
  | [row] => Ok row
  | _ :: _ :: _ => Raise MultipleObjectsReturned
  end.

(** ** employee_search/models.py *)

Module Organization.
Record t := mk {
  id : UUID;
  name : string;
  is_active : bool
}.
End Organization.

Module OrganizationConfig.
Definition AVAILABLE_COLUMNS : list (string * string) :=
  [ ("first_name", "First Name");
    ("last_name", "Last Name");
    ("email", "Email");
    ("phone", "Phone");
    ("department", "Department");
    ("position", "Position");
    ("location", "Location");
    ("status", "Status") ].

Record t := mk {
  organization : UUID;
  visible_columns : list string;
  column_order : list string
}.

(** [get_default_columns]: the default seven when nothing is configured. *)
Definition get_default_columns (self : t) : list string :=
  match visible_columns self with
  | [] => ["first_name"; "last_name"; "email"; "department"; "position";
           "location"; "status"]
  | _ :: _ => visible_columns self
  end.
End OrganizationConfig.

Module Employee.
Definition STATUS_CHOICES : list (string * string) :=
  [ ("active", "Active");
    ("inactive", "Inactive");
    ("terminated", "Terminated");
    ("on_leave", "On Leave") ].

Record t := mk {
  id : UUID;
  organization : UUID;
  first_name : string;
  last_name : string;
  email : string;
  phone : option string;
  department : string;
  position : string;
  location : string;
  status : string;
  hire_date : Z;
  created_at : Z;
  updated_at : Z
}.

(** The [full_name] property: [f"{first_name} {last_name}"]. *)
Definition full_name (self : t) : string :=
  first_name self +:+ " " +:+ last_name self.

Definition opt_str (o : option string) : Value :=
  match o with Some s => VStr s | None => VNone end.

(** The [data] dictionary built at the top of [to_dict]. *)
Definition to_dict_data (self : t) : gmap string Value :=
  list_to_map
    [ ("id", VUuid (id self));
      ("first_name", VStr (first_name self));
      ("last_name", VStr (last_name self));
      ("email", VStr (email self));
      ("phone", opt_str (phone self));
      ("department", VStr (department self));
      ("position", VStr (position self));
      ("location", VStr (location self));
      ("status", VStr (status self));
      ("hire_date", VDate (hire_date self)) ].

(** [to_dict(visible_columns=None)]: the comprehension
    [{key: data[key] for key in visible_columns if key in data}] when
    [visible_columns] is truthy, the whole of [data] otherwise. *)
Definition to_dict (self : t) (visible_columns : option (list string))
  : gmap string Value :=
  let data := to_dict_data self in
  match visible_columns with
  | Some ((_ :: _) as cols) =>
      foldl (λ acc key,
               match data !! key with
               | Some v => <[key := v]> acc
               | None => acc
               end) ∅ cols
  | _ => data
  end.
End Employee.

Module RateLimitRecord.
(** [pk] is the implicit auto-increment primary key of the table. *)
Record t := mk {
  pk : nat;
  ip_address : string;
  organization : option UUID;
  request_count : Z;
  window_start : Z;
  last_request : Z
}.
End RateLimitRecord.

(** ** hr_backend/employee_search/serializers.py *)

Module DynamicEmployeeSerializer.
(** Field names of a [ModelSerializer] over [Employee] with
    [fields = '__all__'] and the declared read-only [full_name]: the
    primary key, the declared fields, the model's columns, then its
    forward relation. *)
Definition Meta_fields : list string :=
  [ "id"; "full_name"; "first_name"; "last_name"; "email"; "phone";
    "department"; "position"; "location"; "status"; "hire_date";
    "created_at"; "updated_at"; "organization" ].

(** [self.fields.pop(field_name)] on the ordered field dictionary. *)
Definition fields_pop (field_name : string) (fields : list string)
  : list string :=
  filter (λ f, f ≠ field_name) fields.

(** [__init__]: the serializer's [fields] once the constructor returns,
    given the [visible_columns] keyword ([None] when not passed). *)
Definition init (visible_columns : option (list string)) : list string :=
  let fields := Meta_fields in
  match visible_columns with
  | Some ((_ :: _) as cols) =>
      let allowed : gset string := list_to_set cols in
      let allowed := allowed ∪ {["id"]} in
      let allowed :=
        if decide ("first_name" ∈ allowed ∧ "last_name" ∈ allowed)
        then allowed ∪ {["full_name"]}
        else allowed in
      let existing : gset string := list_to_set fields in
      foldl (λ fs field_name, fields_pop field_name fs) fields
            (elements (existing ∖ allowed))
  | _ => fields
  end.

(** [getattr(instance, field_name)] rendered by the field of that name. *)
Definition get_attribute (instance : Employee.t) (field_name : string)
  : Value :=
  if decide (field_name = "id") then VUuid (Employee.id instance)
  else if decide (field_name = "full_name")
    then VStr (Employee.full_name instance)
  else if decide (field_name = "first_name")
    then VStr (Employee.first_name instance)
  else if decide (field_name = "last_name")
    then VStr (Employee.last_name instance)
  else if decide (field_name = "email") then VStr (Employee.email instance)
  else if decide (field_name = "phone")
    then Employee.opt_str (Employee.phone instance)
  else if decide (field_name = "department")
    then VStr (Employee.department instance)
  else if decide (field_name = "position")
    then VStr (Employee.position instance)
  else if decide (field_name = "location")
    then VStr (Employee.location instance)
  else if decide (field_name = "status")
    then VStr (Employee.status instance)
  else if decide (field_name = "hire_date")
    then VDate (Employee.hire_date instance)
  else if decide (field_name = "created_at")
    then VDateTime (Employee.created_at instance)
  else if decide (field_name = "updated_at")
    then VDateTime (Employee.updated_at instance)
  else if decide (field_name = "organization")
    then VUuid (Employee.organization instance)
  else VNone.

(** [to_representation]: one output key per remaining field, in field
    order. *)
Definition to_representation (fields : list string) (instance : Employee.t)
  : list (string * Value) :=
  (λ f, (f, get_attribute instance f)) <$> fields.

(** [DynamicEmployeeSerializer(instance, visible_columns=...).data]. *)
Definition data (visible_columns : option (list string))
    (instance : Employee.t) : list (string * Value) :=
  to_representation (init visible_columns) instance.

(** [DynamicEmployeeSerializer(rows, many=True, visible_columns=...).data]:
    the child serializer is constructed once and applied to every row. *)
Definition many_data (visible_columns : option (list string))
    (rows : list Employee.t) : list (list (string * Value)) :=
  let fields := init visible_columns in
  to_representation fields <$> rows.
End DynamicEmployeeSerializer.

(** Keys of a rendered row. *)
Definition keys (row : list (string * Value)) : list string := fst <$> row.

(** ** The request *)

(** The text of a query parameter that is read as an integer, twice: by
    the serializer's [IntegerField], which strips a trailing point with
    zeros and hands the rest to [int()], and by the paginator, which hands
    the text to [int()] as it is.  [Numeral n] is text that [int()] reads
    as [n]; [WithPoint n] is such text followed by a point and zeros only
    (['1.0']), so that the field reads [n] and the paginator's [int()]
    raises [ValueError]; [NotANumeral] is any other non-empty text, which
    the field refuses as not an integer.  The texts are those of at most
    1000 characters; the field refuses longer text for its length, and such
    text is not represented. *)
Inductive IntText :=
| Numeral (n : Z)
| WithPoint (n : Z)
| NotANumeral.

(** [request.query_params], by recognised key.  [None] is a key that is
    absent or given with empty text; the two are read alike by every field
    below, none of which is required. *)
Module QueryParams.
Record t := mk {
  search : option string;
  department : option string;
  position : option string;
  location : option string;
  status : option string;
  page : option IntText;
  page_size : option IntText
}.
End QueryParams.

Module Request.
(** [organization] is what [_get_organization_from_request] returns when
    it returns: the active organization that [path] names, found by a read
    of the organizations table, if any.  A request on which that read
    raises an exception the function does not catch ([ValidationError] for
    a segment that is not a UUID, [DatabaseError]) has no value of this
    type: the statements about [process_request] are about requests whose
    organization has been resolved. *)
Record t := mk {
  path : string;
  META : gmap string string;
  query_params : QueryParams.t;
  organization : option UUID
}.
End Request.

Module Response.
Record t := mk {
  status_code : Z;
  data : Value
}.
End Response.

(** ** serializers.py: EmployeeSearchSerializer *)

(** Error codes of the serializer fields. *)
Inductive ErrorDetail :=
| blank
| null_characters_not_allowed
| invalid_choice (input : string)
| invalid
| max_value (limit : Z)
| min_value (limit : Z).

(** Outcome of one field: left out of [validated_data], a value, or the
    field's errors. *)
Inductive FieldResult (A : Type) :=
| Skipped
| Valid (a : A)
| Invalid (errors : list ErrorDetail).
Arguments Skipped {A}.
Arguments Valid {A} a.
Arguments Invalid {A} errors.

Module EmployeeSearchSerializer.
(** [CharField(required=False)]: empty input is skipped, the text is
    stripped, blank text and null characters are refused. *)
Definition CharField (data : option string) : FieldResult string :=
  match data with
  | None => Skipped
  | Some s =>
      if decide (s = "") then Skipped
      else if decide (strip s = "") then Invalid [blank]
      else if contains (String zero EmptyString) (strip s)
        then Invalid [null_characters_not_allowed]
      else Valid (strip s)
  end.

(** [ChoiceField(choices=..., required=False)] *)
Definition ChoiceField (choices : list (string * string))
    (data : option string) : FieldResult string :=
  match data with
  | None => Skipped
  | Some s =>
      if decide (s = "") then Skipped
      else if decide (s ∈ choices.*1) then Valid s
      else Invalid [invalid_choice s]
  end.

(** [IntegerField(min_value=, max_value=, required=False, default=)]:
    the maximum validator runs before the minimum validator. *)
Definition IntegerField (min_v : Z) (max_v : option Z) (default : Z)
    (data : option IntText) : FieldResult Z :=
  match data with
  | None => Valid default
  | Some NotANumeral => Invalid [invalid]
  | Some (Numeral n) | Some (WithPoint n) =>
      let too_big :=
        match max_v with
        | Some m => if decide (m < n) then [max_value m] else []
        | None => []
        end in
      let too_small := if decide (n < min_v) then [min_value min_v] else [] in
      match too_big ++ too_small with
      | [] => Valid n
      | errors => Invalid errors
      end
  end.

(** [validated_data]: the optional filters are keys only when given. *)
Record validated_data_t := mk {
  search : option string;
  department : option string;
  position : option string;
  location : option string;
  status : option string;
  page : Z;
  page_size : Z
}.

Definition field_errors {A} (name : string) (r : FieldResult A)
  : list (string * list ErrorDetail) :=
  match r with
  | Invalid errors => [(name, errors)]
  | _ => []
  end.

Definition field_value {A} (r : FieldResult A) : option A :=
  match r with
  | Valid a => Some a
  | _ => None
  end.

(** [validate(data)] returns its argument whatever it holds. *)
Definition validate (data : validated_data_t) : validated_data_t := data.

(** [is_valid()]: [inl validated_data] when it returns [True], [inr errors]
    (one entry per failing field, in declaration order) otherwise. *)
Definition is_valid (data : QueryParams.t)
  : validated_data_t + list (string * list ErrorDetail) :=
  let f_search := CharField (QueryParams.search data) in
  let f_department := CharField (QueryParams.department data) in
  let f_position := CharField (QueryParams.position data) in
  let f_location := CharField (QueryParams.location data) in
  let f_status := ChoiceField Employee.STATUS_CHOICES (QueryParams.status data) in
  let f_page := IntegerField 1 None 1 (QueryParams.page data) in
  let f_page_size := IntegerField 1 (Some 100) 50 (QueryParams.page_size data) in
  let errors :=
    field_errors "search" f_search ++ field_errors "department" f_department ++
    field_errors "position" f_position ++ field_errors "location" f_location ++
    field_errors "status" f_status ++ field_errors "page" f_page ++
    field_errors "page_size" f_page_size in
  match errors, field_value f_page, field_value f_page_size with
  | [], Some p, Some ps =>
      inl (validate
             {| search := field_value f_search;
                department := field_value f_department;
                position := field_value f_position;
                location := field_value f_location;
                status := field_value f_status;
                page := p;
                page_size := ps |})
  | _, _, _ => inr errors
  end.

Definition opt_item (name : string) (o : option string)
  : list (string * Value) :=
  match o with
  | Some s => [(name, VStr s)]
  | None => []
  end.

(** [validated_data] as the dictionary placed in the response. *)
Definition render (d : validated_data_t) : Value :=
  VDict (opt_item "search" (search d) ++ opt_item "department" (department d) ++
         opt_item "position" (position d) ++ opt_item "location" (location d) ++
         opt_item "status" (status d) ++
         [("page", VInt (page d)); ("page_size", VInt (page_size d))]).

(** The double quote character. *)
Definition quote : string := String (ascii_of_N 34) EmptyString.

Definition render_detail (e : ErrorDetail) : Value :=
  match e with
  | blank => VStr "This field may not be blank."
  | null_characters_not_allowed => VStr "Null characters are not allowed."
  | invalid_choice input =>
    VStr (quote +:+ input +:+ quote +:+ " is not a valid choice.")
  | invalid => VStr "A valid integer is required."
  | max_value limit =>
      VStr ("Ensure this value is less than or equal to " +:+ pretty limit
            +:+ ".")
  | min_value limit =>
      VStr ("Ensure this value is greater than or equal to " +:+ pretty limit
            +:+ ".")
  end.

(** [serializer.errors]: field name to list of messages. *)
Definition render_errors (errors : list (string * list ErrorDetail)) : Value :=
  VDict ((λ fe, (fe.1, VList (render_detail <$> fe.2))) <$> errors).
End EmployeeSearchSerializer.

(** ** hr_backend/employee_search/views.py *)

(** The tables the views read, and what the database is free to decide when
    it answers a query: [tie_rank] gives the order in which it serves rows
    that agree on every sort key, lower ranks first.  SQL leaves that order
    open, and it may differ from one query to the next. *)
Module Database.
Record t := mk {
  organizations : list Organization.t;
  organization_configs : list OrganizationConfig.t;
  employees : list Employee.t;
  tie_rank : Employee.t → nat
}.
End Database.

(** [Meta.ordering] / [order_by('last_name', 'first_name')]: last name,
    then first name (the collation is the database's; byte order here). *)
Definition name_le (e1 e2 : Employee.t) : Prop :=
  (Employee.last_name e1 ≠ Employee.last_name e2 ∧
   String.le (Employee.last_name e1) (Employee.last_name e2)) ∨
  (Employee.last_name e1 = Employee.last_name e2 ∧
   String.le (Employee.first_name e1) (Employee.first_name e2)).

Global Instance name_le_dec : RelDecision name_le.
Proof. intros e1 e2. unfold name_le. apply _. Defined.

(** The order in which a database of that [rank] serves two rows under
    [ORDER BY last_name, first_name]. *)
Definition served_le (rank : Employee.t → nat) (e1 e2 : Employee.t) : Prop :=
  (Employee.last_name e1 ≠ Employee.last_name e2 ∧
   String.le (Employee.last_name e1) (Employee.last_name e2)) ∨
  (Employee.last_name e1 = Employee.last_name e2 ∧
   Employee.first_name e1 ≠ Employee.first_name e2 ∧
   String.le (Employee.first_name e1) (Employee.first_name e2)) ∨
  (Employee.last_name e1 = Employee.last_name e2 ∧
   Employee.first_name e1 = Employee.first_name e2 ∧
   (rank e1 ≤ rank e2)%nat).

Global Instance served_le_dec rank : RelDecision (served_le rank).
Proof. intros e1 e2. unfold served_le. apply _. Defined.

(** [queryset.order_by('last_name', 'first_name')], evaluated. *)
Definition order_by_name (rank : Employee.t → nat)
    (queryset : list Employee.t) : list Employee.t :=
  merge_sort (served_le rank) queryset.

(** [EmployeeSearchPagination(PageNumberPagination)] over Django's
    [Paginator] (no orphans, an empty first page allowed). *)
Module EmployeeSearchPagination.
Definition page_size : Z := 50.
Definition max_page_size : Z := 100.

(** [get_page_size]: the [page_size] query parameter when [int()] reads
    it as a positive integer, cut off at [max_page_size]; the paginator's
    own [page_size] attribute otherwise (the [ValueError] of [int()] is
    suppressed). *)
Definition get_page_size (self_page_size : Z) (q : QueryParams.t) : Z :=
  match QueryParams.page_size q with
  | Some (Numeral n) =>
      if decide (n ≤ 0) then self_page_size else Z.min n max_page_size
  | _ => self_page_size
  end.

(** [Paginator.num_pages] *)
Definition num_pages (count per_page : Z) : Z :=
  let hits := Z.max 1 count in
  (hits + per_page - 1) / per_page.

(** One page and what the response envelope says about it. *)
Record Page := mk_page {
  object_list : list Employee.t;
  count : Z;
  number : Z;
  has_next : bool;
  has_previous : bool
}.

(** [paginate_queryset]: [None] when there is no page size, the page of
    the [page] query parameter (default 1) otherwise; a page number the
    paginator refuses, because [int()] does not read it or because it is
    out of range, raises [NotFound]. *)
Definition paginate_queryset (self_page_size : Z)
    (queryset : list Employee.t) (q : QueryParams.t) : Result (option Page) :=
  let per_page := get_page_size self_page_size q in
  if decide (per_page = 0) then Ok None
  else
    let count := Z.of_nat (length queryset) in
    match QueryParams.page q with
    | Some NotANumeral | Some (WithPoint _) => Raise NotFound
    | page_number =>
        let number :=
          match page_number with Some (Numeral n) => n | _ => 1 end in
        if decide (number < 1) then Raise NotFound
        else if decide (num_pages count per_page < number) then Raise NotFound
        else
          let bottom := (number - 1) * per_page in
          Ok (Some {| object_list :=
                        take (Z.to_nat per_page)
                             (drop (Z.to_nat bottom) queryset);
                      count := count;
                      number := number;
                      has_next :=
                        bool_decide (number < num_pages count per_page);
                      has_previous := bool_decide (1 < number) |})
    end.

(** A link to page [n] of the same request. *)
Definition link (n : Z) : Value := VDict [("page", VInt n)].

(** [get_paginated_response(data).data] *)
Definition get_paginated_response (page : Page) (data : list Value)
  : list (string * Value) :=
  [ ("count", VInt (count page));
    ("next", if has_next page then link (number page + 1) else VNone);
    ("previous", if has_previous page then link (number page - 1) else VNone);
    ("results", VList data) ].
End EmployeeSearchPagination.

Module Views.
Definition HTTP_200_OK : Z := 200.
Definition HTTP_400_BAD_REQUEST : Z := 400.
Definition HTTP_404_NOT_FOUND : Z := 404.
Definition HTTP_500_INTERNAL_SERVER_ERROR : Z := 500.

(** [get_object_or_404(Organization, id=organization_id, is_active=True)] *)
Definition get_object_or_404 (db : Database.t) (organization_id : UUID)
  : Result Organization.t :=
  match queryset_get
          (filter (λ o, Organization.id o = organization_id ∧
                        Organization.is_active o = true)
                  (Database.organizations db))
          Organization_DoesNotExist with
  | Raise Organization_DoesNotExist => Raise Http404
  | r => r
  end.

(** [organization.config], the reverse side of the one-to-one relation. *)
Definition config (db : Database.t) (organization : Organization.t)
  : Result OrganizationConfig.t :=
  queryset_get
    (filter (λ c, OrganizationConfig.organization c = Organization.id organization)
            (Database.organization_configs db))
    OrganizationConfig_DoesNotExist.

(** The [try: ... except OrganizationConfig.DoesNotExist: ...] block that
    both views open with. *)
Definition get_visible_columns (db : Database.t)
    (organization : Organization.t) : Result (list string) :=
  match config db organization with
  | Ok org_config => Ok (OrganizationConfig.get_default_columns org_config)
  | Raise OrganizationConfig_DoesNotExist =>
      Ok ["first_name"; "last_name"; "email"; "department"; "position";
          "location"; "status"]
  | Raise e => Raise e
  end.

(** Truthiness of [search_data.get(key)]. *)
Definition given (o : option string) : option string :=
  match o with
  | Some s => if decide (s = "") then None else Some s
  | None => None
  end.

(** The queryset of [search_employees] before ordering: the
    organization's employees, narrowed by each filter that is given. *)
Definition filter_queryset (db : Database.t) (organization : Organization.t)
    (search_data : EmployeeSearchSerializer.validated_data_t)
  : list Employee.t :=
  let queryset :=
    filter (λ e, Employee.organization e = Organization.id organization)
           (Database.employees db) in
  let queryset :=
    match given (EmployeeSearchSerializer.search search_data) with
    | Some search_term =>
        filter (λ e, icontains (Employee.first_name e) search_term = true ∨
                     icontains (Employee.last_name e) search_term = true ∨
                     icontains (Employee.email e) search_term = true)
               queryset
    | None => queryset
    end in
  let queryset :=
    match given (EmployeeSearchSerializer.department search_data) with
    | Some v => filter (λ e, icontains (Employee.department e) v = true) queryset
    | None => queryset
    end in
  let queryset :=
    match given (EmployeeSearchSerializer.position search_data) with
    | Some v => filter (λ e, icontains (Employee.position e) v = true) queryset
    | None => queryset
    end in
  let queryset :=
    match given (EmployeeSearchSerializer.location search_data) with
    | Some v => filter (λ e, icontains (Employee.location e) v = true) queryset
    | None => queryset
    end in
  match given (EmployeeSearchSerializer.status search_data) with
  | Some v => filter (λ e, Employee.status e = v) queryset
  | None => queryset
  end.

Definition meta (organization : Organization.t) (visible_columns : list string)
    (search_data : EmployeeSearchSerializer.validated_data_t) : Value :=
  VDict [ ("organization",
           VDict [ ("id", VUuid (Organization.id organization));
                   ("name", VStr (Organization.name organization)) ]);
          ("visible_columns", VList (VStr <$> visible_columns));
          ("search_params", EmployeeSearchSerializer.render search_data) ].

(** The employees of the page a valid search serves, before projection. *)
Definition search_page (db : Database.t) (organization : Organization.t)
    (q : QueryParams.t)
    (search_data : EmployeeSearchSerializer.validated_data_t)
  : Result (option EmployeeSearchPagination.Page) :=
  let queryset :=
    order_by_name (Database.tie_rank db)
      (filter_queryset db organization search_data) in
  EmployeeSearchPagination.paginate_queryset
    (EmployeeSearchSerializer.page_size search_data) queryset q.

(** The body of the [try] block of [search_employees]. *)
Definition search_employees_try (db : Database.t) (request : Request.t)
    (organization_id : UUID) : Result Response.t :=
  organization ← get_object_or_404 db organization_id;
  visible_columns ← get_visible_columns db organization;
  match EmployeeSearchSerializer.is_valid (Request.query_params request) with
  | inr errors =>
      Ok {| Response.status_code := HTTP_400_BAD_REQUEST;
            Response.data :=
              VDict [ ("error", VStr "Invalid search parameters");
                      ("details", EmployeeSearchSerializer.render_errors errors) ] |}
  | inl search_data =>
      let queryset :=
        order_by_name (Database.tie_rank db)
          (filter_queryset db organization search_data) in
      page ← search_page db organization (Request.query_params request)
               search_data;
      match page with
      | Some page =>
          let rows :=
            DynamicEmployeeSerializer.many_data (Some visible_columns)
              (EmployeeSearchPagination.object_list page) in
          let response_data :=
            EmployeeSearchPagination.get_paginated_response page (VDict <$> rows) in
          Ok {| Response.status_code := HTTP_200_OK;
                Response.data :=
                  VDict (response_data ++
                         [("meta", meta organization visible_columns search_data)]) |}
      | None =>
          let rows :=
            DynamicEmployeeSerializer.many_data (Some visible_columns) queryset in
          Ok {| Response.status_code := HTTP_200_OK;
                Response.data :=
                  VDict [ ("results", VList (VDict <$> rows));
                          ("count", VInt (Z.of_nat (length queryset)));
                          ("meta", meta organization visible_columns search_data) ] |}
      end
  end.

Definition error_response (status : Z) (items : list (string * Value))
  : Response.t :=
  {| Response.status_code := status; Response.data := VDict items |}.

(** [search_employees(request, organization_id)] with its handlers. *)
Definition search_employees (db : Database.t) (request : Request.t)
    (organization_id : UUID) : Response.t :=
  match search_employees_try db request organization_id with
  | Ok response => response
  | Raise Organization_DoesNotExist =>
      error_response HTTP_404_NOT_FOUND
        [("error", VStr "Organization not found or inactive")]
  | Raise Http404 =>
      error_response HTTP_404_NOT_FOUND
        [("error", VStr "Organization not found or inactive")]
  | Raise ValidationError =>
      error_response HTTP_400_BAD_REQUEST
        [("error", VStr "Validation error"); ("details", VStr "")]
  | Raise _ =>
      error_response HTTP_500_INTERNAL_SERVER_ERROR
        [("error", VStr "Internal server error")]
  end.

(** The body of the [try] block of [organization_config]. *)
Definition organization_config_try (db : Database.t)
    (organization_id : UUID) : Result Response.t :=
  organization ← get_object_or_404 db organization_id;
  columns ←
    match config db organization with
    | Ok config =>
        let visible_columns := OrganizationConfig.get_default_columns config in
        let column_order :=
          match OrganizationConfig.column_order config with
          | [] => visible_columns
          | order => order
          end in
        Ok (visible_columns, column_order)
    | Raise OrganizationConfig_DoesNotExist =>
        let visible_columns :=
          ["first_name"; "last_name"; "email"; "department"; "position";
           "location"; "status"] in
        Ok (visible_columns, visible_columns)
    | Raise e => Raise e
    end;
  Ok {| Response.status_code := HTTP_200_OK;
        Response.data :=
          VDict [ ("organization",
                   VDict [ ("id", VUuid (Organization.id organization));
                           ("name", VStr (Organization.name organization)) ]);
                  ("config",
                   VDict [ ("visible_columns", VList (VStr <$> columns.1));
                           ("column_order", VList (VStr <$> columns.2));
                           ("available_columns",
                            VList ((λ kl, VDict [ ("key", VStr kl.1);
                                                  ("label", VStr kl.2) ])
                                     <$> OrganizationConfig.AVAILABLE_COLUMNS)) ]) ] |}.

(** [organization_config(request, organization_id)]: its handlers have
    no clause for [Http404], which falls to the last one. *)
Definition organization_config (db : Database.t) (organization_id : UUID)
  : Response.t :=
  match organization_config_try db organization_id with
  | Ok response => response
  | Raise Organization_DoesNotExist =>
      error_response HTTP_404_NOT_FOUND
        [("error", VStr "Organization not found or inactive")]
  | Raise _ =>
      error_response HTTP_500_INTERNAL_SERVER_ERROR
        [("error", VStr "Internal server error")]
  end.
End Views.

(** ** hr_backend/employee_search/middleware.py *)

(** What the middleware runs against: the [rate_limit_records] table with
    the next value of its primary-key sequence, the clock read by
    [timezone.now()] (one reading per request), and the storage calls that
    are going to fail: the n-th storage call from now on raises when the
    n-th entry of [faults] is [true]; past the end of the list every call
    succeeds. *)
Module World.
Record t := mk {
  rate_limit_records : list RateLimitRecord.t;
  next_pk : nat;
  clock : Z;
  faults : list bool
}.

Definition set_records (rows : list RateLimitRecord.t) (w : t) : t :=
  {| rate_limit_records := rows; next_pk := next_pk w;
     clock := clock w; faults := faults w |}.

Definition set_faults (fs : list bool) (w : t) : t :=
  {| rate_limit_records := rate_limit_records w; next_pk := next_pk w;
     clock := clock w; faults := fs |}.

Definition set_clock (now : Z) (w : t) : t :=
  {| rate_limit_records := rate_limit_records w; next_pk := next_pk w;
     clock := now; faults := faults w |}.
End World.

(** Computations that read and write the world and may raise. *)
Definition M (A : Type) : Type := World.t → Result A * World.t.

Global Instance M_ret : MRet M := λ A a w, (Ok a, w).
Global Instance M_bind : MBind M := λ A B k m w,
  match m w with
  | (Ok a, w') => k a w'
  | (Raise e, w') => (Raise e, w')
  end.

(** [try: body except Exception as e: handler(e)] *)
Definition try_except {A : Type} (body : M A) (handler : Exception → M A)
  : M A := λ w,
  match body w with
  | (Raise e, w') => handler e w'
  | r => r
  end.

(** [timezone.now()] *)
Definition timezone_now : M Z := λ w, (Ok (World.clock w), w).

(** [timedelta(hours=h, minutes=m)] in microseconds. *)
Definition timedelta (hours minutes : Z) : Z :=
  (hours * 3600 + minutes * 60) * 1000000.

(** One call to the database: it raises when the fault list says so. *)
Definition storage_call {A : Type} (op : M A) : M A := λ w,
  match World.faults w with
  | true :: rest => (Raise DatabaseError, World.set_faults rest w)
  | false :: rest => op (World.set_faults rest w)
  | [] => op w
  end.

(** The ORM calls made on [RateLimitRecord.objects]. *)
Module RateLimitRecords.
(** Rows matched by [ip_address=..., organization=...].  Addresses are
    compared, and stored, as the text they are given in.  That is what
    [GenericIPAddressField] does with text that is not empty and has no
    colon; text with a colon it first puts in the normal form of an IPv6
    address, and an empty address it stores as NULL, which the column
    refuses. *)
Definition matches (ip_address : string) (organization : option UUID)
    (r : RateLimitRecord.t) : Prop :=
  RateLimitRecord.ip_address r = ip_address ∧
  RateLimitRecord.organization r = organization.

Global Instance matches_dec ip organization r :
  Decision (matches ip organization r).
Proof. unfold matches. apply _. Defined.

(** [filter(P).delete()] *)
Definition filter_delete (P : RateLimitRecord.t → Prop)
    `{∀ r, Decision (P r)} : M unit :=
  storage_call (λ w,
    (Ok (), World.set_records
              (filter (λ r, ¬ P r) (World.rate_limit_records w)) w)).

(** Evaluation of [filter(P)]. *)
Definition filter_list (P : RateLimitRecord.t → Prop)
    `{∀ r, Decision (P r)} : M (list RateLimitRecord.t) :=
  storage_call (λ w, (Ok (filter P (World.rate_limit_records w)), w)).

(** [get_or_create(ip_address=, organization=, defaults=...)]: the one
    matching row, or a new row when none matches; it raises
    [MultipleObjectsReturned] when several match.  A new row takes the
    next primary key; [window_start] ([auto_now_add]) and [last_request]
    ([auto_now]) are set from the clock whatever [defaults] say.  The
    address of a new row is stored as it is given (see [matches] for the
    addresses of which that is true). *)
Definition get_or_create (ip_address : string) (organization : option UUID)
    (default_request_count : Z) : M (RateLimitRecord.t * bool) :=
  storage_call (λ w,
    match filter (matches ip_address organization)
                 (World.rate_limit_records w) with
    | [] =>
        let row :=
          {| RateLimitRecord.pk := World.next_pk w;
             RateLimitRecord.ip_address := ip_address;
             RateLimitRecord.organization := organization;
             RateLimitRecord.request_count := default_request_count;
             RateLimitRecord.window_start := World.clock w;
             RateLimitRecord.last_request := World.clock w |} in
        (Ok (row, true),
         {| World.rate_limit_records := World.rate_limit_records w ++ [row];
            World.next_pk := S (World.next_pk w);
            World.clock := World.clock w;
            World.faults := World.faults w |})
    | [row] => (Ok (row, false), w)
    | _ :: _ :: _ => (Raise MultipleObjectsReturned, w)
    end).

(** [record.save()]: the row of that primary key is overwritten, its
    [last_request] ([auto_now]) set from the clock. *)
Definition save (record : RateLimitRecord.t) : M unit :=
  storage_call (λ w,
    let stored :=
      {| RateLimitRecord.pk := RateLimitRecord.pk record;
         RateLimitRecord.ip_address := RateLimitRecord.ip_address record;
         RateLimitRecord.organization := RateLimitRecord.organization record;
         RateLimitRecord.request_count := RateLimitRecord.request_count record;
         RateLimitRecord.window_start := RateLimitRecord.window_start record;
         RateLimitRecord.last_request := World.clock w |} in
    (Ok (),
     World.set_records
       ((λ r, if decide (RateLimitRecord.pk r = RateLimitRecord.pk record)
              then stored else r) <$> World.rate_limit_records w) w)).
End RateLimitRecords.

(** Django settings read by the middleware. *)
Module Settings.
Record t := mk {
  RATE_LIMIT_REQUESTS_PER_MINUTE : option Z;
  RATE_LIMIT_REQUESTS_PER_HOUR : option Z
}.
End Settings.

Module RateLimitMiddleware.
Record t := mk {
  requests_per_minute : Z;
  requests_per_hour : Z
}.

(** [__init__]: [getattr(settings, name, default)] for both limits. *)
Definition init (settings : Settings.t) : t :=
  {| requests_per_minute :=
       default 60 (Settings.RATE_LIMIT_REQUESTS_PER_MINUTE settings);
     requests_per_hour :=
       default 1000 (Settings.RATE_LIMIT_REQUESTS_PER_HOUR settings) |}.

Definition _should_skip_rate_limiting (request : Request.t) : bool :=
  let skip_paths := ["/api/v1/health/"; "/admin/"] in
  existsb (λ path, startswith (Request.path request) path) skip_paths.

Definition _get_client_ip (request : Request.t) : string :=
  match Request.META request !! "HTTP_X_FORWARDED_FOR" with
  | Some x_forwarded_for =>
      if decide (x_forwarded_for = "")
      then default "127.0.0.1" (Request.META request !! "REMOTE_ADDR")
      else strip (split_first "," x_forwarded_for)
  | None => default "127.0.0.1" (Request.META request !! "REMOTE_ADDR")
  end.

Definition _get_organization_from_request (request : Request.t)
  : option UUID :=
  Request.organization request.

Definition _cleanup_old_records (ip_address : string) (current_time : Z)
  : M unit :=
  try_except
    (let cutoff_time := current_time - timedelta 24 0 in
     RateLimitRecords.filter_delete
       (λ r, RateLimitRecord.ip_address r = ip_address ∧
             RateLimitRecord.last_request r < cutoff_time))
    (λ e, mret ()).

Definition sum_request_count (records : list RateLimitRecord.t) : Z :=
  foldr (λ record acc, RateLimitRecord.request_count record + acc) 0 records.

Definition _count_requests_since (ip_address : string)
    (organization : option UUID) (since_time : Z) : M Z :=
  try_except
    (records ← RateLimitRecords.filter_list
                 (λ r, RateLimitRecords.matches ip_address organization r ∧
                       since_time ≤ RateLimitRecord.last_request r);
     mret (sum_request_count records))
    (λ e, mret 0).

Definition _is_rate_limited (self : t) (ip_address : string)
    (organization : option UUID) : M bool :=
  now ← timezone_now;
  _cleanup_old_records ip_address now;;
  RateLimitRecords.get_or_create ip_address organization 0;;
  let minute_ago := now - timedelta 0 1 in
  minute_requests ← _count_requests_since ip_address organization minute_ago;
  if decide (requests_per_minute self ≤ minute_requests) then mret true
  else
    let hour_ago := now - timedelta 1 0 in
    hour_requests ← _count_requests_since ip_address organization hour_ago;
    if decide (requests_per_hour self ≤ hour_requests) then mret true
    else mret false.

Definition _record_request (ip_address : string)
    (organization : option UUID) : M unit :=
  try_except
    (now ← timezone_now;
     '(rate_record, created) ←
       RateLimitRecords.get_or_create ip_address organization 1;
     if (created : bool) then (mret () : M unit)
     else
       RateLimitRecords.save
         {| RateLimitRecord.pk := RateLimitRecord.pk rate_record;
            RateLimitRecord.ip_address := RateLimitRecord.ip_address rate_record;
            RateLimitRecord.organization := RateLimitRecord.organization rate_record;
            RateLimitRecord.request_count :=
              RateLimitRecord.request_count rate_record + 1;
            RateLimitRecord.window_start := RateLimitRecord.window_start rate_record;
            RateLimitRecord.last_request := now |})
    (λ e, mret ()).

Definition _rate_limit_response (self : t) (ip_address : string)
  : Response.t :=
  {| Response.status_code := 429;
     Response.data :=
       VDict [ ("error", VStr "Rate limit exceeded");
               ("message",
                VStr ("Too many requests from IP " +:+ ip_address +:+
                      ". Please try again later."));
               ("limits",
                VDict [ ("requests_per_minute", VInt (requests_per_minute self));
                        ("requests_per_hour", VInt (requests_per_hour self)) ]) ] |}.

(** [process_request]: [None] lets the request through to the view. *)
Definition process_request (self : t) (request : Request.t)
  : M (option Response.t) :=
  if _should_skip_rate_limiting request then mret None
  else
    let ip_address := _get_client_ip request in
    let organization := _get_organization_from_request request in
    limited ← _is_rate_limited self ip_address organization;
    if (limited : bool) then mret (Some (_rate_limit_response self ip_address))
    else
      _record_request ip_address organization;;
      mret None.
End RateLimitMiddleware.

(** A request arriving at time [now]. *)
Definition handle (mw : RateLimitMiddleware.t) (now : Z) (request : Request.t)
  : M (option Response.t) := λ w,
  RateLimitMiddleware.process_request mw request (World.set_clock now w).

(** Requests handled one after the other; the outcomes in order, and the
    world they leave. *)
Fixpoint handle_all (mw : RateLimitMiddleware.t)
    (requests : list (Z * Request.t)) (w : World.t)
  : list (Result (option Response.t)) * World.t :=
  match requests with
  | [] => ([], w)
  | (now, request) :: rest =>
      let '(outcome, w') := handle mw now request w in
      let '(outcomes, w'') := handle_all mw rest w' in
      (outcome :: outcomes, w'')
  end.

(** ** Reading responses, and the constants of the specification *)

(** The value under [key] in the body of a response. *)
Definition response_item (key : string) (r : Response.t) : option Value :=
  dict_get key (Response.data r).

(** The canonical seven fields of the specification, in its order. *)
Definition canonical_seven : list string :=
  ["first_name"; "last_name"; "email"; "department"; "position";
   "location"; "status"].

(** The eight recognised column keys. *)
Definition recognised_keys : list string :=
  OrganizationConfig.AVAILABLE_COLUMNS.*1.

(** The four values of the status enumeration. *)
Definition status_values : list string := Employee.STATUS_CHOICES.*1.

(** The schema's uniqueness constraints on the tables the views read:
    [Organization.id] is a primary key and [OrganizationConfig.organization]
    a one-to-one relation. *)
Definition schema_constraints (db : Database.t) : Prop :=
  NoDup (Organization.id <$> Database.organizations db) ∧
  NoDup (OrganizationConfig.organization <$> Database.organization_configs db).

(** [organization] is a stored, active organization with that id. *)
Definition active_organization (db : Database.t) (organization_id : UUID)
    (organization : Organization.t) : Prop :=
  organization ∈ Database.organizations db ∧
  Organization.id organization = organization_id ∧
  Organization.is_active organization = true.

(** The same database with another [employees] table. *)
Definition with_employees (employees : list Employee.t) (db : Database.t)
  : Database.t :=
  {| Database.organizations := Database.organizations db;
     Database.organization_configs := Database.organization_configs db;
     Database.employees := employees;
     Database.tie_rank := Database.tie_rank db |}.

(** The same tables served by a database that breaks ties by [rank]. *)
Definition with_rank (rank : Employee.t → nat) (db : Database.t)
  : Database.t :=
  {| Database.organizations := Database.organizations db;
     Database.organization_configs := Database.organization_configs db;
     Database.employees := Database.employees db;
     Database.tie_rank := rank |}.

(** ** The fixtures of tests.py *)

Module Fixtures.
Definition employee (id organization : UUID)
    (first_name last_name email department position location status : string)
  : Employee.t :=
  {| Employee.id := id; Employee.organization := organization;
     Employee.first_name := first_name; Employee.last_name := last_name;
     Employee.email := email; Employee.phone := None;
     Employee.department := department; Employee.position := position;
     Employee.location := location; Employee.status := status;
     Employee.hire_date := 0; Employee.created_at := 0;
     Employee.updated_at := 0 |}.

Definition org1 : Organization.t := Organization.mk 1 "Organization 1" true.
Definition org2 : Organization.t := Organization.mk 2 "Organization 2" true.

Definition alice : Employee.t :=
  employee 11 1 "Alice" "Smith" "alice.smith@org1.com" "Engineering"
           "Senior Engineer" "San Francisco" "active".
Definition bob : Employee.t :=
  employee 12 1 "Bob" "Johnson" "bob.johnson@org1.com" "Marketing"
           "Manager" "New York" "active".
Definition charlie : Employee.t :=
  employee 13 2 "Charlie" "Brown" "charlie.brown@org2.com" "Sales"
           "Representative" "Chicago" "inactive".

(** [APIEndpointsTest.setUp] *)
Definition db : Database.t :=
  {| Database.organizations := [org1; org2];
     Database.organization_configs :=
       [ OrganizationConfig.mk 1
           ["first_name"; "last_name"; "email"; "department"]
           ["first_name"; "last_name"; "email"; "department"] ];
     Database.employees := [alice; bob; charlie];
     Database.tie_rank := λ e, N.to_nat (Employee.id e) |}.

Definition no_params : QueryParams.t :=
  QueryParams.mk None None None None None None None.

(** A GET from 10.0.0.1 on [path]. *)
Definition get (path : string) (query_params : QueryParams.t)
    (organization : option UUID) : Request.t :=
  {| Request.path := path;
     Request.META := {[ "REMOTE_ADDR" := "10.0.0.1" ]};
     Request.query_params := query_params;
     Request.organization := organization |}.

Definition search_org1 (query_params : QueryParams.t) : Request.t :=
  get "/api/v1/organizations/1/employees/search/" query_params (Some 1%N).
End Fixtures.

(** ** Ledger states named in the statements about the rate limiter *)

(** Storage works, the ledger holds no row for [(ip, organization)], and
    the primary-key sequence is ahead of every stored key. *)
Definition no_record_of (ip : string) (organization : option UUID)
    (w : World.t) : Prop :=
  World.faults w = [] ∧
  filter (RateLimitRecords.matches ip organization)
         (World.rate_limit_records w) = [] ∧
  Forall (λ r, (RateLimitRecord.pk r < World.next_pk w)%nat)
         (World.rate_limit_records w).

(** Storage works and the ledger holds one row for [(ip, organization)],
    with [request_count = c] and [last_request = t]; no other row shares
    its primary key. *)
Definition one_record_of (ip : string) (organization : option UUID)
    (c t : Z) (w : World.t) : Prop :=
  World.faults w = [] ∧
  ∃ r,
    filter (RateLimitRecords.matches ip organization)
           (World.rate_limit_records w) = [r] ∧
    RateLimitRecord.request_count r = c ∧
    RateLimitRecord.last_request r = t ∧
    ∀ r', r' ∈ World.rate_limit_records w →
          RateLimitRecord.pk r' = RateLimitRecord.pk r → r' = r.

(** A request the limiter counts for [(ip, organization)]. *)
Definition counted_for (ip : string) (organization : option UUID)
    (request : Request.t) : Prop :=
  RateLimitMiddleware._should_skip_rate_limiting request = false ∧
  RateLimitMiddleware._get_client_ip request = ip ∧
  RateLimitMiddleware._get_organization_from_request request = organization.

(** The two threshold tests of [_is_rate_limited] on a window count [c]
    (one row in both windows counts the same in each). *)
Definition limited_at (mw : RateLimitMiddleware.t) (c : Z) : Prop :=
  RateLimitMiddleware.requests_per_minute mw ≤ c ∨
  RateLimitMiddleware.requests_per_hour mw ≤ c.

(** ** Ledgers and requests used in the examples *)

Module Ledgers.
Definition mw3 : RateLimitMiddleware.t :=
  RateLimitMiddleware.init
    {| Settings.RATE_LIMIT_REQUESTS_PER_MINUTE := Some 3;
       Settings.RATE_LIMIT_REQUESTS_PER_HOUR := None |}.

Definition search : Request.t := Fixtures.search_org1 Fixtures.no_params.

Definition health : Request.t :=
  Fixtures.get "/api/v1/health/" Fixtures.no_params None.


(** An empty ledger on a store whose second call is going to fail. *)
Definition second_call_fails : World.t :=
  {| World.rate_limit_records := []; World.next_pk := 1;
     World.clock := 0; World.faults := [false; true] |}.

Definition row (pk : nat) (ip : string) (organization : option UUID)
    (request_count last_request : Z) : RateLimitRecord.t :=
  {| RateLimitRecord.pk := pk; RateLimitRecord.ip_address := ip;
     RateLimitRecord.organization := organization;
     RateLimitRecord.request_count := request_count;
     RateLimitRecord.window_start := 0;
     RateLimitRecord.last_request := last_request |}.

(** Two rows for the same key, as two first requests racing through
    [get_or_create] leave them, on a working store. *)
Definition duplicated : World.t :=
  {| World.rate_limit_records :=
       [ row 1 "10.0.0.1" (Some 1%N) 1 0; row 2 "10.0.0.1" (Some 1%N) 1 0 ];
     World.next_pk := 3; World.clock := 0; World.faults := [] |}.

(** Rows of two clients, one of them a day and more old at time
    [100000000000]. *)
Definition aged : World.t :=
  {| World.rate_limit_records :=
       [ row 1 "10.0.0.1" (Some 1%N) 5 0;
         row 2 "10.0.0.1" None 2 99999999999;
         row 3 "10.0.0.2" (Some 1%N) 7 0 ];
     World.next_pk := 4; World.clock := 100000000000; World.faults := [] |}.
End Ledgers.

(** Requests of [test_invalid_search_parameters] and of the paging
    examples. *)
Module Searches.
Definition invalid_status : QueryParams.t :=
  QueryParams.mk None None None None (Some "invalid_status") None None.

(** The same query on an organization id that is not stored. *)
Definition unknown_organization : UUID := 7%N.

Definition invalid_status_elsewhere : Request.t :=
  Fixtures.get "/api/v1/organizations/7/employees/search/" invalid_status None.

(** [page=3&page_size=1] on the two employees of Organization 1. *)
Definition third_page : QueryParams.t :=
  QueryParams.mk None None None None None (Some (Numeral 3)) (Some (Numeral 1)).

Definition third_page_data : EmployeeSearchSerializer.validated_data_t :=
  EmployeeSearchSerializer.mk None None None None None 3 1.

(** A search without parameters on Organization 2, which has no
    configuration row, and what validation makes of it. *)
Definition search_org2 : Request.t :=
  Fixtures.get "/api/v1/organizations/2/employees/search/" Fixtures.no_params
    (Some 2%N).

Definition no_params_data : EmployeeSearchSerializer.validated_data_t :=
  EmployeeSearchSerializer.mk None None None None None 1 50.
End Searches.

(** ** Further ledger notions *)


(** The table's own guarantees: primary keys are unique and the sequence is
    ahead of every key handed out. *)
Definition ledger_wf (w : World.t) : Prop :=
  NoDup (RateLimitRecord.pk <$> World.rate_limit_records w) ∧
  Forall (λ r, (RateLimitRecord.pk r < World.next_pk w)%nat)
         (World.rate_limit_records w).

(** The ledger proper: the rows and the next primary key. *)
Definition ledger (w : World.t) : list RateLimitRecord.t * nat :=
  (World.rate_limit_records w, World.next_pk w).

(** The row of [r] after one more request at time [now]. *)
Definition bumped (now : Z) (r : RateLimitRecord.t) : RateLimitRecord.t :=
  {| RateLimitRecord.pk := RateLimitRecord.pk r;
     RateLimitRecord.ip_address := RateLimitRecord.ip_address r;
     RateLimitRecord.organization := RateLimitRecord.organization r;
     RateLimitRecord.request_count := RateLimitRecord.request_count r + 1;
     RateLimitRecord.window_start := RateLimitRecord.window_start r;
     RateLimitRecord.last_request := now |}.

(** What the check of a request from [ip] for [organization] at time [now]
    can do to the ledger: prune the stale rows of [ip], or create the
    key's row with a count of 0. *)
Inductive check_step (ip : string) (organization : option UUID) (now : Z)
  : relation (list RateLimitRecord.t * nat) :=
| check_prune rows n :
    check_step ip organization now (rows, n)
      (filter (λ r, ¬ (RateLimitRecord.ip_address r = ip ∧
                       RateLimitRecord.last_request r < now - timedelta 24 0))
              rows, n)
| check_create rows n :
    filter (RateLimitRecords.matches ip organization) rows = [] →
    check_step ip organization now (rows, n)
      (rows ++ [RateLimitRecord.mk n ip organization 0 now now], S n).

(** What recording it can do: create the key's row with a count of 1, or
    overwrite the key's one row, found by primary key, with its count
    raised by one. *)
Inductive record_step (ip : string) (organization : option UUID) (now : Z)
  : relation (list RateLimitRecord.t * nat) :=
| record_create rows n :
    filter (RateLimitRecords.matches ip organization) rows = [] →
    record_step ip organization now (rows, n)
      (rows ++ [RateLimitRecord.mk n ip organization 1 now now], S n)
| record_save rows n r :
    filter (RateLimitRecords.matches ip organization) rows = [r] →
    record_step ip organization now (rows, n)
      ((λ x, if decide (RateLimitRecord.pk x = RateLimitRecord.pk r)
             then bumped now r else x) <$> rows, n).

(** More ledgers for the examples. *)
Module Throttled.
(** The client of [Ledgers.search] has used its three requests a moment
    ago; another client has a row too. *)
Definition at_limit : World.t :=
  {| World.rate_limit_records :=
       [ Ledgers.row 1 "10.0.0.1" (Some 1%N) 3 0;
         Ledgers.row 2 "10.0.0.2" (Some 1%N) 1 0 ];
     World.next_pk := 3; World.clock := 5; World.faults := [] |}.

(** The same ledger on a store that fails on its third and fourth calls,
    the two counting queries of a request. *)
Definition at_limit_counting_fails : World.t :=
  {| World.rate_limit_records :=
       [ Ledgers.row 1 "10.0.0.1" (Some 1%N) 3 0;
         Ledgers.row 2 "10.0.0.2" (Some 1%N) 1 0 ];
     World.next_pk := 3; World.clock := 5;
     World.faults := [false; false; true; true] |}.
End Throttled.

(** ** Notions used in the statements about the views *)

(** The page number a valid query asks for. *)
Definition requested_page (q : QueryParams.t) : Z :=
  match QueryParams.page q with
  | Some (Numeral n) => n
  | _ => 1
  end.

(** The integer that [IntegerField] reads in a text, when it reads one. *)
Definition read_by_field (t : IntText) : option Z :=
  match t with
  | Numeral n | WithPoint n => Some n
  | NotANumeral => None
  end.

(** The [page] parameter is absent, or text that [int()] reads. *)
Definition plain_page (q : QueryParams.t) : Prop :=
  match QueryParams.page q with
  | Some (WithPoint _) | Some NotANumeral => False
  | _ => True
  end.

(** The rows of page [p] when pages hold [per_page] rows. *)
Definition page_slice {A : Type} (per_page p : Z) (rows : list A) : list A :=
  take (Z.to_nat per_page) (drop (Z.to_nat ((p - 1) * per_page)) rows).

(** The same query asking for page [p]. *)
Definition with_page (p : Z) (q : QueryParams.t) : QueryParams.t :=
  {| QueryParams.search := QueryParams.search q;
     QueryParams.department := QueryParams.department q;
     QueryParams.position := QueryParams.position q;
     QueryParams.location := QueryParams.location q;
     QueryParams.status := QueryParams.status q;
     QueryParams.page := Some (Numeral p);
     QueryParams.page_size := QueryParams.page_size q |}.

(** No stored organization is active under that id. *)
Definition no_active_organization (db : Database.t) (organization_id : UUID)
  : Prop :=
  Forall (λ o, ¬ (Organization.id o = organization_id ∧
                  Organization.is_active o = true))
         (Database.organizations db).

(** Queries of the paging and filtering examples. *)
Module Pages.
(** [page_size=1], as in [test_search_employees_pagination]. *)
Definition one_per_page : QueryParams.t :=
  QueryParams.mk None None None None None None (Some (Numeral 1)).

Definition one_per_page_data : EmployeeSearchSerializer.validated_data_t :=
  EmployeeSearchSerializer.mk None None None None None 1 1.

(** [page_size=1000], as in [test_invalid_search_parameters]. *)
Definition thousand_per_page : QueryParams.t :=
  QueryParams.mk None None None None None None (Some (Numeral 1000)).

(** [page=1.0] *)
Definition first_page_with_point : QueryParams.t :=
  QueryParams.mk None None None None None (Some (WithPoint 1)) None.

(** [department=Sales] on Organization 1, where nobody is in sales. *)
Definition sales : QueryParams.t :=
  QueryParams.mk None (Some "Sales") None None None None None.

Definition sales_data : EmployeeSearchSerializer.validated_data_t :=
  EmployeeSearchSerializer.mk None (Some "Sales") None None None 1 50.

(** [search=SMITH&status=active] *)
Definition smith_active : QueryParams.t :=
  QueryParams.mk (Some "SMITH") None None None (Some "active") None None.

Definition smith_active_data : EmployeeSearchSerializer.validated_data_t :=
  EmployeeSearchSerializer.mk (Some "SMITH") None None None (Some "active") 1 50.
End Pages.


(** The 400 response of [search_employees] for parameters whose
    [serializer.errors] hold [details] under [field]. *)
Definition refused_for (field : string) (details : list ErrorDetail)
    (response : Response.t) : Prop :=
  ∃ errors,
    (field, details) ∈ errors ∧
    response =
      {| Response.status_code := 400;
         Response.data :=
           VDict [ ("error", VStr "Invalid search parameters");
                   ("details",
                    EmployeeSearchSerializer.render_errors errors) ] |}.

(** The configuration row of an organization, when it has one. *)
Definition config_of (db : Database.t) (organization : Organization.t)
    (c : OrganizationConfig.t) : Prop :=
  c ∈ Database.organization_configs db ∧
  OrganizationConfig.organization c = Organization.id organization.


(** ** Notions used in the statements about the client address *)

(** The same request sent with an [X-Forwarded-For] header. *)
Definition forwarded_for (x_forwarded_for : string) (request : Request.t)
  : Request.t :=
  {| Request.path := Request.path request;
     Request.META :=
       <[ "HTTP_X_FORWARDED_FOR" := x_forwarded_for ]> (Request.META request);
     Request.query_params := Request.query_params request;
     Request.organization := Request.organization request |}.

(** The address the middleware reads in a non-empty header. *)
Definition first_forwarded (x_forwarded_for : string) : string :=
  strip (split_first "," x_forwarded_for).

(** Text that [GenericIPAddressField] compares and stores as it is given:
    not empty, and without a colon. *)
Definition stored_as_given (ip : string) : Prop :=
  ip ≠ "" ∧ contains ":" ip = false.

(** The ledger holds no row of that address. *)
Definition unknown_client (ip : string) (w : World.t) : Prop :=
  Forall (λ r, RateLimitRecord.ip_address r ≠ ip)
         (World.rate_limit_records w).

(** Arrival times and headers of five requests of one machine, each naming
    another address. *)
Definition rotating_headers : list (Z * string) :=
  [ (6, "192.0.2.1"); (7, "192.0.2.2, 10.0.0.1"); (8, " 192.0.2.3");
    (9, "192.0.2.4"); (10, "192.0.2.5") ].


(** ** serializers.py: OrganizationSerializer; views.py: list_organizations *)

Module OrganizationSerializer.
(** [Meta.fields = ['id', 'name', 'is_active']] *)
Record data_t := mk {
  id : UUID;
  name : string;
  is_active : bool
}.

Definition data (instance : Organization.t) : data_t :=
  {| id := Organization.id instance;
     name := Organization.name instance;
     is_active := Organization.is_active instance |}.

(** [OrganizationSerializer(rows, many=True).data] *)
Definition many_data (rows : list Organization.t) : list data_t :=
  data <$> rows.
End OrganizationSerializer.

(** [Organization.Meta.ordering = ['name']] (byte order, as for
    employees). *)
Definition organization_le (o1 o2 : Organization.t) : Prop :=
  String.le (Organization.name o1) (Organization.name o2).

Global Instance organization_le_dec : RelDecision organization_le.
Proof. intros o1 o2. unfold organization_le. apply _. Defined.

(** The body of the 200 response of [list_organizations]. *)
Record OrganizationList := mk_organization_list {
  organizations : list OrganizationSerializer.data_t;
  organizations_count : Z
}.

(** [list_organizations(request)], on tables that can be read. *)
Definition list_organizations (db : Database.t) : OrganizationList :=
  let organizations :=
    merge_sort organization_le
      (filter (λ o, Organization.is_active o = true)
              (Database.organizations db)) in
  {| organizations := OrganizationSerializer.many_data organizations;
     organizations_count := Z.of_nat (length organizations) |}.


(** The client of [Ledgers.search] used its three requests, the last of
    them ten minutes before the clock's time. *)
Definition quiet_for_ten_minutes : World.t :=
  {| World.rate_limit_records :=
       [ Ledgers.row 1 "10.0.0.1" (Some 1%N) 3 0;
         Ledgers.row 2 "10.0.0.2" (Some 1%N) 1 0 ];
     World.next_pk := 3; World.clock := 600000000; World.faults := [] |}.


(** What validation makes of the same query asking for page [p]. *)
Definition at_page (p : Z) (d : EmployeeSearchSerializer.validated_data_t)
  : EmployeeSearchSerializer.validated_data_t :=
  {| EmployeeSearchSerializer.search := EmployeeSearchSerializer.search d;
     EmployeeSearchSerializer.department := EmployeeSearchSerializer.department d;
     EmployeeSearchSerializer.position := EmployeeSearchSerializer.position d;
     EmployeeSearchSerializer.location := EmployeeSearchSerializer.location d;
     EmployeeSearchSerializer.status := EmployeeSearchSerializer.status d;
     EmployeeSearchSerializer.page := p;
     EmployeeSearchSerializer.page_size := EmployeeSearchSerializer.page_size d |}.

(** The same request asking for page [p]. *)
Definition asking_for_page (p : Z) (request : Request.t) : Request.t :=
  {| Request.path := Request.path request;
     Request.META := Request.META request;
     Request.query_params := with_page p (Request.query_params request);
     Request.organization := Request.organization request |}.

(* ================================================================== *)
(** * Properties *)

Lemma fields_pop_elem (name k : string) (fields : list string) :
  k ∈ DynamicEmployeeSerializer.fields_pop name fields ↔ k ∈ fields ∧ k ≠ name.
Proof.
  unfold DynamicEmployeeSerializer.fields_pop.
  rewrite list_elem_of_filter. tauto.
Qed.

Lemma fold_pop_elem (removed fields : list string) (k : string) :
  k ∈ foldl (λ fs n, DynamicEmployeeSerializer.fields_pop n fs) fields removed
  ↔ k ∈ fields ∧ k ∉ removed.
Proof.
  revert fields. induction removed as [|n removed IH]; intros fields; simpl.
  - split; [intros H; split; [done | apply not_elem_of_nil] | tauto].
  - rewrite IH, fields_pop_elem, not_elem_of_cons. tauto.
Qed.

Lemma keys_to_representation (fields : list string) (e : Employee.t) :
  keys (DynamicEmployeeSerializer.to_representation fields e) = fields.
Proof.
  unfold keys, DynamicEmployeeSerializer.to_representation.
  induction fields as [|f fs IH]; [done|].
  rewrite !fmap_cons. simpl. by rewrite IH.
Qed.

(** The fields left by the constructor are the model's fields that are in
    the [allowed] set it builds. *)
Lemma init_elem (c : string) (cols : list string) (k : string) :
  k ∈ DynamicEmployeeSerializer.init (Some (c :: cols)) ↔
  k ∈ DynamicEmployeeSerializer.Meta_fields ∧
  (k ∈ c :: cols ∨ k = "id" ∨
   (k = "full_name" ∧ "first_name" ∈ c :: cols ∧ "last_name" ∈ c :: cols)).
Proof.
  unfold DynamicEmployeeSerializer.init.
  rewrite fold_pop_elem, elem_of_elements.
  set (vc := c :: cols).
  rewrite elem_of_difference, elem_of_list_to_set.
  destruct (decide (k ∈ vc)) as [Hvc|Hvc];
    destruct (decide (k = "id")) as [Hid|Hid];
    destruct (decide (k = "full_name")) as [Hfn|Hfn];
    case_decide as Hnames;
    rewrite ?elem_of_union, ?elem_of_singleton, ?elem_of_list_to_set in Hnames;
    rewrite ?elem_of_union, ?elem_of_singleton, ?elem_of_list_to_set;
    try tauto.
  destruct Hnames as [[?|?] [?|?]]; try discriminate. tauto.
Qed.

(** C2.  Projection key-set bound: for every employee and every non-empty
    [visible_columns], each key of the projected row is in
    [visible_columns], or is [id], or is [full_name] with both [first_name]
    and [last_name] in [visible_columns]. *)
Theorem projection_keys_bounded (e : Employee.t) (visible_columns : list string)
    (k : string) :
  visible_columns ≠ [] →
  k ∈ keys (DynamicEmployeeSerializer.data (Some visible_columns) e) →
  k ∈ visible_columns ∨ k = "id" ∨
  (k = "full_name" ∧ "first_name" ∈ visible_columns
                   ∧ "last_name" ∈ visible_columns).
Proof.
  intros Hne. unfold DynamicEmployeeSerializer.data.
  rewrite keys_to_representation.
  destruct visible_columns as [|c cols]; [done|].
  rewrite init_elem. tauto.
Qed.

(** ** The views *)

Lemma queryset_get_Ok {A : Type} (rows : list A) (exn : Exception) (row : A) :
  queryset_get rows exn = Ok row → rows = [row].
Proof.
  destruct rows as [|r [|r' rows]]; simpl; intros H; inversion H. done.
Qed.

Lemma get_object_or_404_Ok (db : Database.t) (organization_id : UUID)
    (organization : Organization.t) :
  Views.get_object_or_404 db organization_id = Ok organization →
  organization ∈ Database.organizations db ∧
  Organization.id organization = organization_id ∧
  Organization.is_active organization = true.
Proof.
  unfold Views.get_object_or_404. intros H.
  destruct (queryset_get _ _) as [o|e] eqn:Hget.
  - inversion H; subst o. apply queryset_get_Ok in Hget.
    assert (organization ∈ filter
              (λ o, Organization.id o = organization_id ∧
                    Organization.is_active o = true)
              (Database.organizations db)) as Hin
      by (rewrite Hget; apply list_elem_of_singleton; done).
    apply list_elem_of_filter in Hin. tauto.
  - destruct e; discriminate.
Qed.

(** What validation guarantees about the paging parameters. *)
Lemma is_valid_bounds (q : QueryParams.t)
    (search_data : EmployeeSearchSerializer.validated_data_t) :
  EmployeeSearchSerializer.is_valid q = inl search_data →
  1 ≤ EmployeeSearchSerializer.page search_data ∧
  1 ≤ EmployeeSearchSerializer.page_size search_data ≤ 100 ∧
  (∀ n, QueryParams.page q = Some (Numeral n) →
        EmployeeSearchSerializer.page search_data = n) ∧
  (QueryParams.page q = None → EmployeeSearchSerializer.page search_data = 1) ∧
  QueryParams.page q ≠ Some NotANumeral.
Proof.
  unfold EmployeeSearchSerializer.is_valid, EmployeeSearchSerializer.validate,
    EmployeeSearchSerializer.IntegerField.
  intros H.
  destruct (QueryParams.page q) as [[n|n|]|], (QueryParams.page_size q) as [[m|m|]|];
    simpl in H; repeat case_decide; simpl in H;
    repeat match type of H with
           | context [match ?e with _ => _ end] => destruct e eqn:?; try discriminate
           end.
  all: try (exfalso; repeat match goal with
                 | Hx : _ ++ _ = [] |- _ => apply app_eq_nil in Hx as [_ Hx]
                 end; discriminate).
  all: inversion H; subst search_data; simpl.
  all: repeat split; try lia; try done; intros k Hk; by inversion Hk.
Qed.

Lemma get_page_size_pos (self_page_size : Z) (q : QueryParams.t) :
  1 ≤ self_page_size →
  1 ≤ EmployeeSearchPagination.get_page_size self_page_size q.
Proof.
  unfold EmployeeSearchPagination.get_page_size,
    EmployeeSearchPagination.max_page_size.
  intros Hps. destruct (QueryParams.page_size q) as [[n|n|]|]; try done.
  case_decide; lia.
Qed.

Lemma paginate_queryset_Some (self_page_size : Z) (queryset : list Employee.t)
    (q : QueryParams.t) (page : EmployeeSearchPagination.Page) :
  EmployeeSearchPagination.paginate_queryset self_page_size queryset q
    = Ok (Some page) →
  EmployeeSearchPagination.object_list page ⊆ queryset.
Proof.
  unfold EmployeeSearchPagination.paginate_queryset. intros H.
  case_decide; [done|].
  destruct (QueryParams.page q) as [[n|n|]|]; try done;
    repeat case_decide; try done; inversion H; simpl;
    (etransitivity; [apply subseteq_take | apply subseteq_drop]).
Qed.

Lemma paginate_queryset_plain (self_page_size : Z)
    (queryset : list Employee.t) (q : QueryParams.t)
    (page : EmployeeSearchPagination.Page) :
  EmployeeSearchPagination.paginate_queryset self_page_size queryset q
    = Ok (Some page) →
  plain_page q.
Proof.
  unfold EmployeeSearchPagination.paginate_queryset, plain_page.
  case_decide; [done|].
  by destruct (QueryParams.page q) as [[n|n|]|].
Qed.

Lemma paginate_queryset_not_None (self_page_size : Z)
    (queryset : list Employee.t) (q : QueryParams.t) :
  1 ≤ self_page_size →
  EmployeeSearchPagination.paginate_queryset self_page_size queryset q
    ≠ Ok None.
Proof.
  intros Hps. pose proof (get_page_size_pos self_page_size q Hps).
  unfold EmployeeSearchPagination.paginate_queryset.
  case_decide; [lia|].
  destruct (QueryParams.page q) as [[n|n|]|]; repeat case_decide; done.
Qed.

Lemma filter_queryset_elem (db : Database.t) (organization : Organization.t)
    (search_data : EmployeeSearchSerializer.validated_data_t) (e : Employee.t) :
  e ∈ Views.filter_queryset db organization search_data →
  e ∈ Database.employees db ∧
  Employee.organization e = Organization.id organization.
Proof.
  unfold Views.filter_queryset.
  repeat match goal with
         | |- context [match Views.given ?o with _ => _ end] =>
             destruct (Views.given o)
         end;
    rewrite ?list_elem_of_filter; tauto.
Qed.

Lemma order_by_name_elem (rank : Employee.t → nat)
    (queryset : list Employee.t) (e : Employee.t) :
  e ∈ order_by_name rank queryset ↔ e ∈ queryset.
Proof. unfold order_by_name. by rewrite merge_sort_Permutation. Qed.

(** What a search that answers 200 is made of. *)
Lemma search_employees_200 (db : Database.t) (request : Request.t)
    (organization_id : UUID) :
  Response.status_code (Views.search_employees db request organization_id)
    = 200 →
  ∃ organization visible_columns search_data page,
    Views.get_object_or_404 db organization_id = Ok organization ∧
    Views.get_visible_columns db organization = Ok visible_columns ∧
    EmployeeSearchSerializer.is_valid (Request.query_params request)
      = inl search_data ∧
    Views.search_page db organization (Request.query_params request)
      search_data = Ok (Some page) ∧
    Views.search_employees db request organization_id =
      {| Response.status_code := 200;
         Response.data :=
           VDict (EmployeeSearchPagination.get_paginated_response page
                    (VDict <$> DynamicEmployeeSerializer.many_data
                                 (Some visible_columns)
                                 (EmployeeSearchPagination.object_list page)) ++
                  [("meta", Views.meta organization visible_columns search_data)]) |}.
Proof.
  unfold Views.search_employees, Views.search_employees_try.
  destruct (Views.get_object_or_404 db organization_id) as [org|e] eqn:Horg;
    simpl; [|by destruct e].
  destruct (Views.get_visible_columns db org) as [vc|e] eqn:Hvc;
    simpl; [|by destruct e].
  destruct (EmployeeSearchSerializer.is_valid _) as [sd|errors] eqn:Hvalid;
    simpl; [|done].
  destruct (Views.search_page db org _ sd) as [[page|]|e] eqn:Hpage;
    simpl; [| |by destruct e].
  - intros _. by exists org, vc, sd, page.
  - exfalso. unfold Views.search_page in Hpage.
    apply paginate_queryset_not_None in Hpage; [done|].
    apply is_valid_bounds in Hvalid. lia.
Qed.

(** C1.  Tenant isolation: whatever the filters, a search against an
    organization that is answered with results only returns rows projected
    from stored employees whose [organization] is the one named in the
    request path; no row comes from an employee of another organization. *)
Theorem tenant_isolation (db : Database.t) (request : Request.t)
    (organization_id : UUID) :
  Response.status_code (Views.search_employees db request organization_id)
    = 200 →
  ∃ (visible_columns : list string) (rows : list Employee.t),
    response_item "results" (Views.search_employees db request organization_id)
      = Some (VList (VDict <$> DynamicEmployeeSerializer.many_data
                                 (Some visible_columns) rows)) ∧
    Forall (λ e, e ∈ Database.employees db ∧
                 Employee.organization e = organization_id) rows.
Proof.
  intros H200.
  destruct (search_employees_200 _ _ _ H200)
    as (org & vc & sd & page & Horg & _ & _ & Hpage & ->).
  exists vc, (EmployeeSearchPagination.object_list page).
  split; [reflexivity|].
  apply Forall_forall. intros e He.
  apply paginate_queryset_Some in Hpage. apply Hpage in He.
  apply order_by_name_elem, filter_queryset_elem in He.
  apply get_object_or_404_Ok in Horg. destruct He as [? ->]. tauto.
Qed.

(** Under a uniqueness constraint on [key], a lookup that fixes the key
    finds the one row that satisfies it. *)
Lemma filter_unique_key {A K : Type} (key : A → K) (P : A → Prop)
    `{∀ x, Decision (P x)} (rows : list A) (row : A) :
  NoDup (key <$> rows) → row ∈ rows → P row →
  (∀ other, P other → key other = key row) →
  filter P rows = [row].
Proof.
  intros Hnodup Hin HP Hkey.
  induction rows as [|r rows IH]; [by apply elem_of_nil in Hin|].
  rewrite fmap_cons in Hnodup. apply NoDup_cons in Hnodup as [Hr Hnodup].
  assert (∀ l : list A, (∀ y, y ∈ l → ¬ P y) → filter P l = []) as Hnone.
  { intros l Hl. induction l as [|y l IHl]; [done|].
    rewrite filter_cons_False; [|apply Hl; left].
    apply IHl. intros z Hz. apply Hl. by right. }
  apply elem_of_cons in Hin as [<-|Hin].
  - rewrite filter_cons_True by done. f_equal. apply Hnone.
    intros y Hy Py. apply Hr. rewrite <- (Hkey y Py).
    by apply list_elem_of_fmap_2.
  - rewrite filter_cons_False; [by apply IH|].
    intros Pr. apply Hr. rewrite (Hkey r Pr). by apply list_elem_of_fmap_2.
Qed.

Lemma filter_at_most_one {A K : Type} `{EqDecision K} (key : A → K) (k : K)
    (rows : list A) :
  NoDup (key <$> rows) →
  filter (λ x, key x = k) rows = [] ∨ ∃ row, filter (λ x, key x = k) rows = [row].
Proof.
  intros Hnodup.
  destruct (filter (λ x, key x = k) rows) as [|row rest] eqn:Hf; [by left|].
  right. exists row.
  assert (row ∈ filter (λ x, key x = k) rows) as Hin by (rewrite Hf; left).
  apply list_elem_of_filter in Hin as [Hk Hin].
  rewrite <- Hf. apply (filter_unique_key key); try done. congruence.
Qed.

Lemma get_object_or_404_active (db : Database.t) (organization_id : UUID)
    (organization : Organization.t) :
  schema_constraints db →
  active_organization db organization_id organization →
  Views.get_object_or_404 db organization_id = Ok organization.
Proof.
  intros [Hpk _] (Hin & Hid & Hactive). unfold Views.get_object_or_404.
  rewrite (filter_unique_key Organization.id _ _ organization); try done.
  intros other [Ho _]. congruence.
Qed.

Lemma get_default_columns_empty (c : OrganizationConfig.t) :
  OrganizationConfig.visible_columns c = [] →
  OrganizationConfig.get_default_columns c = canonical_seven.
Proof. unfold OrganizationConfig.get_default_columns. by intros ->. Qed.

(** Under the one-to-one constraint the column lookup cannot raise. *)
Lemma get_visible_columns_Ok (db : Database.t) (organization : Organization.t) :
  schema_constraints db →
  ∃ visible_columns,
    Views.get_visible_columns db organization = Ok visible_columns.
Proof.
  intros [_ Hone]. unfold Views.get_visible_columns, Views.config.
  destruct (filter_at_most_one OrganizationConfig.organization
              (Organization.id organization) _ Hone) as [->|[c ->]];
    simpl; eauto.
Qed.

Lemma order_by_name_length (rank : Employee.t → nat)
    (queryset : list Employee.t) :
  length (order_by_name rank queryset) = length queryset.
Proof.
  unfold order_by_name. apply Permutation_length, merge_sort_Permutation.
Qed.

Lemma paginate_queryset_spec (self_page_size : Z) (queryset : list Employee.t)
    (q : QueryParams.t) :
  1 ≤ self_page_size →
  plain_page q →
  let per_page := EmployeeSearchPagination.get_page_size self_page_size q in
  let pages :=
    EmployeeSearchPagination.num_pages (Z.of_nat (length queryset)) per_page in
  EmployeeSearchPagination.paginate_queryset self_page_size queryset q =
    if decide (1 ≤ requested_page q ≤ pages)
    then Ok (Some
           {| EmployeeSearchPagination.object_list :=
                page_slice per_page (requested_page q) queryset;
              EmployeeSearchPagination.count := Z.of_nat (length queryset);
              EmployeeSearchPagination.number := requested_page q;
              EmployeeSearchPagination.has_next :=
                bool_decide (requested_page q < pages);
              EmployeeSearchPagination.has_previous :=
                bool_decide (1 < requested_page q) |})
    else Raise NotFound.
Proof.
  intros Hps Hpage per_page pages.
  pose proof (get_page_size_pos self_page_size q Hps) as Hpp.
  unfold EmployeeSearchPagination.paginate_queryset, requested_page, page_slice.
  unfold plain_page in Hpage.
  fold per_page. rewrite decide_False by lia.
  destruct (QueryParams.page q) as [[n|n|]|]; [| done | done |]; fold pages;
    repeat case_decide; try done; lia.
Qed.

Lemma requested_page_valid (q : QueryParams.t)
    (search_data : EmployeeSearchSerializer.validated_data_t) :
  EmployeeSearchSerializer.is_valid q = inl search_data →
  plain_page q →
  requested_page q = EmployeeSearchSerializer.page search_data.
Proof.
  intros Hvalid Hplain.
  apply is_valid_bounds in Hvalid as (_ & _ & Hn & Hnone & Hnot).
  unfold requested_page, plain_page in *.
  destruct (QueryParams.page q) as [[n|n|]|] eqn:Hp; try done.
  - symmetry. by apply Hn.
  - symmetry. by apply Hnone.
Qed.

(** The response to a search on a stored, active organization whose
    parameters validate, with a [page] that the paginator reads and that is
    not past the last page. *)
Lemma search_employees_served (db : Database.t) (request : Request.t)
    (organization_id : UUID) (organization : Organization.t)
    (search_data : EmployeeSearchSerializer.validated_data_t) :
  schema_constraints db →
  active_organization db organization_id organization →
  EmployeeSearchSerializer.is_valid (Request.query_params request)
    = inl search_data →
  plain_page (Request.query_params request) →
  let matches := Views.filter_queryset db organization search_data in
  let per_page :=
    EmployeeSearchPagination.get_page_size
      (EmployeeSearchSerializer.page_size search_data)
      (Request.query_params request) in
  let pages :=
    EmployeeSearchPagination.num_pages (Z.of_nat (length matches)) per_page in
  let p := EmployeeSearchSerializer.page search_data in
  p ≤ pages →
  ∃ visible_columns,
    Views.get_visible_columns db organization = Ok visible_columns ∧
    Views.search_employees db request organization_id =
      {| Response.status_code := 200;
         Response.data :=
           VDict
             [ ("count", VInt (Z.of_nat (length matches)));
               ("next",
                if bool_decide (p < pages)
                then EmployeeSearchPagination.link (p + 1) else VNone);
               ("previous",
                if bool_decide (1 < p)
                then EmployeeSearchPagination.link (p - 1) else VNone);
               ("results",
                VList (VDict <$>
                         DynamicEmployeeSerializer.many_data
                           (Some visible_columns)
                           (page_slice per_page p
                              (order_by_name (Database.tie_rank db) matches))));
               ("meta", Views.meta organization visible_columns search_data) ] |}.
Proof.
  intros Hschema Hactive Hvalid Hplain matches per_page pages p Hp.
  pose proof (get_object_or_404_active _ _ _ Hschema Hactive) as Horg.
  destruct (get_visible_columns_Ok db organization Hschema) as [vc Hvc].
  exists vc. split; [done|].
  pose proof (is_valid_bounds _ _ Hvalid) as (Hp1 & Hps & _).
  pose proof (requested_page_valid _ _ Hvalid Hplain) as Hreq.
  unfold Views.search_employees, Views.search_employees_try.
  rewrite Horg. simpl. rewrite Hvc. simpl. rewrite Hvalid.
  unfold Views.search_page.
  rewrite paginate_queryset_spec by (done || lia).
  rewrite order_by_name_length, Hreq.
  fold matches per_page pages p.
  rewrite decide_True by lia. done.
Qed.

Lemma filter_none {A : Type} (P : A → Prop) `{∀ x, Decision (P x)}
    (rows : list A) :
  (∀ row, row ∈ rows → ¬ P row) → filter P rows = [].
Proof.
  intros Hnone. induction rows as [|r rows IH]; [done|].
  rewrite filter_cons_False; [|apply Hnone; left].
  apply IH. intros row Hrow. apply Hnone. by right.
Qed.

(** C8.  Default visible columns: for a stored, active organization whose
    configuration row has an empty [visible_columns] list, or that has no
    configuration row at all, the visible set is the canonical seven
    fields.  Every search on it whose parameters validate, with a [page]
    that the paginator reads and that is not past the last page, is
    answered 200; every search answered 200 carries the seven fields in
    [meta] and projects its rows with them; and the config response
    carries them too. *)
Theorem default_visible_columns (db : Database.t) (organization_id : UUID)
    (organization : Organization.t) :
  schema_constraints db →
  active_organization db organization_id organization →
  Exists (λ c, OrganizationConfig.organization c = Organization.id organization ∧
               OrganizationConfig.visible_columns c = [])
         (Database.organization_configs db) ∨
  Forall (λ c, OrganizationConfig.organization c ≠ Organization.id organization)
         (Database.organization_configs db) →
  Views.get_visible_columns db organization = Ok canonical_seven ∧
  (∀ request search_data,
     EmployeeSearchSerializer.is_valid (Request.query_params request)
       = inl search_data →
     plain_page (Request.query_params request) →
     EmployeeSearchSerializer.page search_data ≤
       EmployeeSearchPagination.num_pages
         (Z.of_nat (length (Views.filter_queryset db organization search_data)))
         (EmployeeSearchPagination.get_page_size
            (EmployeeSearchSerializer.page_size search_data)
            (Request.query_params request)) →
     Response.status_code (Views.search_employees db request organization_id)
       = 200) ∧
  (∀ request,
     Response.status_code (Views.search_employees db request organization_id)
       = 200 →
     (response_item "meta" (Views.search_employees db request organization_id)
       ≫= dict_get "visible_columns")
       = Some (VList (VStr <$> canonical_seven)) ∧
     ∃ rows,
       response_item "results" (Views.search_employees db request organization_id)
       = Some (VList (VDict <$> DynamicEmployeeSerializer.many_data
                                  (Some canonical_seven) rows))) ∧
  (response_item "config" (Views.organization_config db organization_id)
    ≫= dict_get "visible_columns")
    = Some (VList (VStr <$> canonical_seven)).
Proof.
  intros Hschema Hactive Hconfig.
  pose proof (get_object_or_404_active _ _ _ Hschema Hactive) as Horg.
  assert (Views.config db organization = Raise OrganizationConfig_DoesNotExist ∨
          ∃ c, Views.config db organization = Ok c ∧
               OrganizationConfig.visible_columns c = []) as Hc.
  { unfold Views.config. rewrite Exists_exists, Forall_forall in Hconfig.
    destruct Hconfig as [(c & Hin & Hc & Hempty)|Hnone].
    - right. exists c. split; [|done].
      rewrite (filter_unique_key OrganizationConfig.organization _ _ c);
        try done; [apply Hschema | congruence].
    - left. by rewrite filter_none. }
  assert (Views.get_visible_columns db organization = Ok canonical_seven)
    as Hvc.
  { unfold Views.get_visible_columns.
    destruct Hc as [->|(c & -> & Hempty)]; [done|].
    by rewrite get_default_columns_empty. }
  split; [done|split; [|split]].
  - intros request search_data Hvalid Hplain Hpage.
    destruct (search_employees_served db request organization_id organization
                search_data Hschema Hactive Hvalid Hplain Hpage)
      as (vc & _ & ->).
    reflexivity.
  - intros request H200.
    destruct (search_employees_200 _ _ _ H200)
      as (org & vc & sd & page & Horg' & Hvc' & _ & _ & ->).
    rewrite Horg in Horg'. inversion Horg'; subst org.
    rewrite Hvc in Hvc'. inversion Hvc'; subst vc.
    split; [reflexivity|]. by eexists.
  - unfold Views.organization_config, Views.organization_config_try.
    rewrite Horg. simpl.
    destruct Hc as [->|(c & -> & Hempty)]; simpl; [reflexivity|].
    by rewrite get_default_columns_empty.
Qed.

Lemma is_valid_invalid_status (q : QueryParams.t) (s : string) :
  QueryParams.status q = Some s → s ≠ "" → s ∉ status_values →
  ∃ errors,
    EmployeeSearchSerializer.is_valid q = inr errors ∧
    ("status", [invalid_choice s]) ∈ errors.
Proof.
  intros Hs Hne Hout. unfold EmployeeSearchSerializer.is_valid.
  set (errs := _ ++ _).
  assert (("status", [invalid_choice s]) ∈ errs) as Hin.
  { subst errs. rewrite Hs. unfold EmployeeSearchSerializer.ChoiceField.
    rewrite decide_False by done.
    rewrite (decide_False (P := s ∈ Employee.STATUS_CHOICES.*1)) by done.
    rewrite !elem_of_app. do 4 right. left. simpl. left. }
  clearbody errs. destruct errs as [|err errs]; [by apply elem_of_nil in Hin|].
  by eexists.
Qed.

(** C7 (amended).  Status validation: a search whose [status] parameter is
    non-empty and not one of the four enumeration values is never answered
    200; when the organization named in the path is stored and active the
    answer is the 400 validation failure whose details name [status], and
    it does not depend on the employees table. *)
Theorem invalid_status_is_rejected (db : Database.t) (request : Request.t)
    (organization_id : UUID) (s : string) :
  QueryParams.status (Request.query_params request) = Some s →
  s ≠ "" → s ∉ status_values →
  Response.status_code (Views.search_employees db request organization_id)
    ≠ 200 ∧
  (schema_constraints db →
   ∀ organization, active_organization db organization_id organization →
     (∃ errors,
        ("status", [invalid_choice s]) ∈ errors ∧
        Views.search_employees db request organization_id =
          {| Response.status_code := 400;
             Response.data :=
               VDict [ ("error", VStr "Invalid search parameters");
                       ("details",
                        EmployeeSearchSerializer.render_errors errors) ] |}) ∧
     ∀ employees,
       Views.search_employees (with_employees employees db) request
         organization_id
       = Views.search_employees db request organization_id).
Proof.
  intros Hs Hne Hout.
  destruct (is_valid_invalid_status _ _ Hs Hne Hout) as (errors & Hinvalid & Hin).
  split.
  - intros H200.
    destruct (search_employees_200 _ _ _ H200) as (? & ? & ? & ? & _ & _ & Hv & _).
    congruence.
  - intros Hschema organization Hactive.
    pose proof (get_object_or_404_active _ _ _ Hschema Hactive) as Horg.
    destruct (get_visible_columns_Ok db organization Hschema) as [vc Hvc].
    assert (Views.search_employees db request organization_id =
            {| Response.status_code := 400;
               Response.data :=
                 VDict [ ("error", VStr "Invalid search parameters");
                         ("details",
                          EmployeeSearchSerializer.render_errors errors) ] |})
      as Hresp.
    { unfold Views.search_employees, Views.search_employees_try.
      rewrite Horg. simpl. rewrite Hvc. simpl. by rewrite Hinvalid. }
    split; [by exists errors|].
    intros employees. rewrite Hresp.
    unfold Views.search_employees, Views.search_employees_try.
    unfold Views.get_object_or_404 in *.
    unfold Views.get_visible_columns, Views.config in *. simpl.
    rewrite Horg. simpl. rewrite Hvc. simpl. by rewrite Hinvalid.
Qed.

(** C10.  A page past the end: for a search on a stored, active
    organization whose parameters validate and whose [page] is an integer
    at least 1 and greater than the number of pages of the filtered
    result, pagination raises [NotFound], which only the last handler of
    the view catches: the response is 500 with body
    [{'error': 'Internal server error'}]. *)
Theorem page_past_the_end_is_500 (db : Database.t) (request : Request.t)
    (organization_id : UUID) (organization : Organization.t)
    (search_data : EmployeeSearchSerializer.validated_data_t) (p : Z) :
  schema_constraints db →
  active_organization db organization_id organization →
  EmployeeSearchSerializer.is_valid (Request.query_params request)
    = inl search_data →
  QueryParams.page (Request.query_params request) = Some (Numeral p) →
  1 ≤ p →
  EmployeeSearchPagination.num_pages
    (Z.of_nat (length (Views.filter_queryset db organization search_data)))
    (EmployeeSearchPagination.get_page_size
       (EmployeeSearchSerializer.page_size search_data)
       (Request.query_params request)) < p →
  Views.search_page db organization (Request.query_params request) search_data
    = Raise NotFound ∧
  Views.search_employees db request organization_id =
    {| Response.status_code := 500;
       Response.data := VDict [("error", VStr "Internal server error")] |}.
Proof.
  intros Hschema Hactive Hvalid Hpage Hp Hpast.
  pose proof (get_object_or_404_active _ _ _ Hschema Hactive) as Horg.
  destruct (get_visible_columns_Ok db organization Hschema) as [vc Hvc].
  assert (Views.search_page db organization (Request.query_params request)
            search_data = Raise NotFound) as Hraise.
  { unfold Views.search_page, EmployeeSearchPagination.paginate_queryset.
    pose proof (is_valid_bounds _ _ Hvalid) as (_ & Hps & _).
    pose proof (get_page_size_pos (EmployeeSearchSerializer.page_size search_data)
                  (Request.query_params request)).
    rewrite decide_False by lia. rewrite Hpage.
    rewrite decide_False by lia. rewrite order_by_name_length.
    by rewrite decide_True. }
  split; [done|].
  unfold Views.search_employees, Views.search_employees_try.
  rewrite Horg. simpl. rewrite Hvc. simpl. rewrite Hvalid, Hraise. done.
Qed.

(** ** The rate limiter *)


Lemma filter_filter_comm {A : Type} (P Q : A → Prop)
    `{∀ x, Decision (P x)} `{∀ x, Decision (Q x)} (l : list A) :
  filter P (filter Q l) = filter Q (filter P l).
Proof.
  induction l as [|x l IH]; [done|].
  rewrite !filter_cons. repeat case_decide; rewrite ?filter_cons;
    repeat case_decide; try done; by rewrite IH.
Qed.

Lemma get_or_create_found (ip : string) (org : option UUID) (d : Z)
    (w : World.t) (r : RateLimitRecord.t) :
  World.faults w = [] →
  filter (RateLimitRecords.matches ip org) (World.rate_limit_records w) = [r] →
  RateLimitRecords.get_or_create ip org d w = (Ok (r, false), w).
Proof.
  intros Hf Hr. unfold RateLimitRecords.get_or_create, storage_call.
  by rewrite Hf, Hr.
Qed.

Lemma get_or_create_fresh (ip : string) (org : option UUID) (d : Z)
    (w : World.t) :
  World.faults w = [] →
  filter (RateLimitRecords.matches ip org) (World.rate_limit_records w) = [] →
  RateLimitRecords.get_or_create ip org d w =
    let row := RateLimitRecord.mk (World.next_pk w) ip org d
                 (World.clock w) (World.clock w) in
    (Ok (row, true),
     {| World.rate_limit_records := World.rate_limit_records w ++ [row];
        World.next_pk := S (World.next_pk w);
        World.clock := World.clock w;
        World.faults := [] |}).
Proof.
  intros Hf Hr. unfold RateLimitRecords.get_or_create, storage_call.
  by rewrite Hf, Hr.
Qed.

Lemma count_requests_since_spec (ip : string) (org : option UUID) (since : Z)
    (w : World.t) :
  World.faults w = [] →
  RateLimitMiddleware._count_requests_since ip org since w =
    (Ok (RateLimitMiddleware.sum_request_count
           (filter (λ r, RateLimitRecords.matches ip org r ∧
                         since ≤ RateLimitRecord.last_request r)
                   (World.rate_limit_records w))), w).
Proof.
  intros Hf. unfold RateLimitMiddleware._count_requests_since, try_except,
    RateLimitRecords.filter_list, storage_call, mbind, M_bind.
  by rewrite Hf.
Qed.

(** The window count when one row matches the key. *)
Lemma count_of_one_record (ip : string) (org : option UUID) (since : Z)
    (rows : list RateLimitRecord.t) (r : RateLimitRecord.t) :
  filter (RateLimitRecords.matches ip org) rows = [r] →
  RateLimitMiddleware.sum_request_count
    (filter (λ r, RateLimitRecords.matches ip org r ∧
                  since ≤ RateLimitRecord.last_request r) rows)
  = if decide (since ≤ RateLimitRecord.last_request r)
    then RateLimitRecord.request_count r else 0.
Proof.
  intros Hr.
  rewrite <- (list_filter_filter (RateLimitRecords.matches ip org)
                (λ r, since ≤ RateLimitRecord.last_request r)).
  rewrite filter_filter_comm, Hr, filter_cons, filter_nil.
  case_decide; simpl; lia.
Qed.

(** The row written by [_record_request] over [r] at time [now]. *)
Lemma record_request_found (ip : string) (org : option UUID) (w : World.t)
    (r : RateLimitRecord.t) :
  World.faults w = [] →
  filter (RateLimitRecords.matches ip org) (World.rate_limit_records w) = [r] →
  RateLimitMiddleware._record_request ip org w =
    let stored :=
      RateLimitRecord.mk (RateLimitRecord.pk r) (RateLimitRecord.ip_address r)
        (RateLimitRecord.organization r) (RateLimitRecord.request_count r + 1)
        (RateLimitRecord.window_start r) (World.clock w) in
    (Ok (),
     World.set_records
       ((λ x, if decide (RateLimitRecord.pk x = RateLimitRecord.pk r)
              then stored else x) <$> World.rate_limit_records w) w).
Proof.
  intros Hf Hr.
  unfold RateLimitMiddleware._record_request, try_except, mbind, M_bind,
    timezone_now.
  rewrite (get_or_create_found ip org 1 w r Hf Hr). simpl.
  unfold RateLimitRecords.save, storage_call. by rewrite Hf.
Qed.

Lemma filter_fmap_preserved {A : Type} (P : A → Prop) `{∀ x, Decision (P x)}
    (f : A → A) (l : list A) :
  (∀ x, x ∈ l → (P (f x) ↔ P x)) →
  filter P (f <$> l) = f <$> filter P l.
Proof.
  induction l as [|x l IH]; [done|]. intros Hf.
  rewrite fmap_cons, !filter_cons.
  rewrite IH by (intros y Hy; apply Hf; by right).
  pose proof (Hf x ltac:(left)) as Hx.
  repeat case_decide; try tauto; done.
Qed.

(** Overwriting the one row of a key, found by its primary key, leaves one
    row for the key. *)
Lemma filter_matches_save (ip : string) (org : option UUID)
    (rows : list RateLimitRecord.t) (r stored : RateLimitRecord.t) :
  filter (RateLimitRecords.matches ip org) rows = [r] →
  (∀ r', r' ∈ rows → RateLimitRecord.pk r' = RateLimitRecord.pk r → r' = r) →
  RateLimitRecords.matches ip org stored →
  filter (RateLimitRecords.matches ip org)
    ((λ x, if decide (RateLimitRecord.pk x = RateLimitRecord.pk r)
           then stored else x) <$> rows) = [stored].
Proof.
  intros Hr Huniq Hstored.
  assert (RateLimitRecords.matches ip org r) as Hmr.
  { assert (r ∈ filter (RateLimitRecords.matches ip org) rows) as Hin
      by (rewrite Hr; left).
    by apply list_elem_of_filter in Hin as [? _]. }
  rewrite filter_fmap_preserved.
  - rewrite Hr. simpl. by rewrite decide_True.
  - intros x Hx. case_decide as Hpk; [|done].
    rewrite (Huniq x Hx Hpk). tauto.
Qed.

(** One request against a ledger that holds one recent row for its key. *)
Lemma handle_one_record (mw : RateLimitMiddleware.t) (request : Request.t)
    (ip : string) (org : option UUID) (c t now : Z) (w : World.t) :
  counted_for ip org request →
  one_record_of ip org c t w → now - timedelta 0 1 ≤ t → t ≤ now →
  ∃ w',
    handle mw now request w =
      (Ok (if decide (limited_at mw c)
           then Some (RateLimitMiddleware._rate_limit_response mw ip)
           else None), w') ∧
    one_record_of ip org
      (if decide (limited_at mw c) then c else c + 1)
      (if decide (limited_at mw c) then t else now) w'.
Proof.
  intros (Hskip & Hip & Horg) (Hf & r & Hr & Hc & Ht & Huniq) Hrecent Hle.
  destruct w as [rows n clk fs]; simpl in *; subst fs.
  unfold handle, RateLimitMiddleware.process_request.
  rewrite Hskip, Hip, Horg.
  unfold RateLimitMiddleware._is_rate_limited.
  unfold mbind, M_bind, timezone_now. simpl.
  unfold World.set_records, World.set_clock; simpl.
  set (rows1 := filter _ rows).
  assert (filter (RateLimitRecords.matches ip org) rows1 = [r]) as Hr1.
  { subst rows1. rewrite filter_filter_comm, Hr.
    rewrite filter_cons_True, filter_nil; [done|].
    intros [_ ?]. unfold timedelta in *. lia. }
  assert (∀ r', r' ∈ rows1 →
            RateLimitRecord.pk r' = RateLimitRecord.pk r → r' = r) as Huniq1.
  { intros r' Hr'. apply Huniq. subst rows1.
    by apply list_elem_of_filter in Hr' as [_ ?]. }
  rewrite (get_or_create_found ip org 0 _ r) by done.
  rewrite count_requests_since_spec by done. simpl.
  rewrite (count_of_one_record ip org _ rows1 r Hr1).
  rewrite (decide_True (P := now - timedelta 0 1 ≤ RateLimitRecord.last_request r))
    by lia.
  rewrite Hc.
  assert (RateLimitRecords.matches ip org r) as Hmr.
  { assert (r ∈ filter (RateLimitRecords.matches ip org) rows1) as Hin
      by (rewrite Hr1; left).
    by apply list_elem_of_filter in Hin as [? _]. }
  destruct (decide (limited_at mw c)) as [Hl|Hl]; unfold limited_at in Hl.
  - assert (one_record_of ip org c t (World.mk rows1 n now [])) as Hone
      by (split; [done|by exists r]).
    destruct (decide (RateLimitMiddleware.requests_per_minute mw ≤ c));
      [by eexists|].
    rewrite count_requests_since_spec by done. simpl.
    rewrite (count_of_one_record ip org _ rows1 r Hr1).
    rewrite (decide_True (P := now - timedelta 1 0 ≤ RateLimitRecord.last_request r))
      by (unfold timedelta in *; lia).
    rewrite Hc. rewrite decide_True by tauto. by eexists.
  - rewrite decide_False by tauto.
    rewrite count_requests_since_spec by done. simpl.
    rewrite (count_of_one_record ip org _ rows1 r Hr1).
    rewrite (decide_True (P := now - timedelta 1 0 ≤ RateLimitRecord.last_request r))
      by (unfold timedelta in *; lia).
    rewrite Hc. rewrite decide_False by tauto.
    unfold mret, M_ret. simpl.
    rewrite (record_request_found ip org _ r) by done. simpl.
    eexists. split; [done|]. split; [done|].
    eexists. split; [|split; [|split]].
    + by apply filter_matches_save.
    + simpl. lia.
    + done.
    + intros r' Hr' Hpk. simpl in Hpk.
      apply list_elem_of_fmap in Hr' as (x & -> & Hx).
      case_decide as Hx'; [done|]. simpl in Hpk. done.
Qed.

Lemma filter_idemp {A : Type} (P : A → Prop) `{∀ x, Decision (P x)}
    (l : list A) :
  filter P (filter P l) = filter P l.
Proof.
  induction l as [|x l IH]; [done|].
  rewrite filter_cons. case_decide; [|done].
  rewrite filter_cons_True by done. by rewrite IH.
Qed.

(** The first request for a key behaves as a request against the ledger
    in which the key's row has just been created. *)
Lemma handle_no_record (mw : RateLimitMiddleware.t) (request : Request.t)
    (ip : string) (org : option UUID) (now : Z) (w : World.t) :
  counted_for ip org request →
  no_record_of ip org w →
  ∃ w1,
    one_record_of ip org 0 now w1 ∧
    handle mw now request w = handle mw now request w1.
Proof.
  intros (Hskip & Hip & Horg) (Hf & Hnone & Hpk).
  destruct w as [rows n clk fs]; simpl in *; subst fs.
  set (kept := λ r : RateLimitRecord.t,
         ¬ (RateLimitRecord.ip_address r = ip ∧
            RateLimitRecord.last_request r < now - timedelta 24 0)).
  set (row0 := RateLimitRecord.mk n ip org 0 now now).
  exists (World.mk (filter kept rows ++ [row0]) (S n) now []).
  assert (filter (RateLimitRecords.matches ip org) (filter kept rows) = [])
    as Hnone1 by (by rewrite filter_filter_comm, Hnone).
  assert (RateLimitRecords.matches ip org row0) as Hm0 by done.
  assert (filter (RateLimitRecords.matches ip org) (filter kept rows ++ [row0])
          = [row0]) as Hone.
  { by rewrite filter_app, Hnone1, filter_cons_True. }
  split.
  - split; [done|]. exists row0. simpl. repeat split; try done.
    intros r' Hr' Hpk'. apply elem_of_app in Hr' as [Hr'|Hr'].
    + apply list_elem_of_filter in Hr' as [_ Hr'].
      rewrite Forall_forall in Hpk. apply Hpk in Hr'. simpl in Hpk'. lia.
    + by apply list_elem_of_singleton in Hr'.
  - unfold handle, RateLimitMiddleware.process_request.
    rewrite Hskip, Hip, Horg.
    unfold RateLimitMiddleware._is_rate_limited.
    unfold mbind, M_bind, timezone_now. simpl.
    unfold World.set_records, World.set_clock; simpl.
    fold kept.
    rewrite (get_or_create_fresh ip org 0 (World.mk (filter kept rows) n now []))
      by done.
    simpl. fold row0.
    assert (filter kept (filter kept rows ++ [row0]) = filter kept rows ++ [row0])
      as ->.
    { rewrite filter_app, filter_idemp, filter_cons_True; [done|].
      subst kept. simpl. intros [_ ?]. unfold timedelta in *. lia. }
    by rewrite (get_or_create_found ip org 0 _ row0).
Qed.
Lemma handle_one_record_next (mw : RateLimitMiddleware.t) (request : Request.t)
    (ip : string) (org : option UUID) (c t now : Z) (w : World.t) :
  counted_for ip org request →
  one_record_of ip org c t w → now - timedelta 0 1 ≤ t → t ≤ now →
  ∃ w' c' t',
    handle mw now request w =
      (Ok (if decide (limited_at mw c)
           then Some (RateLimitMiddleware._rate_limit_response mw ip)
           else None), w') ∧
    one_record_of ip org c' t' w' ∧
    (limited_at mw c → c' = c) ∧ (¬ limited_at mw c → c' = c + 1) ∧
    t ≤ t' ≤ now.
Proof.
  intros Hreq Hone Hrecent Hle.
  destruct (handle_one_record mw request ip org c t now w Hreq Hone Hrecent Hle)
    as (w' & Hh & Hone').
  exists w'. do 2 eexists. split; [done|]. split; [done|].
  case_decide; repeat split; try done; lia.
Qed.




(** ** Fail-open and where it stops *)

Lemma try_except_total {A : Type} (body : M A) (a0 : A) (w : World.t) :
  ∃ a w', try_except body (λ _, mret a0) w = (Ok a, w').
Proof.
  unfold try_except. destruct (body w) as [[a|e] w']; by eauto.
Qed.

Lemma cleanup_old_records_total (ip : string) (now : Z) (w : World.t) :
  ∃ w', RateLimitMiddleware._cleanup_old_records ip now w = (Ok (), w').
Proof.
  destruct (try_except_total
              (RateLimitRecords.filter_delete
                 (λ r, RateLimitRecord.ip_address r = ip ∧
                       RateLimitRecord.last_request r < now - timedelta 24 0))
              () w) as ([] & w' & H).
  by exists w'.
Qed.

Lemma count_requests_since_total (ip : string) (org : option UUID)
    (since : Z) (w : World.t) :
  ∃ n w', RateLimitMiddleware._count_requests_since ip org since w = (Ok n, w').
Proof. apply try_except_total. Qed.

Lemma record_request_total (ip : string) (org : option UUID) (w : World.t) :
  ∃ w', RateLimitMiddleware._record_request ip org w = (Ok (), w').
Proof.
  unfold RateLimitMiddleware._record_request.
  match goal with
  | |- ∃ w', try_except ?b _ _ = _ =>
      destruct (try_except_total b () w) as ([] & w' & H)
  end.
  by exists w'.
Qed.

(** X1.  Fail-open everywhere but one call: whatever the store does, the
    only exception that leaves [_is_rate_limited] is one raised by its
    [get_or_create], after the pruning step has returned; the pruning, the
    counting and [_record_request] never raise. *)
Theorem only_get_or_create_escapes (mw : RateLimitMiddleware.t)
    (ip : string) (org : option UUID) (w : World.t) :
  (∀ e w',
     RateLimitMiddleware._is_rate_limited mw ip org w = (Raise e, w') →
     ∃ w1,
       RateLimitMiddleware._cleanup_old_records ip (World.clock w) w
         = (Ok (), w1) ∧
       RateLimitRecords.get_or_create ip org 0 w1 = (Raise e, w')) ∧
  (∀ now, ∃ w',
     RateLimitMiddleware._cleanup_old_records ip now w = (Ok (), w')) ∧
  (∀ since, ∃ n w',
     RateLimitMiddleware._count_requests_since ip org since w = (Ok n, w')) ∧
  (∃ w', RateLimitMiddleware._record_request ip org w = (Ok (), w')).
Proof.
  split; [|split; [|split]].
  - intros e w'.
    unfold RateLimitMiddleware._is_rate_limited, mbind, M_bind, timezone_now.
    destruct (cleanup_old_records_total ip (World.clock w) w) as (w1 & ->).
    intros H. exists w1. split; [done|].
    destruct (RateLimitRecords.get_or_create ip org 0 w1) as [[rc|e1] w2];
      [exfalso|by inversion H].
    destruct (count_requests_since_total ip org
                (World.clock w - timedelta 0 1) w2) as (m & w3 & Hm).
    rewrite Hm in H.
    destruct (decide (RateLimitMiddleware.requests_per_minute mw ≤ m));
      [done|].
    destruct (count_requests_since_total ip org
                (World.clock w - timedelta 1 0) w3) as (h & w4 & Hh).
    rewrite Hh in H.
    by destruct (decide (RateLimitMiddleware.requests_per_hour mw ≤ h)).
  - intros now. apply cleanup_old_records_total.
  - intros since. apply count_requests_since_total.
  - apply record_request_total.
Qed.

(** C4: the two failing inputs.  Two rows for one key make [get_or_create]
    raise [MultipleObjectsReturned]; a store that fails on the second call
    makes it raise [DatabaseError].  Either leaves [process_request]. *)
Theorem get_or_create_failure_escapes :
  (handle Ledgers.mw3 0 Ledgers.search Ledgers.duplicated).1
    = Raise MultipleObjectsReturned ∧
  (handle Ledgers.mw3 0 Ledgers.search Ledgers.second_call_fails).1
    = Raise DatabaseError.
Proof. split; vm_compute; reflexivity. Qed.

(** ** Projection: forced [id] and the synthetic [full_name] *)

(** C5.  Forced id inclusion: for every employee and every non-empty
    [visible_columns], the row projected by the dynamic serializer has the
    key [id], listed or not. *)
Theorem projection_includes_id (e : Employee.t) (visible_columns : list string) :
  visible_columns ≠ [] →
  "id" ∈ keys (DynamicEmployeeSerializer.data (Some visible_columns) e).
Proof.
  intros Hne. unfold DynamicEmployeeSerializer.data.
  rewrite keys_to_representation.
  destruct visible_columns as [|c cols]; [done|].
  rewrite init_elem. split; [|tauto].
  unfold DynamicEmployeeSerializer.Meta_fields. left.
Qed.

(** C6.  Synthetic full name: for every employee and every non-empty
    [visible_columns] drawn from the recognised keys, the projected row
    has the key [full_name] if and only if both [first_name] and
    [last_name] are in [visible_columns]. *)
Theorem full_name_iff_both_names (e : Employee.t)
    (visible_columns : list string) :
  visible_columns ≠ [] →
  Forall (λ c, c ∈ recognised_keys) visible_columns →
  "full_name" ∈ keys (DynamicEmployeeSerializer.data (Some visible_columns) e)
  ↔ "first_name" ∈ visible_columns ∧ "last_name" ∈ visible_columns.
Proof.
  intros Hne Hrec. unfold DynamicEmployeeSerializer.data.
  rewrite keys_to_representation.
  destruct visible_columns as [|c cols]; [done|].
  rewrite init_elem.
  assert ("full_name" ∉ c :: cols) as Hout.
  { intros Hin. rewrite Forall_forall in Hrec. apply Hrec in Hin.
    revert Hin. unfold recognised_keys, OrganizationConfig.AVAILABLE_COLUMNS.
    simpl. rewrite !elem_of_cons, elem_of_nil. intros H.
    repeat destruct H as [H|H]; done. }
  split.
  - intros (_ & [?|[?|(_ & ? & ?)]]); done.
  - intros [? ?]. split; [|tauto].
    unfold DynamicEmployeeSerializer.Meta_fields. right. left.
Qed.

(** [Employee.to_dict], the other projection of the repository, forces
    no key: [id] is in its result only when listed. *)
Lemma to_dict_keys (e : Employee.t) (c : string) (cols : list string)
    (k : string) :
  is_Some (Employee.to_dict e (Some (c :: cols)) !! k) →
  k ∈ c :: cols.
Proof.
  unfold Employee.to_dict.
  assert (∀ (l : list string) (acc : gmap string Value),
            is_Some (foldl (λ acc key,
                       match Employee.to_dict_data e !! key with
                       | Some v => <[key := v]> acc
                       | None => acc
                       end) acc l !! k) →
            k ∈ l ∨ is_Some (acc !! k)) as Hfold.
  { induction l as [|x l IH]; intros acc; simpl; [tauto|].
    intros H. apply IH in H as [H|H]; [left; by right|].
    destruct (Employee.to_dict_data e !! x); [|tauto].
    destruct (decide (x = k)) as [->|Hne]; [left; left|].
    rewrite lookup_insert_ne in H by done. tauto. }
  intros H. apply Hfold in H as [H|H]; [done|].
  rewrite lookup_empty in H. by destruct H.
Qed.

(** ** The theorems at the fixtures of tests.py *)

Lemma fixtures_schema : schema_constraints Fixtures.db.
Proof. split; apply (bool_decide_unpack _); vm_compute; exact I. Defined.

Lemma fixtures_org1 : active_organization Fixtures.db 1%N Fixtures.org1.
Proof. repeat split. unfold Fixtures.db. simpl. left. Defined.

Lemma fixtures_org2 : active_organization Fixtures.db 2%N Fixtures.org2.
Proof. repeat split. unfold Fixtures.db. simpl. right. left. Defined.

Lemma tenant_isolation_org1 :
  ∃ (visible_columns : list string) (rows : list Employee.t),
    response_item "results"
      (Views.search_employees Fixtures.db
         (Fixtures.search_org1 Fixtures.no_params) 1%N)
      = Some (VList (VDict <$> DynamicEmployeeSerializer.many_data
                                 (Some visible_columns) rows)) ∧
    Forall (λ e, e ∈ Database.employees Fixtures.db ∧
                 Employee.organization e = 1%N) rows.
Proof. apply tenant_isolation. vm_compute. reflexivity. Defined.

Lemma projection_keys_bounded_alice :
  "full_name" ∈ ["first_name"; "last_name"] ∨ "full_name" = "id" ∨
  ("full_name" = "full_name" ∧ "first_name" ∈ ["first_name"; "last_name"]
                             ∧ "last_name" ∈ ["first_name"; "last_name"]).
Proof.
  apply (projection_keys_bounded Fixtures.alice ["first_name"; "last_name"]).
  - discriminate.
  - apply (bool_decide_unpack _). vm_compute. exact I.
Defined.

Lemma projection_includes_id_alice :
  "id" ∈ keys (DynamicEmployeeSerializer.data (Some ["email"]) Fixtures.alice).
Proof. apply projection_includes_id. discriminate. Defined.

Lemma full_name_iff_both_names_alice :
  "full_name" ∈ keys (DynamicEmployeeSerializer.data
                        (Some ["first_name"; "email"]) Fixtures.alice)
  ↔ "first_name" ∈ ["first_name"; "email"] ∧ "last_name" ∈ ["first_name"; "email"].
Proof.
  apply full_name_iff_both_names.
  - discriminate.
  - apply (bool_decide_unpack _). vm_compute. exact I.
Defined.

(** C7 without its amendment fails: an out-of-enum status on an organization that is
    not stored is answered 404, not 400. *)
Lemma invalid_status_unknown_organization :
  QueryParams.status (Request.query_params Searches.invalid_status_elsewhere)
    = Some "invalid_status" ∧
  ("invalid_status" ∉ status_values) ∧
  Response.status_code
    (Views.search_employees Fixtures.db Searches.invalid_status_elsewhere
       Searches.unknown_organization) = 404.
Proof.
  split; [reflexivity|]. split; [|vm_compute; reflexivity].
  apply (bool_decide_unpack _). vm_compute. exact I.
Qed.

Lemma invalid_status_is_rejected_org1 :
  Response.status_code
    (Views.search_employees Fixtures.db
       (Fixtures.search_org1 Searches.invalid_status) 1%N) ≠ 200 ∧
  (schema_constraints Fixtures.db →
   ∀ organization, active_organization Fixtures.db 1%N organization →
     (∃ errors,
        ("status", [invalid_choice "invalid_status"]) ∈ errors ∧
        Views.search_employees Fixtures.db
          (Fixtures.search_org1 Searches.invalid_status) 1%N =
          {| Response.status_code := 400;
             Response.data :=
               VDict [ ("error", VStr "Invalid search parameters");
                       ("details",
                        EmployeeSearchSerializer.render_errors errors) ] |}) ∧
     ∀ employees,
       Views.search_employees (with_employees employees Fixtures.db)
         (Fixtures.search_org1 Searches.invalid_status) 1%N
       = Views.search_employees Fixtures.db
           (Fixtures.search_org1 Searches.invalid_status) 1%N).
Proof.
  apply invalid_status_is_rejected.
  - reflexivity.
  - discriminate.
  - apply (bool_decide_unpack _). vm_compute. exact I.
Defined.

Lemma default_visible_columns_org2 :
  Views.get_visible_columns Fixtures.db Fixtures.org2 = Ok canonical_seven ∧
  Response.status_code
    (Views.search_employees Fixtures.db Searches.search_org2 2%N) = 200 ∧
  (response_item "meta"
     (Views.search_employees Fixtures.db Searches.search_org2 2%N)
    ≫= dict_get "visible_columns")
    = Some (VList (VStr <$> canonical_seven)) ∧
  (∃ rows,
     response_item "results"
       (Views.search_employees Fixtures.db Searches.search_org2 2%N)
     = Some (VList (VDict <$> DynamicEmployeeSerializer.many_data
                                (Some canonical_seven) rows))) ∧
  (response_item "config" (Views.organization_config Fixtures.db 2%N)
    ≫= dict_get "visible_columns")
    = Some (VList (VStr <$> canonical_seven)).
Proof.
  assert (Forall (λ c, OrganizationConfig.organization c
                       ≠ Organization.id Fixtures.org2)
                 (Database.organization_configs Fixtures.db)) as Hnone
    by (apply (bool_decide_unpack _); vm_compute; exact I).
  destruct (default_visible_columns Fixtures.db 2%N Fixtures.org2
              fixtures_schema fixtures_org2 (or_intror Hnone))
    as (Hvc & Hserved & Hshown & Hconfig).
  assert (Response.status_code
            (Views.search_employees Fixtures.db Searches.search_org2 2%N)
          = 200) as H200.
  { apply (Hserved Searches.search_org2 Searches.no_params_data).
    - vm_compute. reflexivity.
    - exact I.
    - vm_compute. discriminate. }
  destruct (Hshown Searches.search_org2 H200) as [Hmeta Hrows].
  repeat split; done.
Defined.

Lemma page_past_the_end_is_500_org1 :
  Views.search_page Fixtures.db Fixtures.org1 Searches.third_page
    Searches.third_page_data = Raise NotFound ∧
  Views.search_employees Fixtures.db
    (Fixtures.search_org1 Searches.third_page) 1%N =
    {| Response.status_code := 500;
       Response.data := VDict [("error", VStr "Internal server error")] |}.
Proof.
  apply (page_past_the_end_is_500 Fixtures.db
           (Fixtures.search_org1 Searches.third_page) 1%N Fixtures.org1
           Searches.third_page_data 3).
  - exact fixtures_schema.
  - exact fixtures_org1.
  - vm_compute. reflexivity.
  - reflexivity.
  - lia.
  - vm_compute. reflexivity.
Defined.

Lemma search_is_counted : counted_for "10.0.0.1" (Some 1%N) Ledgers.search.
Proof. repeat split; vm_compute; reflexivity. Defined.



Lemma only_get_or_create_escapes_duplicated :
  ∃ w1,
    RateLimitMiddleware._cleanup_old_records "10.0.0.1"
      (World.clock Ledgers.duplicated) Ledgers.duplicated = (Ok (), w1) ∧
    RateLimitRecords.get_or_create "10.0.0.1" (Some 1%N) 0 w1
      = (Raise MultipleObjectsReturned, Ledgers.duplicated).
Proof.
  apply (proj1 (only_get_or_create_escapes Ledgers.mw3 "10.0.0.1" (Some 1%N)
                  Ledgers.duplicated)).
  vm_compute. reflexivity.
Defined.

(** ** Bursts of any length against any limits *)






(** ** What a request can do to the ledger, whatever the store does *)

Lemma cleanup_old_records_steps (ip : string) (org : option UUID) (now : Z)
    (w : World.t) :
  ∃ w',
    RateLimitMiddleware._cleanup_old_records ip now w = (Ok (), w') ∧
    World.clock w' = World.clock w ∧
    rtc (check_step ip org now) (ledger w) (ledger w').
Proof.
  destruct w as [rows n clk [|[] fs]]; eexists; (split; [reflexivity|]);
    (split; [reflexivity|]); unfold ledger; simpl;
    try apply rtc_refl; apply rtc_once, check_prune.
Qed.

Lemma get_or_create_steps (ip : string) (org : option UUID) (w w' : World.t)
    (res : Result (RateLimitRecord.t * bool)) :
  RateLimitRecords.get_or_create ip org 0 w = (res, w') →
  World.clock w' = World.clock w ∧
  rtc (check_step ip org (World.clock w)) (ledger w) (ledger w').
Proof.
  unfold RateLimitRecords.get_or_create, storage_call, ledger.
  destruct w as [rows n clk fs]; simpl.
  destruct (filter (RateLimitRecords.matches ip org) rows)
    as [|r [|r' rest]] eqn:Hm;
    destruct fs as [|[] fs]; simpl; rewrite ?Hm;
    intros H; inversion H; subst; simpl; split; try done;
    try apply rtc_refl; by apply rtc_once, check_create.
Qed.

Lemma count_requests_since_steps (ip : string) (org : option UUID)
    (since : Z) (w : World.t) :
  ∃ n w',
    RateLimitMiddleware._count_requests_since ip org since w = (Ok n, w') ∧
    World.clock w' = World.clock w ∧ ledger w' = ledger w.
Proof.
  destruct w as [rows n clk [|[] fs]]; do 2 eexists;
    (split; [reflexivity|]); done.
Qed.

Lemma is_rate_limited_steps (mw : RateLimitMiddleware.t) (ip : string)
    (org : option UUID) (w w' : World.t) (res : Result bool) :
  RateLimitMiddleware._is_rate_limited mw ip org w = (res, w') →
  World.clock w' = World.clock w ∧
  rtc (check_step ip org (World.clock w)) (ledger w) (ledger w').
Proof.
  unfold RateLimitMiddleware._is_rate_limited, mbind, M_bind, timezone_now.
  destruct (cleanup_old_records_steps ip org (World.clock w) w)
    as (w1 & -> & Hc1 & Hs1).
  destruct (RateLimitRecords.get_or_create ip org 0 w1) as [res2 w2] eqn:Hg.
  apply get_or_create_steps in Hg as [Hc2 Hs2]. rewrite Hc1 in Hs2.
  assert (rtc (check_step ip org (World.clock w)) (ledger w) (ledger w2))
    as Hs by (by etransitivity).
  destruct res2 as [rc|e]; [|intros H; inversion H; subst; split; congruence].
  destruct (count_requests_since_steps ip org
              (World.clock w - timedelta 0 1) w2) as (m & w3 & -> & Hc3 & Hl3).
  destruct (decide (RateLimitMiddleware.requests_per_minute mw ≤ m)).
  { intros H; inversion H; subst. rewrite Hl3. split; congruence. }
  destruct (count_requests_since_steps ip org
              (World.clock w - timedelta 1 0) w3) as (h & w4 & -> & Hc4 & Hl4).
  destruct (decide (RateLimitMiddleware.requests_per_hour mw ≤ h));
    intros H; inversion H; subst; rewrite Hl4, Hl3; split; congruence.
Qed.

Lemma record_request_steps (ip : string) (org : option UUID) (w : World.t) :
  ∃ w',
    RateLimitMiddleware._record_request ip org w = (Ok (), w') ∧
    World.clock w' = World.clock w ∧
    rtc (record_step ip org (World.clock w)) (ledger w) (ledger w').
Proof.
  unfold RateLimitMiddleware._record_request, try_except, mbind, M_bind,
    timezone_now, RateLimitRecords.get_or_create, RateLimitRecords.save,
    storage_call, ledger.
  destruct w as [rows n clk fs]; simpl.
  destruct (filter (RateLimitRecords.matches ip org) rows)
    as [|r [|r' rest]] eqn:Hm;
    destruct fs as [|[] [|[] fs]]; simpl; rewrite ?Hm; simpl;
    eexists; (split; [reflexivity|]); (split; [reflexivity|]); simpl;
    try apply rtc_refl;
    try (by apply rtc_once, record_create);
    by apply rtc_once, (record_save ip org clk rows n r).
Qed.

(** The ledger after a request is reached from the ledger before it by
    steps of the check and of the recording, at the time of the request;
    when the request is not let through, by steps of the check alone. *)
Lemma process_request_steps (mw : RateLimitMiddleware.t) (request : Request.t)
    (w w' : World.t) (res : Result (option Response.t)) :
  RateLimitMiddleware.process_request mw request w = (res, w') →
  let ip := RateLimitMiddleware._get_client_ip request in
  let org := RateLimitMiddleware._get_organization_from_request request in
  World.clock w' = World.clock w ∧
  rtc (λ l l', check_step ip org (World.clock w) l l' ∨
               record_step ip org (World.clock w) l l')
      (ledger w) (ledger w') ∧
  (res ≠ Ok None →
   rtc (check_step ip org (World.clock w)) (ledger w) (ledger w')).
Proof.
  intros H ip org. revert H.
  unfold RateLimitMiddleware.process_request.
  destruct (RateLimitMiddleware._should_skip_rate_limiting request).
  { intros H; inversion H; subst. repeat split; intros; apply rtc_refl. }
  fold ip org. unfold mbind, M_bind.
  destruct (RateLimitMiddleware._is_rate_limited mw ip org w)
    as [res1 w1] eqn:Hl.
  apply is_rate_limited_steps in Hl as [Hc1 Hs1].
  assert (rtc (λ l l', check_step ip org (World.clock w) l l' ∨
                       record_step ip org (World.clock w) l l')
              (ledger w) (ledger w1)) as Hs1'
    by (eapply rtc_subrel; [|exact Hs1]; intros ? ? ?; by left).
  destruct res1 as [[]|e]; try (intros H; inversion H; subst; done).
  destruct (record_request_steps ip org w1) as (w2 & -> & Hc2 & Hs2).
  intros H; inversion H; subst. split; [congruence|]. split; [|done].
  etransitivity; [exact Hs1'|].
  eapply rtc_subrel; [|exact Hs2]. intros ? ? ?. right. congruence.
Qed.

Lemma NoDup_fmap_filter {A B : Type} (f : A → B) (P : A → Prop)
    `{∀ x, Decision (P x)} (l : list A) :
  NoDup (f <$> l) → NoDup (f <$> filter P l).
Proof.
  intros Hl. eapply sublist_NoDup; [exact Hl|].
  apply fmap_sublist, sublist_filter.
Qed.

Lemma create_keeps_pk (rows : list RateLimitRecord.t) (n : nat)
    (row : RateLimitRecord.t) :
  RateLimitRecord.pk row = n →
  NoDup (RateLimitRecord.pk <$> rows) ∧
  Forall (λ r, (RateLimitRecord.pk r < n)%nat) rows →
  NoDup (RateLimitRecord.pk <$> rows ++ [row]) ∧
  Forall (λ r, (RateLimitRecord.pk r < S n)%nat) (rows ++ [row]).
Proof.
  intros Hpk [Hnd Hlt]. split.
  - rewrite fmap_app. apply NoDup_app. split; [done|]. split.
    + intros k Hk Hk'. simpl in Hk'. apply list_elem_of_singleton in Hk'.
      apply list_elem_of_fmap in Hk as (r & -> & Hr).
      rewrite Forall_forall in Hlt. apply Hlt in Hr. lia.
    + simpl. apply NoDup_singleton.
  - apply Forall_app. split.
    + eapply Forall_impl; [exact Hlt|]. simpl. lia.
    + apply Forall_singleton. lia.
Qed.

Lemma check_step_wf (ip : string) (org : option UUID) (now : Z)
    (l l' : list RateLimitRecord.t * nat) :
  check_step ip org now l l' →
  NoDup (RateLimitRecord.pk <$> l.1) ∧
  Forall (λ r, (RateLimitRecord.pk r < l.2)%nat) l.1 →
  NoDup (RateLimitRecord.pk <$> l'.1) ∧
  Forall (λ r, (RateLimitRecord.pk r < l'.2)%nat) l'.1.
Proof.
  intros [rows n|rows n Hnone]; simpl.
  - intros [Hnd Hlt]. split; [by apply NoDup_fmap_filter|].
    rewrite Forall_forall in *. intros r Hr. apply Hlt.
    by apply list_elem_of_filter in Hr as [_ ?].
  - by apply create_keeps_pk.
Qed.

Lemma save_keeps_pk (now : Z) (r : RateLimitRecord.t)
    (rows : list RateLimitRecord.t) :
  RateLimitRecord.pk <$>
    ((λ x, if decide (RateLimitRecord.pk x = RateLimitRecord.pk r)
           then bumped now r else x) <$> rows)
  = RateLimitRecord.pk <$> rows.
Proof.
  rewrite <- list_fmap_compose. apply list_fmap_ext.
  intros i x _. simpl. by case_decide.
Qed.

Lemma record_step_wf (ip : string) (org : option UUID) (now : Z)
    (l l' : list RateLimitRecord.t * nat) :
  record_step ip org now l l' →
  NoDup (RateLimitRecord.pk <$> l.1) ∧
  Forall (λ r, (RateLimitRecord.pk r < l.2)%nat) l.1 →
  NoDup (RateLimitRecord.pk <$> l'.1) ∧
  Forall (λ r, (RateLimitRecord.pk r < l'.2)%nat) l'.1.
Proof.
  intros [rows n Hnone|rows n r Hr]; simpl.
  - by apply create_keeps_pk.
  - intros [Hnd Hlt]. rewrite save_keeps_pk. split; [done|].
    rewrite Forall_forall in *. intros x Hx.
    apply list_elem_of_fmap in Hx as (y & -> & Hy).
    case_decide as Hpk; [|by apply Hlt].
    simpl. rewrite <- Hpk. by apply Hlt.
Qed.

Lemma matching_row (ip : string) (org : option UUID)
    (rows : list RateLimitRecord.t) (r : RateLimitRecord.t) :
  filter (RateLimitRecords.matches ip org) rows = [r] →
  r ∈ rows ∧ RateLimitRecords.matches ip org r.
Proof.
  intros Hr.
  assert (r ∈ filter (RateLimitRecords.matches ip org) rows) as Hin
    by (rewrite Hr; left).
  apply list_elem_of_filter in Hin. tauto.
Qed.

Lemma NoDup_fmap_eq {A B : Type} (f : A → B) (l : list A) (x y : A) :
  NoDup (f <$> l) → x ∈ l → y ∈ l → f x = f y → x = y.
Proof.
  intros Hnd Hx Hy Hf.
  apply list_elem_of_lookup in Hx as [i Hi].
  apply list_elem_of_lookup in Hy as [j Hj].
  assert (i = j) as ->.
  { eapply NoDup_lookup; [exact Hnd| |];
      rewrite list_lookup_fmap; [by rewrite Hi|by rewrite Hj, Hf]. }
  congruence.
Qed.

(** The rows of other clients across one step. *)
Lemma check_step_frame (ip : string) (org : option UUID) (now : Z)
    (l l' : list RateLimitRecord.t * nat) :
  check_step ip org now l l' →
  filter (λ r, RateLimitRecord.ip_address r ≠ ip) l'.1
  = filter (λ r, RateLimitRecord.ip_address r ≠ ip) l.1.
Proof.
  intros [rows n|rows n Hnone]; simpl.
  - rewrite list_filter_filter. apply list_filter_iff. intros r. tauto.
  - rewrite filter_app, filter_cons_False, filter_nil, app_nil_r; [done|].
    simpl. tauto.
Qed.

Lemma record_step_frame (ip : string) (org : option UUID) (now : Z)
    (l l' : list RateLimitRecord.t * nat) :
  record_step ip org now l l' →
  NoDup (RateLimitRecord.pk <$> l.1) →
  filter (λ r, RateLimitRecord.ip_address r ≠ ip) l'.1
  = filter (λ r, RateLimitRecord.ip_address r ≠ ip) l.1.
Proof.
  intros [rows n Hnone|rows n r Hr]; simpl; intros Hnd.
  - rewrite filter_app, filter_cons_False, filter_nil, app_nil_r; [done|].
    simpl. tauto.
  - apply matching_row in Hr as [Hin [Hip _]].
    assert (∀ x, x ∈ rows →
              RateLimitRecord.pk x = RateLimitRecord.pk r → x = r) as Huniq
      by (intros x Hx; by apply (NoDup_fmap_eq RateLimitRecord.pk rows)).
    clear Hnd Hin. induction rows as [|x rows IH]; [done|].
    rewrite fmap_cons, !filter_cons.
    rewrite IH by (intros y Hy; apply Huniq; by right).
    destruct (decide (RateLimitRecord.pk x = RateLimitRecord.pk r)) as [Hpk|Hpk];
      [|done].
    assert (x = r) as Hx by (apply Huniq; [left|done]).
    rewrite Hx. rewrite !decide_False; [done|tauto|simpl; tauto].
Qed.

(** X3.  A request that is not let through adds no count: after it, every
    row of the ledger was there before, unchanged, or is the row just
    created for the request's client and organization, with a
    [request_count] of 0.  This holds whatever the store does. *)
Theorem denied_request_is_not_counted (mw : RateLimitMiddleware.t)
    (request : Request.t) (w w' : World.t) (response : Response.t) :
  RateLimitMiddleware.process_request mw request w
    = (Ok (Some response), w') →
  ∀ r, r ∈ World.rate_limit_records w' →
    r ∈ World.rate_limit_records w ∨
    (RateLimitRecord.request_count r = 0 ∧
     RateLimitRecord.ip_address r = RateLimitMiddleware._get_client_ip request ∧
     RateLimitRecord.organization r
       = RateLimitMiddleware._get_organization_from_request request ∧
     RateLimitRecord.last_request r = World.clock w).
Proof.
  intros H. apply process_request_steps in H as (_ & _ & Hsteps).
  specialize (Hsteps ltac:(done)). unfold ledger in Hsteps.
  remember (World.rate_limit_records w, World.next_pk w) as l eqn:Hl.
  remember (World.rate_limit_records w', World.next_pk w') as l' eqn:Hl'.
  assert (∀ r, r ∈ l'.1 →
            r ∈ l.1 ∨
            (RateLimitRecord.request_count r = 0 ∧
             RateLimitRecord.ip_address r
               = RateLimitMiddleware._get_client_ip request ∧
             RateLimitRecord.organization r
               = RateLimitMiddleware._get_organization_from_request request ∧
             RateLimitRecord.last_request r = World.clock w)) as Hall.
  { clear Hl Hl'. induction Hsteps as [l|l l1 l2 Hstep _ IH]; [tauto|].
    intros r Hr. apply IH in Hr as [Hr|Hr]; [|tauto].
    destruct Hstep as [rows n|rows n Hnone]; simpl in *.
    - left. by apply list_elem_of_filter in Hr as [_ ?].
    - apply elem_of_app in Hr as [Hr|Hr]; [tauto|].
      apply list_elem_of_singleton in Hr as ->. right. done. }
  subst l l'. exact Hall.
Qed.

(** Both guarantees along any run of steps. *)
Lemma ledger_steps_wf (ip : string) (org : option UUID) (now : Z)
    (l l' : list RateLimitRecord.t * nat) :
  rtc (λ l l', check_step ip org now l l' ∨ record_step ip org now l l') l l' →
  NoDup (RateLimitRecord.pk <$> l.1) ∧
  Forall (λ r, (RateLimitRecord.pk r < l.2)%nat) l.1 →
  NoDup (RateLimitRecord.pk <$> l'.1) ∧
  Forall (λ r, (RateLimitRecord.pk r < l'.2)%nat) l'.1.
Proof.
  induction 1 as [l|l l1 l2 [Hstep|Hstep] _ IH]; [done|..];
    intros Hwf; apply IH.
  - by eapply check_step_wf.
  - by eapply record_step_wf.
Qed.

Lemma ledger_steps_frame (ip : string) (org : option UUID) (now : Z)
    (l l' : list RateLimitRecord.t * nat) :
  rtc (λ l l', check_step ip org now l l' ∨ record_step ip org now l l') l l' →
  NoDup (RateLimitRecord.pk <$> l.1) ∧
  Forall (λ r, (RateLimitRecord.pk r < l.2)%nat) l.1 →
  filter (λ r, RateLimitRecord.ip_address r ≠ ip) l'.1
  = filter (λ r, RateLimitRecord.ip_address r ≠ ip) l.1.
Proof.
  induction 1 as [l|l l1 l2 [Hstep|Hstep] _ IH]; [done|..];
    intros Hwf.
  - rewrite IH by (by eapply check_step_wf).
    by eapply check_step_frame.
  - rewrite IH by (by eapply record_step_wf).
    eapply record_step_frame; [done|]. apply Hwf.
Qed.

(** ** The pruning step within a request *)


Lemma filter_Forall_id {A : Type} (P : A → Prop) `{∀ x, Decision (P x)}
    (l : list A) :
  Forall P l → filter P l = l.
Proof.
  induction 1 as [|x l Hx _ IH]; [done|].
  by rewrite filter_cons_True, IH.
Qed.






(** X4.  A request keeps the table's primary keys in order: if they are
    unique, and below the next value of the sequence, before a request,
    they are so after it, whatever the store does. *)
Theorem request_keeps_ledger_wf (mw : RateLimitMiddleware.t)
    (request : Request.t) (w w' : World.t)
    (res : Result (option Response.t)) :
  RateLimitMiddleware.process_request mw request w = (res, w') →
  ledger_wf w → ledger_wf w'.
Proof.
  intros H. apply process_request_steps in H as (_ & Hsteps & _).
  exact (ledger_steps_wf _ _ _ _ _ Hsteps).
Qed.


Lemma aged_ledger_wf : ledger_wf Ledgers.aged.
Proof. split; apply (bool_decide_unpack _); vm_compute; exact I. Defined.


Lemma denied_request_is_not_counted_at_limit :
  Forall
    (λ r,
       r ∈ World.rate_limit_records Throttled.at_limit ∨
       (RateLimitRecord.request_count r = 0 ∧
        RateLimitRecord.ip_address r
          = RateLimitMiddleware._get_client_ip Ledgers.search ∧
        RateLimitRecord.organization r
          = RateLimitMiddleware._get_organization_from_request Ledgers.search ∧
        RateLimitRecord.last_request r = World.clock Throttled.at_limit))
    (World.rate_limit_records
       (RateLimitMiddleware.process_request Ledgers.mw3 Ledgers.search
          Throttled.at_limit).2).
Proof.
  apply Forall_forall.
  eapply (denied_request_is_not_counted Ledgers.mw3).
  vm_compute. reflexivity.
Defined.

Lemma request_keeps_ledger_wf_aged :
  ledger_wf
    (RateLimitMiddleware.process_request Ledgers.mw3 Ledgers.search
       Ledgers.aged).2.
Proof.
  eapply (request_keeps_ledger_wf Ledgers.mw3 Ledgers.search Ledgers.aged).
  - apply surjective_pairing.
  - exact aged_ledger_wf.
Defined.


(** ** Fail-open counting *)

Lemma count_requests_since_failing (ip : string) (org : option UUID)
    (since : Z) (rows : list RateLimitRecord.t) (n : nat) (clk : Z)
    (fs : list bool) :
  RateLimitMiddleware._count_requests_since ip org since
    (World.mk rows n clk (true :: fs))
  = (Ok 0, World.mk rows n clk fs).
Proof. reflexivity. Qed.

(** X6.  Counting fails open: when the store fails on both counting
    queries of a request, the request is let through whatever counts the
    ledger holds, provided both limits are positive and the key has at most
    one row (so that [get_or_create] finds or creates it). *)
Theorem failed_counts_let_the_request_through (mw : RateLimitMiddleware.t)
    (request : Request.t) (w : World.t) (pruning_fails : bool)
    (later : list bool) :
  RateLimitMiddleware._should_skip_rate_limiting request = false →
  World.faults w = pruning_fails :: false :: true :: true :: later →
  (length (filter (RateLimitRecords.matches
                     (RateLimitMiddleware._get_client_ip request)
                     (RateLimitMiddleware._get_organization_from_request request))
                  (World.rate_limit_records w)) ≤ 1)%nat →
  0 < RateLimitMiddleware.requests_per_minute mw →
  0 < RateLimitMiddleware.requests_per_hour mw →
  (RateLimitMiddleware.process_request mw request w).1 = Ok None.
Proof.
  intros Hskip Hf Hone Hm Hh.
  unfold RateLimitMiddleware.process_request. rewrite Hskip.
  set (ip := RateLimitMiddleware._get_client_ip request) in *.
  set (org := RateLimitMiddleware._get_organization_from_request request) in *.
  destruct w as [rows n clk fs]. simpl in Hf, Hone. subst fs.
  unfold RateLimitMiddleware._is_rate_limited, mbind, M_bind, timezone_now.
  set (rows1 := if pruning_fails then rows
                else filter (λ r, ¬ (RateLimitRecord.ip_address r = ip ∧
                                      RateLimitRecord.last_request r
                                      < clk - timedelta 24 0)) rows).
  assert (RateLimitMiddleware._cleanup_old_records ip
            (World.clock (World.mk rows n clk
               (pruning_fails :: false :: true :: true :: later)))
            (World.mk rows n clk
               (pruning_fails :: false :: true :: true :: later))
          = (Ok (), World.mk rows1 n clk (false :: true :: true :: later)))
    as -> by (by destruct pruning_fails).
  assert (length (filter (RateLimitRecords.matches ip org) rows1) ≤ 1)%nat
    as Hone1.
  { subst rows1. destruct pruning_fails; [done|].
    rewrite filter_filter_comm.
    etransitivity; [apply length_filter|done]. }
  unfold RateLimitRecords.get_or_create, storage_call, World.set_faults. simpl.
  destruct (filter (RateLimitRecords.matches ip org) rows1)
    as [|r [|r' rest]] eqn:Hr; [| |simpl in Hone1; lia].
  - rewrite !count_requests_since_failing.
    rewrite decide_False by lia.
    rewrite !count_requests_since_failing.
    rewrite decide_False by lia. unfold mret, M_ret.
    match goal with
    | |- context [RateLimitMiddleware._record_request ip org ?w0] =>
        destruct (record_request_total ip org w0) as (w5 & ->)
    end.
    done.
  - rewrite !count_requests_since_failing.
    rewrite decide_False by lia.
    rewrite !count_requests_since_failing.
    rewrite decide_False by lia. unfold mret, M_ret.
    match goal with
    | |- context [RateLimitMiddleware._record_request ip org ?w0] =>
        destruct (record_request_total ip org w0) as (w5 & ->)
    end.
    done.
Qed.

Lemma failed_counts_let_the_request_through_at_limit :
  (RateLimitMiddleware.process_request Ledgers.mw3 Ledgers.search
     Throttled.at_limit_counting_fails).1 = Ok None.
Proof.
  apply (failed_counts_let_the_request_through Ledgers.mw3 Ledgers.search
           Throttled.at_limit_counting_fails false []).
  - vm_compute. reflexivity.
  - reflexivity.
  - vm_compute. lia.
  - vm_compute. reflexivity.
  - vm_compute. reflexivity.
Defined.

(** ** [Employee.to_dict] *)

Lemma to_dict_fold_lookup (data acc : gmap string Value) (cols : list string)
    (k : string) :
  foldl (λ acc key,
           match data !! key with
           | Some v => <[key := v]> acc
           | None => acc
           end) acc cols !! k
  = if decide (k ∈ cols)
    then match data !! k with Some v => Some v | None => acc !! k end
    else acc !! k.
Proof.
  revert acc. induction cols as [|x cols IH]; intros acc; cbn [foldl].
  - rewrite decide_False; [done|apply not_elem_of_nil].
  - rewrite IH. destruct (decide (x = k)) as [->|Hne].
    + rewrite (decide_True (P := k ∈ k :: cols)) by left.
      destruct (data !! k) as [v|] eqn:Hk.
      * rewrite lookup_insert_eq. by case_decide.
      * by case_decide.
    + assert ((match data !! x with
               | Some v => <[x := v]> acc
               | None => acc
               end) !! k = acc !! k) as ->.
      { destruct (data !! x); [by rewrite lookup_insert_ne|done]. }
      destruct (decide (k ∈ cols)) as [Hin|Hin].
      * rewrite decide_True; [done|by right].
      * rewrite decide_False; [done|].
        rewrite not_elem_of_cons. split; [done|done].
Qed.

(** X7.  [Employee.to_dict] with a non-empty column list keeps, of the ten
    entries of the employee's data dictionary, exactly those whose key is
    listed, each with its value; a listed key that is not in the data
    dictionary is passed over, and [id] is kept only when it is listed. *)
Theorem to_dict_lookup (e : Employee.t) (visible_columns : list string)
    (k : string) :
  visible_columns ≠ [] →
  Employee.to_dict e (Some visible_columns) !! k
  = if decide (k ∈ visible_columns) then Employee.to_dict_data e !! k else None.
Proof.
  intros Hne. destruct visible_columns as [|c cols]; [done|].
  unfold Employee.to_dict. rewrite to_dict_fold_lookup, lookup_empty.
  case_decide; [|done]. by destruct (Employee.to_dict_data e !! k).
Qed.

Lemma to_dict_lookup_alice_id :
  Employee.to_dict Fixtures.alice (Some ["first_name"; "nickname"]) !! "id"
  = if decide ("id" ∈ ["first_name"; "nickname"])
    then Employee.to_dict_data Fixtures.alice !! "id" else None.
Proof. apply to_dict_lookup. discriminate. Defined.

(** ** Ordering *)

Lemma name_le_total : Total name_le.
Proof.
  intros e1 e2. unfold name_le.
  destruct (decide (Employee.last_name e1 = Employee.last_name e2)) as [Heq|Hne].
  - destruct (total String.le (Employee.first_name e1) (Employee.first_name e2));
      [left; right|right; right]; by rewrite ?Heq.
  - destruct (total String.le (Employee.last_name e1) (Employee.last_name e2));
      [left; left|right; left]; split; congruence.
Qed.

Lemma name_le_trans : Transitive name_le.
Proof.
  intros e1 e2 e3. unfold name_le.
  intros [[Hne12 H12]|[Heq12 H12]] [[Hne23 H23]|[Heq23 H23]].
  - left. split; [|by etransitivity].
    intros Heq. apply Hne12. apply (anti_symm String.le); [done|].
    by rewrite Heq.
  - left. rewrite <- Heq23. done.
  - left. rewrite Heq12. done.
  - right. split; [congruence|by etransitivity].
Qed.

Lemma StronglySorted_sublist {A : Type} (R : relation A) (l1 l2 : list A) :
  l1 `sublist_of` l2 → StronglySorted R l2 → StronglySorted R l1.
Proof.
  induction 1 as [|x l1 l2 Hsub IH|x l1 l2 Hsub IH]; intros Hs.
  - constructor.
  - apply StronglySorted_inv in Hs as [Hs Hall].
    constructor; [by apply IH|].
    rewrite Forall_forall in *. intros y Hy. apply Hall.
    by eapply elem_of_sublist.
  - apply StronglySorted_inv in Hs as [Hs _]. by apply IH.
Qed.

Lemma served_le_total (rank : Employee.t → nat) : Total (served_le rank).
Proof.
  intros e1 e2. unfold served_le.
  destruct (decide (Employee.last_name e1 = Employee.last_name e2)) as [Hl|Hl].
  - destruct (decide (Employee.first_name e1 = Employee.first_name e2))
      as [Hf|Hf].
    + destruct (decide (rank e1 ≤ rank e2)%nat);
        [left|right]; right; right; repeat split; (done || lia).
    + destruct (total String.le (Employee.first_name e1)
                  (Employee.first_name e2));
        [left|right]; right; left; repeat split; (done || congruence).
  - destruct (total String.le (Employee.last_name e1) (Employee.last_name e2));
      [left|right]; left; split; (done || congruence).
Qed.

Lemma served_le_trans (rank : Employee.t → nat) : Transitive (served_le rank).
Proof.
  intros e1 e2 e3. unfold served_le.
  assert (∀ s1 s2 s3 : string,
            String.le s1 s2 → String.le s2 s3 → s1 = s3 → s1 = s2) as Hmid.
  { intros s1 s2 s3 H12 H23 ->. by apply (anti_symm String.le). }
  intros [[Hn12 H12]|[[Hl12 [Hn12 H12]]|[Hl12 [Hf12 H12]]]]
         [[Hn23 H23]|[[Hl23 [Hn23 H23]]|[Hl23 [Hf23 H23]]]].
  - left. split; [|by etransitivity].
    intros Heq. apply Hn12. by apply (Hmid _ _ _ H12 H23).
  - left. rewrite <- Hl23. done.
  - left. rewrite <- Hl23. done.
  - left. rewrite Hl12. done.
  - right. left. split; [congruence|]. split; [|by etransitivity].
    intros Heq. apply Hn12. by apply (Hmid _ _ _ H12 H23).
  - right. left. rewrite <- Hl23, <- Hf23. done.
  - left. rewrite Hl12. done.
  - right. left. rewrite Hl12, Hf12. done.
  - right. right. split; [congruence|]. split; [congruence|lia].
Qed.

Lemma served_le_name_le (rank : Employee.t → nat) (e1 e2 : Employee.t) :
  served_le rank e1 e2 → name_le e1 e2.
Proof.
  unfold served_le, name_le.
  intros [?|[(Hl & _ & ?)|(Hl & Hf & _)]]; [by left|by right|].
  right. split; [done|]. by rewrite Hf.
Qed.

(** The ordered queryset holds the rows of the queryset, in order of last
    name, then first name. *)
Lemma order_by_name_sorted (rank : Employee.t → nat)
    (queryset : list Employee.t) :
  order_by_name rank queryset ≡ₚ queryset ∧
  StronglySorted name_le (order_by_name rank queryset).
Proof.
  split; [apply merge_sort_Permutation|].
  assert (StronglySorted (served_le rank) (order_by_name rank queryset))
    as Hsorted
    by (apply (@StronglySorted_merge_sort _ (served_le rank) _
                 (served_le_trans rank) (served_le_total rank))).
  induction Hsorted as [|e l _ IH Hall]; constructor; [done|].
  eapply Forall_impl; [exact Hall|]. intros e'. apply served_le_name_le.
Qed.

(** ** The search view, case by case *)

(** X8.  The successful search, in full: for a stored, active organization
    and parameters that validate, with a [page] that the paginator reads
    and that is not past the last page, the response is 200; [count] is the
    number of employees the filters keep (not the number on the page),
    [results] are the projections, by the organization's visible columns,
    of the page's slice of those employees put in order of last name, then
    first name (employees that agree on both in the order the database
    serves them), [next] and [previous] are links exactly when there is a
    later and an earlier page, and [meta] names the organization, the
    visible columns and the validated parameters. *)
Theorem search_success (db : Database.t) (request : Request.t)
    (organization_id : UUID) (organization : Organization.t)
    (search_data : EmployeeSearchSerializer.validated_data_t) :
  schema_constraints db →
  active_organization db organization_id organization →
  EmployeeSearchSerializer.is_valid (Request.query_params request)
    = inl search_data →
  plain_page (Request.query_params request) →
  let matches := Views.filter_queryset db organization search_data in
  let per_page :=
    EmployeeSearchPagination.get_page_size
      (EmployeeSearchSerializer.page_size search_data)
      (Request.query_params request) in
  let pages :=
    EmployeeSearchPagination.num_pages (Z.of_nat (length matches)) per_page in
  let p := EmployeeSearchSerializer.page search_data in
  p ≤ pages →
  ∃ (visible_columns : list string) (ordered : list Employee.t),
    Views.get_visible_columns db organization = Ok visible_columns ∧
    ordered ≡ₚ matches ∧
    StronglySorted name_le ordered ∧
    Views.search_employees db request organization_id =
      {| Response.status_code := 200;
         Response.data :=
           VDict
             [ ("count", VInt (Z.of_nat (length matches)));
               ("next",
                if bool_decide (p < pages)
                then EmployeeSearchPagination.link (p + 1) else VNone);
               ("previous",
                if bool_decide (1 < p)
                then EmployeeSearchPagination.link (p - 1) else VNone);
               ("results",
                VList (VDict <$>
                         DynamicEmployeeSerializer.many_data
                           (Some visible_columns)
                           (page_slice per_page p ordered)));
               ("meta", Views.meta organization visible_columns search_data) ] |}.
Proof.
  intros Hschema Hactive Hvalid Hplain matches per_page pages p Hp.
  destruct (search_employees_served db request organization_id organization
              search_data Hschema Hactive Hvalid Hplain Hp)
    as (vc & Hvc & Hresponse).
  exists vc, (order_by_name (Database.tie_rank db) matches).
  split; [done|].
  destruct (order_by_name_sorted (Database.tie_rank db) matches)
    as [Hperm Hsorted].
  done.
Qed.

Lemma search_success_first_of_two_pages :
  ∃ (visible_columns : list string) (ordered : list Employee.t),
    Views.get_visible_columns Fixtures.db Fixtures.org1 = Ok visible_columns ∧
    ordered ≡ₚ Views.filter_queryset Fixtures.db Fixtures.org1
                 Pages.one_per_page_data ∧
    StronglySorted name_le ordered ∧
    Views.search_employees Fixtures.db
      (Fixtures.search_org1 Pages.one_per_page) 1%N =
      {| Response.status_code := 200;
         Response.data :=
           VDict
             [ ("count", VInt 2);
               ("next", EmployeeSearchPagination.link 2);
               ("previous", VNone);
               ("results",
                VList (VDict <$>
                         DynamicEmployeeSerializer.many_data
                           (Some visible_columns) (page_slice 1 1 ordered)));
               ("meta",
                Views.meta Fixtures.org1 visible_columns
                  Pages.one_per_page_data) ] |}.
Proof.
  apply (search_success Fixtures.db (Fixtures.search_org1 Pages.one_per_page)
           1%N Fixtures.org1 Pages.one_per_page_data).
  - exact fixtures_schema.
  - exact fixtures_org1.
  - vm_compute. reflexivity.
  - exact I.
  - vm_compute. discriminate.
Defined.

(** X9.  The filters are conjunctive and scoped: the employees a validated
    search keeps are exactly the stored employees of the organization that
    pass every filter that is given; the free-text filter passes on a
    case-insensitive match in the first name, the last name or the email,
    the department, position and location filters on a case-insensitive
    match in their field, the status filter on equality; and they are kept
    in storage order. *)
Theorem filter_queryset_spec (db : Database.t) (organization : Organization.t)
    (search_data : EmployeeSearchSerializer.validated_data_t) :
  Views.filter_queryset db organization search_data
    `sublist_of` Database.employees db ∧
  ∀ e,
    e ∈ Views.filter_queryset db organization search_data ↔
    e ∈ Database.employees db ∧
    Employee.organization e = Organization.id organization ∧
    (∀ term, Views.given (EmployeeSearchSerializer.search search_data)
               = Some term →
       icontains (Employee.first_name e) term = true ∨
       icontains (Employee.last_name e) term = true ∨
       icontains (Employee.email e) term = true) ∧
    (∀ term, Views.given (EmployeeSearchSerializer.department search_data)
               = Some term →
       icontains (Employee.department e) term = true) ∧
    (∀ term, Views.given (EmployeeSearchSerializer.position search_data)
               = Some term →
       icontains (Employee.position e) term = true) ∧
    (∀ term, Views.given (EmployeeSearchSerializer.location search_data)
               = Some term →
       icontains (Employee.location e) term = true) ∧
    (∀ value, Views.given (EmployeeSearchSerializer.status search_data)
                = Some value →
       Employee.status e = value).
Proof.
  unfold Views.filter_queryset. split.
  - repeat match goal with
           | |- context [match Views.given ?o with _ => _ end] =>
               destruct (Views.given o)
           end;
      repeat (etransitivity; [apply sublist_filter|]); done.
  - intros e.
    destruct (Views.given (EmployeeSearchSerializer.search search_data));
      destruct (Views.given (EmployeeSearchSerializer.department search_data));
      destruct (Views.given (EmployeeSearchSerializer.position search_data));
      destruct (Views.given (EmployeeSearchSerializer.location search_data));
      destruct (Views.given (EmployeeSearchSerializer.status search_data));
      rewrite ?list_elem_of_filter;
      (split;
       [ intros H; repeat split; try tauto;
         intros ? Heq; inversion Heq; subst; tauto
       | intros (? & ? & H1 & H2 & H3 & H4 & H5);
         repeat split; try done;
         first [by apply H1 | by apply H2 | by apply H3 | by apply H4
               | by apply H5] ]).
Qed.

(** ** Paging *)

(** X10.  The paginator reads the raw [page_size] parameter a second time,
    with its own rules; for parameters that validate, what it reads is the
    validated [page_size], which lies between 1 and 100, so no page of a
    search holds more rows than that. *)
Theorem page_size_is_the_validated_one (q : QueryParams.t)
    (search_data : EmployeeSearchSerializer.validated_data_t)
    (queryset : list Employee.t) (page : EmployeeSearchPagination.Page) :
  EmployeeSearchSerializer.is_valid q = inl search_data →
  EmployeeSearchPagination.paginate_queryset
    (EmployeeSearchSerializer.page_size search_data) queryset q
    = Ok (Some page) →
  EmployeeSearchPagination.get_page_size
    (EmployeeSearchSerializer.page_size search_data) q
    = EmployeeSearchSerializer.page_size search_data ∧
  1 ≤ EmployeeSearchSerializer.page_size search_data ≤ 100 ∧
  Z.of_nat (length (EmployeeSearchPagination.object_list page))
    ≤ EmployeeSearchSerializer.page_size search_data.
Proof.
  intros Hvalid Hpage.
  pose proof (is_valid_bounds _ _ Hvalid) as (_ & Hps & _ & _ & Hnot).
  assert (EmployeeSearchPagination.get_page_size
            (EmployeeSearchSerializer.page_size search_data) q
          = EmployeeSearchSerializer.page_size search_data) as Hsame.
  { revert Hvalid.
    unfold EmployeeSearchSerializer.is_valid, EmployeeSearchSerializer.validate,
      EmployeeSearchSerializer.IntegerField,
      EmployeeSearchPagination.get_page_size,
      EmployeeSearchPagination.max_page_size.
    intros H.
    destruct (QueryParams.page q) as [[n|n|]|],
             (QueryParams.page_size q) as [[m|m|]|];
      simpl in H; repeat case_decide; simpl in H;
      repeat match type of H with
             | context [match ?e with _ => _ end] =>
                 destruct e eqn:?; try discriminate
             end;
      try (exfalso; repeat match goal with
             | Hx : _ ++ _ = [] |- _ => apply app_eq_nil in Hx as [_ Hx]
             end; discriminate);
      inversion H; subst search_data; simpl; try done; lia. }
  split; [done|]. split; [done|].
  pose proof (paginate_queryset_plain _ _ _ _ Hpage) as Hplain.
  rewrite paginate_queryset_spec in Hpage by (done || lia).
  case_decide; [|done]. inversion Hpage; subst page. simpl.
  unfold page_slice. rewrite Hsame, length_take. lia.
Qed.

Lemma page_size_is_the_validated_one_first_of_two :
  EmployeeSearchPagination.get_page_size
    (EmployeeSearchSerializer.page_size Pages.one_per_page_data)
    Pages.one_per_page
    = EmployeeSearchSerializer.page_size Pages.one_per_page_data ∧
  1 ≤ EmployeeSearchSerializer.page_size Pages.one_per_page_data ≤ 100 ∧
  Z.of_nat (length (EmployeeSearchPagination.object_list
                      (EmployeeSearchPagination.mk_page [Fixtures.bob] 2 1
                         true false)))
    ≤ EmployeeSearchSerializer.page_size Pages.one_per_page_data.
Proof.
  apply (page_size_is_the_validated_one Pages.one_per_page
           Pages.one_per_page_data [Fixtures.bob; Fixtures.alice]).
  - vm_compute. reflexivity.
  - vm_compute. reflexivity.
Defined.

(** X11.  A search that matches nothing is not an error: for a stored,
    active organization and parameters that validate and ask for the first
    page, in text that the paginator reads, when the filters keep no
    employee the response is 200 with a [count] of 0, no [results] and
    neither link. *)
Theorem empty_search_is_a_success (db : Database.t) (request : Request.t)
    (organization_id : UUID) (organization : Organization.t)
    (search_data : EmployeeSearchSerializer.validated_data_t) :
  schema_constraints db →
  active_organization db organization_id organization →
  EmployeeSearchSerializer.is_valid (Request.query_params request)
    = inl search_data →
  plain_page (Request.query_params request) →
  EmployeeSearchSerializer.page search_data = 1 →
  Views.filter_queryset db organization search_data = [] →
  ∃ visible_columns,
    Views.search_employees db request organization_id =
      {| Response.status_code := 200;
         Response.data :=
           VDict
             [ ("count", VInt 0); ("next", VNone); ("previous", VNone);
               ("results", VList []);
               ("meta", Views.meta organization visible_columns search_data) ] |}.
Proof.
  intros Hschema Hactive Hvalid Hplain Hfirst Hnone.
  pose proof (is_valid_bounds _ _ Hvalid) as (_ & Hps & _).
  pose proof (get_page_size_pos (EmployeeSearchSerializer.page_size search_data)
                (Request.query_params request)) as Hpp.
  assert (EmployeeSearchPagination.num_pages 0
            (EmployeeSearchPagination.get_page_size
               (EmployeeSearchSerializer.page_size search_data)
               (Request.query_params request)) = 1) as Hpages.
  { unfold EmployeeSearchPagination.num_pages.
    replace (Z.max 1 0 + _ - 1) with
      (1 * EmployeeSearchPagination.get_page_size
             (EmployeeSearchSerializer.page_size search_data)
             (Request.query_params request)) by lia.
    apply Z.div_mul. lia. }
  pose proof (get_object_or_404_active _ _ _ Hschema Hactive) as Horg.
  destruct (get_visible_columns_Ok db organization Hschema) as [vc Hvc].
  pose proof (requested_page_valid _ _ Hvalid Hplain) as Hreq.
  exists vc.
  unfold Views.search_employees, Views.search_employees_try.
  rewrite Horg. simpl. rewrite Hvc. simpl. rewrite Hvalid.
  unfold Views.search_page.
  rewrite paginate_queryset_spec by (done || lia).
  rewrite order_by_name_length, Hreq, Hnone, Hfirst.
  change (Z.of_nat (length [])) with 0. rewrite Hpages.
  rewrite decide_True by lia. unfold page_slice.
  change (order_by_name (Database.tie_rank db) []) with (@nil Employee.t).
  rewrite drop_nil, take_nil. reflexivity.
Qed.

Lemma empty_search_is_a_success_sales :
  ∃ visible_columns,
    Views.search_employees Fixtures.db (Fixtures.search_org1 Pages.sales) 1%N =
      {| Response.status_code := 200;
         Response.data :=
           VDict
             [ ("count", VInt 0); ("next", VNone); ("previous", VNone);
               ("results", VList []);
               ("meta",
                Views.meta Fixtures.org1 visible_columns Pages.sales_data) ] |}.
Proof.
  apply (empty_search_is_a_success Fixtures.db
           (Fixtures.search_org1 Pages.sales) 1%N Fixtures.org1
           Pages.sales_data).
  - exact fixtures_schema.
  - exact fixtures_org1.
  - vm_compute. reflexivity.
  - exact I.
  - reflexivity.
  - vm_compute. reflexivity.
Defined.

(** ** The order of the rows served *)

Lemma page_slice_sublist {A : Type} (per_page p : Z) (rows : list A) :
  page_slice per_page p rows `sublist_of` rows.
Proof.
  unfold page_slice. etransitivity; [apply sublist_take|apply sublist_drop].
Qed.

(** The page served when page [p] is asked for. *)
Lemma paginate_queryset_with_page (self_page_size p : Z)
    (queryset : list Employee.t) (q : QueryParams.t)
    (page : EmployeeSearchPagination.Page) :
  EmployeeSearchPagination.paginate_queryset self_page_size queryset
    (with_page p q) = Ok (Some page) →
  1 ≤ p ∧
  EmployeeSearchPagination.object_list page
  = page_slice (EmployeeSearchPagination.get_page_size self_page_size q) p
      queryset.
Proof.
  unfold EmployeeSearchPagination.paginate_queryset. simpl.
  change (EmployeeSearchPagination.get_page_size self_page_size (with_page p q))
    with (EmployeeSearchPagination.get_page_size self_page_size q).
  repeat case_decide; try done;
    intros Hpage; inversion Hpage; (split; [lia|done]).
Qed.

(** Two sorted arrangements of the same rows agree on which rows come
    among the first [n], up to rows that the order does not tell apart. *)
Lemma sorted_perm_take_drop {A : Type} (R : relation A)
    `{!Total R, !Transitive R, ∀ x y, Decision (R x y)}
    (l1 l2 : list A) (n : nat) (x y : A) :
  StronglySorted R l1 → StronglySorted R l2 → l1 ≡ₚ l2 →
  x ∈ take n l1 → y ∈ drop n l2 → R x y.
Proof.
  intros Hs1 Hs2 Hperm Hx Hy.
  destruct (decide (R x y)) as [|Hxy]; [done|exfalso].
  set (P := λ z, ¬ R x z).
  assert (length (filter P l1) ≤ n)%nat as Hle.
  { rewrite <- (take_drop n l1), filter_app.
    rewrite <- (take_drop n l1) in Hs1.
    rewrite (filter_none P (drop n l1)).
    - rewrite app_nil_r.
      etransitivity; [apply length_filter|]. rewrite length_take. lia.
    - intros z Hz HP. apply HP.
      by apply (StronglySorted_app_1_elem_of _ _ _ x z Hs1). }
  assert (n < length (filter P l2))%nat as Hlt.
  { rewrite <- (take_drop n l2), filter_app, length_app.
    rewrite <- (take_drop n l2) in Hs2.
    assert (Forall P (take n l2)) as Hall.
    { apply Forall_forall. intros z Hz HP. apply Hxy.
      transitivity z; [done|].
      by apply (StronglySorted_app_1_elem_of _ _ _ z y Hs2). }
    rewrite (filter_Forall_id P _ Hall).
    assert (y ∈ filter P (drop n l2)) as Hin
      by (by apply list_elem_of_filter).
    assert (n < length l2)%nat.
    { destruct (decide (n < length l2)%nat); [done|].
      rewrite drop_ge in Hy by lia. by apply elem_of_nil in Hy. }
    rewrite length_take.
    destruct (filter P (drop n l2)); [by apply elem_of_nil in Hin|].
    simpl. lia. }
  assert (filter P l1 ≡ₚ filter P l2) as Hfilter by (by rewrite Hperm).
  apply Permutation_length in Hfilter. lia.
Qed.

Lemma is_valid_with_page (q : QueryParams.t)
    (search_data : EmployeeSearchSerializer.validated_data_t) (p : Z) :
  EmployeeSearchSerializer.is_valid q = inl search_data →
  1 ≤ p →
  EmployeeSearchSerializer.is_valid (with_page p q)
  = inl (at_page p search_data).
Proof.
  unfold EmployeeSearchSerializer.is_valid, EmployeeSearchSerializer.validate.
  cbn [with_page QueryParams.search QueryParams.department QueryParams.position
       QueryParams.location QueryParams.status QueryParams.page
       QueryParams.page_size].
  intros H Hp.
  assert (EmployeeSearchSerializer.IntegerField 1 None 1 (Some (Numeral p))
          = Valid p) as ->.
  { unfold EmployeeSearchSerializer.IntegerField. by rewrite decide_False by lia. }
  cbn [EmployeeSearchSerializer.field_errors EmployeeSearchSerializer.field_value].
  set (errs := _ ++ _) in H.
  destruct errs as [|err errs'] eqn:He; [|done].
  destruct (EmployeeSearchSerializer.field_value
              (EmployeeSearchSerializer.IntegerField 1 None 1 (QueryParams.page q)))
    as [p0|]; [|done].
  destruct (EmployeeSearchSerializer.field_value
              (EmployeeSearchSerializer.IntegerField 1 (Some 100) 50
                 (QueryParams.page_size q))) as [ps|] eqn:Hps; [|done].
  inversion H; subst search_data. clear H.
  subst errs.
  repeat (apply app_eq_nil in He as [?Herr He]).
  rewrite Herr, Herr0, Herr1, Herr2, Herr3, He. reflexivity.
Qed.

(** X12.  The rows of a search come in the order of names, whatever the
    database does with employees of the same name.  The rows of every
    search answered 200 are the projections of the employees of the page
    that the search has served, and these are in order of last name, then
    first name; and when page [p] and a later page [p'] of the same search
    are both served, by the same query or by two that break ties
    differently, every employee of page [p] comes no later in that order
    than every employee of page [p']. *)
Theorem pages_follow_the_name_order (db : Database.t)
    (organization_id : UUID) :
  (∀ request,
     Response.status_code (Views.search_employees db request organization_id)
       = 200 →
     ∃ organization visible_columns search_data page,
       EmployeeSearchSerializer.is_valid (Request.query_params request)
         = inl search_data ∧
       Views.search_page db organization (Request.query_params request)
         search_data = Ok (Some page) ∧
       response_item "results"
         (Views.search_employees db request organization_id)
       = Some (VList (VDict <$> DynamicEmployeeSerializer.many_data
                                  (Some visible_columns)
                                  (EmployeeSearchPagination.object_list page))) ∧
       StronglySorted name_le (EmployeeSearchPagination.object_list page)) ∧
  (∀ organization q search_data rank rank' p p' page page',
     Views.search_page (with_rank rank db) organization (with_page p q)
       (at_page p search_data) = Ok (Some page) →
     Views.search_page (with_rank rank' db) organization (with_page p' q)
       (at_page p' search_data) = Ok (Some page') →
     p < p' →
     ∀ e e',
       e ∈ EmployeeSearchPagination.object_list page →
       e' ∈ EmployeeSearchPagination.object_list page' →
       name_le e e').
Proof.
  split.
  - intros request H200.
    destruct (search_employees_200 _ _ _ H200)
      as (org & vc & sd & page & _ & _ & Hvalid & Hpage & ->).
    exists org, vc, sd, page.
    split; [done|]. split; [done|]. split; [reflexivity|].
    pose proof (paginate_queryset_plain _ _ _ _ Hpage) as Hplain.
    unfold Views.search_page, EmployeeSearchPagination.paginate_queryset in Hpage.
    unfold plain_page in Hplain.
    case_decide; [done|].
    destruct (QueryParams.page (Request.query_params request)) as [[n|n|]|];
      try done; repeat case_decide; try done; inversion Hpage; simpl;
      (eapply StronglySorted_sublist;
       [etransitivity; [apply sublist_take|apply sublist_drop]
       |apply order_by_name_sorted]).
  - intros organization q sd rank rank' p p' page page' Hpage Hpage' Hlt
      e e' He He'.
    unfold Views.search_page in Hpage, Hpage'.
    apply paginate_queryset_with_page in Hpage as [Hp Hrows].
    apply paginate_queryset_with_page in Hpage' as [_ Hrows'].
    set (matches := Views.filter_queryset db organization sd).
    set (per_page := EmployeeSearchPagination.get_page_size
                       (EmployeeSearchSerializer.page_size sd) q).
    assert (EmployeeSearchPagination.object_list page
            = page_slice per_page p (order_by_name rank matches)) as Hrows1
      by exact Hrows.
    assert (EmployeeSearchPagination.object_list page'
            = page_slice per_page p' (order_by_name rank' matches)) as Hrows2
      by exact Hrows'.
    rewrite Hrows1 in He. rewrite Hrows2 in He'. clear Hrows Hrows' Hrows1 Hrows2.
    destruct (order_by_name_sorted rank matches) as [Hperm Hsorted].
    destruct (order_by_name_sorted rank' matches) as [Hperm' Hsorted'].
    destruct (decide (per_page ≤ 0)) as [Hzero|Hpos].
    { unfold page_slice in He. replace (Z.to_nat per_page) with 0%nat in He by lia.
      by apply elem_of_nil in He. }
    apply (@sorted_perm_take_drop _ name_le name_le_total name_le_trans _
             (order_by_name rank matches) (order_by_name rank' matches)
             (Z.to_nat (p * per_page))); try done.
    + by rewrite Hperm, Hperm'.
    + unfold page_slice in He. rewrite take_drop_commute in He.
      apply subseteq_drop in He.
      replace (Z.to_nat ((p - 1) * per_page) + Z.to_nat per_page)%nat
        with (Z.to_nat (p * per_page)) in He by nia.
      done.
    + unfold page_slice in He'. apply subseteq_take in He'.
      replace (Z.to_nat ((p' - 1) * per_page)) with
        (Z.to_nat (p * per_page)
         + (Z.to_nat ((p' - 1) * per_page) - Z.to_nat (p * per_page)))%nat
        in He' by nia.
      rewrite <- drop_drop in He'. by apply subseteq_drop in He'.
Qed.

Lemma pages_follow_the_name_order_org1 :
  ∃ organization visible_columns search_data page,
    EmployeeSearchSerializer.is_valid (Request.query_params Ledgers.search)
      = inl search_data ∧
    Views.search_page Fixtures.db organization
      (Request.query_params Ledgers.search) search_data = Ok (Some page) ∧
    response_item "results"
      (Views.search_employees Fixtures.db Ledgers.search 1%N)
    = Some (VList (VDict <$> DynamicEmployeeSerializer.many_data
                               (Some visible_columns)
                               (EmployeeSearchPagination.object_list page))) ∧
    StronglySorted name_le (EmployeeSearchPagination.object_list page).
Proof.
  apply (proj1 (pages_follow_the_name_order Fixtures.db 1%N)).
  vm_compute. reflexivity.
Defined.

(** ** Organizations that cannot be served *)

Lemma get_object_or_404_none (db : Database.t) (organization_id : UUID) :
  no_active_organization db organization_id →
  Views.get_object_or_404 db organization_id = Raise Http404.
Proof.
  intros Hnone. unfold Views.get_object_or_404, no_active_organization in *.
  rewrite Forall_forall in Hnone. by rewrite filter_none.
Qed.

(** X13.  The two views disagree on an organization that is not stored or
    not active: [search_employees] answers 404, [organization_config],
    whose handlers have no clause for [Http404], answers 500. *)
Theorem unknown_organization_404_and_500 (db : Database.t)
    (request : Request.t) (organization_id : UUID) :
  no_active_organization db organization_id →
  Views.search_employees db request organization_id =
    Views.error_response 404
      [("error", VStr "Organization not found or inactive")] ∧
  Views.organization_config db organization_id =
    Views.error_response 500 [("error", VStr "Internal server error")].
Proof.
  intros Hnone.
  unfold Views.search_employees, Views.search_employees_try,
    Views.organization_config, Views.organization_config_try.
  by rewrite get_object_or_404_none.
Qed.

Lemma unknown_organization_404_and_500_seven :
  Views.search_employees Fixtures.db Searches.invalid_status_elsewhere
    Searches.unknown_organization =
    Views.error_response 404
      [("error", VStr "Organization not found or inactive")] ∧
  Views.organization_config Fixtures.db Searches.unknown_organization =
    Views.error_response 500 [("error", VStr "Internal server error")].
Proof.
  apply unknown_organization_404_and_500.
  apply (bool_decide_unpack _). vm_compute. exact I.
Defined.

(** ** The configuration view *)

Lemma get_visible_columns_nonempty (db : Database.t)
    (organization : Organization.t) (visible_columns : list string) :
  Views.get_visible_columns db organization = Ok visible_columns →
  visible_columns ≠ [].
Proof.
  unfold Views.get_visible_columns.
  destruct (Views.config db organization) as [c|e].
  - intros H; inversion H. unfold OrganizationConfig.get_default_columns.
    by destruct (OrganizationConfig.visible_columns c).
  - destruct e; intros H; inversion H; done.
Qed.

(** X14.  The configuration view and the search agree: for a stored, active
    organization [organization_config] answers 200, the [visible_columns]
    it reports are never empty and are the ones every successful search on
    that organization reports in [meta] and projects its rows with, and
    [available_columns] are the eight recognised keys with their labels,
    whatever the organization has configured. *)
Theorem config_view_agrees_with_search (db : Database.t)
    (organization_id : UUID) (organization : Organization.t) :
  schema_constraints db →
  active_organization db organization_id organization →
  ∃ visible_columns,
    visible_columns ≠ [] ∧
    Response.status_code (Views.organization_config db organization_id) = 200 ∧
    (response_item "config" (Views.organization_config db organization_id)
       ≫= dict_get "visible_columns")
      = Some (VList (VStr <$> visible_columns)) ∧
    (response_item "config" (Views.organization_config db organization_id)
       ≫= dict_get "available_columns")
      = Some (VList ((λ kl, VDict [("key", VStr kl.1); ("label", VStr kl.2)])
                       <$> OrganizationConfig.AVAILABLE_COLUMNS)) ∧
    ∀ request,
      Response.status_code (Views.search_employees db request organization_id)
        = 200 →
      (response_item "meta" (Views.search_employees db request organization_id)
         ≫= dict_get "visible_columns")
        = Some (VList (VStr <$> visible_columns)) ∧
      ∃ rows,
        response_item "results"
          (Views.search_employees db request organization_id)
        = Some (VList (VDict <$> DynamicEmployeeSerializer.many_data
                                   (Some visible_columns) rows)).
Proof.
  intros Hschema Hactive.
  pose proof (get_object_or_404_active _ _ _ Hschema Hactive) as Horg.
  destruct (get_visible_columns_Ok db organization Hschema) as [vc Hvc].
  exists vc. split; [by eapply get_visible_columns_nonempty|].
  assert (∃ order,
            Views.organization_config_try db organization_id =
            Ok {| Response.status_code := 200;
                  Response.data :=
                    VDict [ ("organization",
                             VDict [ ("id", VUuid (Organization.id organization));
                                     ("name", VStr (Organization.name organization)) ]);
                            ("config",
                             VDict [ ("visible_columns", VList (VStr <$> vc));
                                     ("column_order", VList (VStr <$> order));
                                     ("available_columns",
                                      VList ((λ kl, VDict [ ("key", VStr kl.1);
                                                            ("label", VStr kl.2) ])
                                               <$> OrganizationConfig.AVAILABLE_COLUMNS)) ]) ] |})
    as [order Htry].
  { unfold Views.organization_config_try. rewrite Horg. simpl.
    unfold Views.get_visible_columns in Hvc.
    destruct (Views.config db organization) as [c|e]; simpl.
    - inversion Hvc. by eexists.
    - destruct e; inversion Hvc. by eexists. }
  unfold Views.organization_config. rewrite Htry.
  do 3 (split; [reflexivity|]).
  intros request H200.
  destruct (search_employees_200 _ _ _ H200)
    as (org & vc' & sd & page & Horg' & Hvc' & _ & _ & ->).
  rewrite Horg in Horg'. inversion Horg'; subst org.
  rewrite Hvc in Hvc'. inversion Hvc'; subst vc'.
  split; [reflexivity|]. by eexists.
Qed.

Lemma config_view_agrees_with_search_org1 :
  ∃ visible_columns,
    visible_columns ≠ [] ∧
    Response.status_code (Views.organization_config Fixtures.db 1%N) = 200 ∧
    (response_item "config" (Views.organization_config Fixtures.db 1%N)
       ≫= dict_get "visible_columns")
      = Some (VList (VStr <$> visible_columns)) ∧
    (response_item "config" (Views.organization_config Fixtures.db 1%N)
       ≫= dict_get "available_columns")
      = Some (VList ((λ kl, VDict [("key", VStr kl.1); ("label", VStr kl.2)])
                       <$> OrganizationConfig.AVAILABLE_COLUMNS)) ∧
    ∀ request,
      Response.status_code (Views.search_employees Fixtures.db request 1%N)
        = 200 →
      (response_item "meta" (Views.search_employees Fixtures.db request 1%N)
         ≫= dict_get "visible_columns")
        = Some (VList (VStr <$> visible_columns)) ∧
      ∃ rows,
        response_item "results" (Views.search_employees Fixtures.db request 1%N)
        = Some (VList (VDict <$> DynamicEmployeeSerializer.many_data
                                   (Some visible_columns) rows)).
Proof.
  apply (config_view_agrees_with_search Fixtures.db 1%N Fixtures.org1).
  - exact fixtures_schema.
  - exact fixtures_org1.
Defined.

Lemma config_unique (db : Database.t) (organization : Organization.t)
    (c : OrganizationConfig.t) :
  schema_constraints db → config_of db organization c →
  Views.config db organization = Ok c.
Proof.
  intros [_ Hone] [Hin Hc]. unfold Views.config.
  rewrite (filter_unique_key OrganizationConfig.organization _ _ c);
    try done.
  congruence.
Qed.

(** X15.  The column order shown by [organization_config]: the stored
    [column_order] as it is when it is not empty, whether or not the
    columns it names are visible; the visible columns when it is empty. *)
Theorem column_order_falls_back_to_visible (db : Database.t)
    (organization_id : UUID) (organization : Organization.t)
    (c : OrganizationConfig.t) :
  schema_constraints db →
  active_organization db organization_id organization →
  config_of db organization c →
  (response_item "config" (Views.organization_config db organization_id)
     ≫= dict_get "column_order")
  = Some (VList (VStr <$>
            match OrganizationConfig.column_order c with
            | [] => OrganizationConfig.get_default_columns c
            | order => order
            end)).
Proof.
  intros Hschema Hactive Hc.
  unfold Views.organization_config, Views.organization_config_try.
  rewrite (get_object_or_404_active _ _ _ Hschema Hactive). simpl.
  rewrite (config_unique _ _ _ Hschema Hc). reflexivity.
Qed.

Lemma column_order_falls_back_to_visible_org1 :
  (response_item "config" (Views.organization_config Fixtures.db 1%N)
     ≫= dict_get "column_order")
  = Some (VList (VStr <$> ["first_name"; "last_name"; "email"; "department"])).
Proof.
  apply (column_order_falls_back_to_visible Fixtures.db 1%N Fixtures.org1
           (OrganizationConfig.mk 1
              ["first_name"; "last_name"; "email"; "department"]
              ["first_name"; "last_name"; "email"; "department"])).
  - exact fixtures_schema.
  - exact fixtures_org1.
  - split; [left|reflexivity].
Defined.

(** ** Paging parameters out of range *)

Lemma is_valid_refuses (q : QueryParams.t) (field : string)
    (details : list ErrorDetail) :
  (field = "page" ∧
   EmployeeSearchSerializer.IntegerField 1 None 1 (QueryParams.page q)
     = Invalid details) ∨
  (field = "page_size" ∧
   EmployeeSearchSerializer.IntegerField 1 (Some 100) 50
     (QueryParams.page_size q) = Invalid details) →
  ∃ errors,
    EmployeeSearchSerializer.is_valid q = inr errors ∧
    (field, details) ∈ errors.
Proof.
  intros Hfield. unfold EmployeeSearchSerializer.is_valid.
  set (errs := _ ++ _).
  assert ((field, details) ∈ errs) as Hin.
  { subst errs. rewrite !elem_of_app.
    destruct Hfield as [[-> ->]|[-> ->]]; simpl.
    - do 5 right. left. left.
    - do 6 right. left. }
  clearbody errs. destruct errs as [|err errs]; [by apply elem_of_nil in Hin|].
  by eexists.
Qed.

(** X16.  Paging parameters out of range are refused: on a stored, active
    organization a [page_size] that the field reads as an integer below 1
    or above 100, a [page] that it reads as an integer below 1, and text in
    either that it does not read as an integer, are answered 400 with the
    field named in the details and the message of the failing check. *)
Theorem out_of_range_paging_is_refused (db : Database.t) (request : Request.t)
    (organization_id : UUID) (organization : Organization.t) :
  schema_constraints db →
  active_organization db organization_id organization →
  let q := Request.query_params request in
  let response := Views.search_employees db request organization_id in
  (∀ t n, QueryParams.page_size q = Some t → read_by_field t = Some n →
     (100 < n → refused_for "page_size" [max_value 100] response) ∧
     (n < 1 → refused_for "page_size" [min_value 1] response)) ∧
  (QueryParams.page_size q = Some NotANumeral →
     refused_for "page_size" [invalid] response) ∧
  (∀ t n, QueryParams.page q = Some t → read_by_field t = Some n → n < 1 →
     refused_for "page" [min_value 1] response) ∧
  (QueryParams.page q = Some NotANumeral →
     refused_for "page" [invalid] response) ∧
  EmployeeSearchSerializer.render_detail <$> [max_value 100; min_value 1; invalid]
  = [ VStr "Ensure this value is less than or equal to 100.";
      VStr "Ensure this value is greater than or equal to 1.";
      VStr "A valid integer is required." ].
Proof.
  intros Hschema Hactive q response.
  pose proof (get_object_or_404_active _ _ _ Hschema Hactive) as Horg.
  destruct (get_visible_columns_Ok db organization Hschema) as [vc Hvc].
  assert (∀ field details,
            (field = "page" ∧
             EmployeeSearchSerializer.IntegerField 1 None 1 (QueryParams.page q)
               = Invalid details) ∨
            (field = "page_size" ∧
             EmployeeSearchSerializer.IntegerField 1 (Some 100) 50
               (QueryParams.page_size q) = Invalid details) →
            refused_for field details response) as Hrefused.
  { intros field details Hfield.
    destruct (is_valid_refuses q field details Hfield) as (errors & Hinv & Hin).
    exists errors. split; [done|].
    subst response. unfold Views.search_employees, Views.search_employees_try.
    rewrite Horg. simpl. rewrite Hvc. simpl. fold q. by rewrite Hinv. }
  split; [intros t n Ht Hn; split; intros Hlt|].
  - apply Hrefused. right. split; [done|]. rewrite Ht.
    unfold EmployeeSearchSerializer.IntegerField.
    destruct t; inversion Hn; subst;
      rewrite decide_True by lia; rewrite decide_False by lia; done.
  - apply Hrefused. right. split; [done|]. rewrite Ht.
    unfold EmployeeSearchSerializer.IntegerField.
    destruct t; inversion Hn; subst;
      rewrite decide_False by lia; rewrite decide_True by lia; done.
  - split; [intros Hn|split; [intros t n Ht Hn Hlt|split; [intros Hn|]]].
    + apply Hrefused. right. split; [done|]. by rewrite Hn.
    + apply Hrefused. left. split; [done|]. rewrite Ht.
      unfold EmployeeSearchSerializer.IntegerField.
      destruct t; inversion Hn; subst; rewrite decide_True by lia; done.
    + apply Hrefused. left. split; [done|]. by rewrite Hn.
    + vm_compute. reflexivity.
Qed.

Lemma out_of_range_paging_is_refused_thousand :
  refused_for "page_size" [max_value 100]
    (Views.search_employees Fixtures.db
       (Fixtures.search_org1 Pages.thousand_per_page) 1%N).
Proof.
  destruct (out_of_range_paging_is_refused Fixtures.db
              (Fixtures.search_org1 Pages.thousand_per_page) 1%N Fixtures.org1
              fixtures_schema fixtures_org1) as [Hsize _].
  apply (Hsize (Numeral 1000) 1000); [reflexivity|reflexivity|lia].
Defined.

(** ** What the rows of a search can show *)

(** X17.  A search never falls back to showing every field: whatever the
    organization has configured, each key of each row of a successful
    search is a field of the serializer that is among the visible columns
    the response reports in [meta], or is [id], or is [full_name] with both
    names visible. *)
Theorem search_rows_show_visible_columns_only (db : Database.t)
    (request : Request.t) (organization_id : UUID) :
  Response.status_code (Views.search_employees db request organization_id)
    = 200 →
  ∃ (visible_columns : list string) (rows : list (list (string * Value))),
    (response_item "meta" (Views.search_employees db request organization_id)
       ≫= dict_get "visible_columns")
      = Some (VList (VStr <$> visible_columns)) ∧
    response_item "results" (Views.search_employees db request organization_id)
      = Some (VList (VDict <$> rows)) ∧
    ∀ row k, row ∈ rows → k ∈ keys row →
      k ∈ DynamicEmployeeSerializer.Meta_fields ∧
      (k ∈ visible_columns ∨ k = "id" ∨
       (k = "full_name" ∧ "first_name" ∈ visible_columns
                        ∧ "last_name" ∈ visible_columns)).
Proof.
  intros H200.
  destruct (search_employees_200 _ _ _ H200)
    as (org & vc & sd & page & _ & Hvc & _ & _ & ->).
  exists vc, (DynamicEmployeeSerializer.many_data (Some vc)
                (EmployeeSearchPagination.object_list page)).
  split; [reflexivity|]. split; [reflexivity|].
  intros row k Hrow Hk.
  apply get_visible_columns_nonempty in Hvc.
  unfold DynamicEmployeeSerializer.many_data in Hrow.
  apply list_elem_of_fmap in Hrow as (e & -> & _).
  rewrite keys_to_representation in Hk.
  destruct vc as [|c cols]; [done|]. by apply init_elem in Hk.
Qed.

Lemma search_rows_show_visible_columns_only_org1 :
  ∃ (visible_columns : list string) (rows : list (list (string * Value))),
    (response_item "meta"
       (Views.search_employees Fixtures.db Ledgers.search 1%N)
       ≫= dict_get "visible_columns")
      = Some (VList (VStr <$> visible_columns)) ∧
    response_item "results"
      (Views.search_employees Fixtures.db Ledgers.search 1%N)
      = Some (VList (VDict <$> rows)) ∧
    ∀ row k, row ∈ rows → k ∈ keys row →
      k ∈ DynamicEmployeeSerializer.Meta_fields ∧
      (k ∈ visible_columns ∨ k = "id" ∨
       (k = "full_name" ∧ "first_name" ∈ visible_columns
                        ∧ "last_name" ∈ visible_columns)).
Proof.
  apply search_rows_show_visible_columns_only. vm_compute. reflexivity.
Defined.

(** ** The client address *)

Lemma get_client_ip_forwarded (x_forwarded_for : string)
    (request : Request.t) :
  x_forwarded_for ≠ "" →
  RateLimitMiddleware._get_client_ip (forwarded_for x_forwarded_for request)
  = first_forwarded x_forwarded_for.
Proof.
  intros Hne. unfold RateLimitMiddleware._get_client_ip, forwarded_for. simpl.
  rewrite lookup_insert_eq. by rewrite decide_False.
Qed.

(** The first request of an address the ledger does not know is let
    through when both limits are at least 1, and nothing is lost of the
    ledger's guarantees. *)
Lemma handle_unknown_client (mw : RateLimitMiddleware.t) (request : Request.t)
    (now : Z) (w : World.t) :
  RateLimitMiddleware._should_skip_rate_limiting request = false →
  1 ≤ RateLimitMiddleware.requests_per_minute mw →
  1 ≤ RateLimitMiddleware.requests_per_hour mw →
  World.faults w = [] → ledger_wf w →
  unknown_client (RateLimitMiddleware._get_client_ip request) w →
  ∃ w',
    handle mw now request w = (Ok None, w') ∧
    World.faults w' = [] ∧ ledger_wf w' ∧
    ∀ ip, ip ≠ RateLimitMiddleware._get_client_ip request →
          unknown_client ip w → unknown_client ip w'.
Proof.
  intros Hskip Hm Hh Hf Hwf Hunknown.
  set (ip := RateLimitMiddleware._get_client_ip request) in *.
  set (org := RateLimitMiddleware._get_organization_from_request request).
  assert (counted_for ip org request) as Hreq by done.
  assert (no_record_of ip org w) as Hnone.
  { split; [done|]. split; [|apply Hwf].
    apply filter_none. intros r Hr [Hip _].
    unfold unknown_client in Hunknown. rewrite Forall_forall in Hunknown.
    by apply (Hunknown r). }
  destruct (handle_no_record mw request ip org now w Hreq Hnone)
    as (w1 & Hone & Heq).
  destruct (handle_one_record_next mw request ip org 0 now now w1 Hreq Hone)
    as (w' & c' & t' & Hhandle & Hone' & _ & _ & _);
    [unfold timedelta; lia|lia|].
  rewrite decide_False in Hhandle by (unfold limited_at; lia).
  exists w'. rewrite Heq. split; [done|]. split; [apply Hone'|].
  rewrite <- Heq in Hhandle. unfold handle in Hhandle.
  apply process_request_steps in Hhandle as (_ & Hsteps & _).
  fold ip org in Hsteps.
  split.
  - exact (ledger_steps_wf _ _ _ _ _ Hsteps Hwf).
  - intros ip' Hne Hip'. unfold unknown_client in *.
    rewrite Forall_forall in *. intros r Hr Hip.
    apply (Hip' r); [|done].
    assert (r ∈ filter (λ r, RateLimitRecord.ip_address r ≠ ip)
                       (World.rate_limit_records w')) as Hin
      by (apply list_elem_of_filter; split; [congruence|done]).
    change (World.rate_limit_records w') with (ledger w').1 in Hin.
    rewrite (ledger_steps_frame _ _ _ _ _ Hsteps Hwf) in Hin.
    by apply list_elem_of_filter in Hin as [_ ?].
Qed.

(** X18.  The limiter believes the [X-Forwarded-For] header: with both
    limits at least 1, on a working store whose primary keys are in order,
    requests of one machine that each name in the header another address,
    none of them known to the ledger and each of them text that the
    address field stores as it is given (not empty, no colon), are all let
    through, however many they are and however fast they come. *)
Theorem rotating_header_is_never_limited (mw : RateLimitMiddleware.t)
    (request : Request.t) (arrivals : list (Z * string)) (w : World.t) :
  RateLimitMiddleware._should_skip_rate_limiting request = false →
  1 ≤ RateLimitMiddleware.requests_per_minute mw →
  1 ≤ RateLimitMiddleware.requests_per_hour mw →
  World.faults w = [] → ledger_wf w →
  Forall (λ a, stored_as_given (first_forwarded a.2)) arrivals →
  NoDup ((λ a, first_forwarded a.2) <$> arrivals) →
  Forall (λ a, unknown_client (first_forwarded a.2) w) arrivals →
  (handle_all mw ((λ a, (a.1, forwarded_for a.2 request)) <$> arrivals) w).1
  = (λ _, Ok None) <$> arrivals.
Proof.
  intros Hskip Hm Hh. revert w.
  induction arrivals as [|[now x] arrivals IH]; intros w Hf Hwf Hne Hnd Hunk;
    [done|].
  apply Forall_cons in Hne as [[Hx _] Hne].
  apply Forall_cons in Hunk as [Hu Hunk].
  rewrite fmap_cons in Hnd. apply NoDup_cons in Hnd as [Hfresh Hnd].
  simpl in *.
  assert (x ≠ "") as Hheader by (by intros ->).
  destruct (handle_unknown_client mw (forwarded_for x request) now w)
    as (w' & -> & Hf' & Hwf' & Hkeep); try done.
  { by rewrite get_client_ip_forwarded. }
  rewrite get_client_ip_forwarded in Hkeep by done.
  specialize (IH w' Hf' Hwf' Hne Hnd).
  destruct (handle_all mw _ w') as [outcomes w''] eqn:Hall. simpl in *.
  f_equal. apply IH.
  rewrite Forall_forall in *. intros a Ha. apply Hkeep; [|by apply Hunk].
  intros Heq. apply Hfresh. rewrite <- Heq.
  apply list_elem_of_fmap. by exists a.
Qed.

Lemma rotating_header_is_never_limited_at_limit :
  (handle_all Ledgers.mw3
     ((λ a, (a.1, forwarded_for a.2 Ledgers.search)) <$> rotating_headers)
     Throttled.at_limit).1
  = (λ _, Ok None) <$> rotating_headers.
Proof.
  apply rotating_header_is_never_limited.
  - reflexivity.
  - vm_compute. discriminate.
  - vm_compute. discriminate.
  - reflexivity.
  - split; apply (bool_decide_unpack _); vm_compute; exact I.
  - apply (bool_decide_unpack _). vm_compute. exact I.
  - apply (bool_decide_unpack _). vm_compute. exact I.
  - apply (bool_decide_unpack _). vm_compute. exact I.
Defined.

(** ** One page after the other *)

Lemma concat_page_slices {A : Type} (per_page : Z) (rows : list A) (k : nat) :
  1 ≤ per_page →
  concat ((λ p, page_slice per_page p rows) <$> seqZ 1 (Z.of_nat k))
  = take (k * Z.to_nat per_page) rows.
Proof.
  intros Hpp. induction k as [|k IH]; [done|].
  rewrite seqZ_S, fmap_app, concat_app, IH. simpl. rewrite app_nil_r.
  unfold page_slice.
  replace (Z.to_nat ((1 + Z.of_nat k - 1) * per_page))
    with (k * Z.to_nat per_page)%nat by nia.
  rewrite take_take_drop. f_equal. lia.
Qed.

Lemma num_pages_cover (count per_page : Z) :
  1 ≤ per_page →
  1 ≤ EmployeeSearchPagination.num_pages count per_page ∧
  count ≤ EmployeeSearchPagination.num_pages count per_page * per_page.
Proof.
  intros Hpp. unfold EmployeeSearchPagination.num_pages.
  pose proof (Z.div_mod (Z.max 1 count + per_page - 1) per_page ltac:(lia)).
  pose proof (Z.mod_pos_bound (Z.max 1 count + per_page - 1) per_page
                ltac:(lia)).
  split; nia.
Qed.

(** Two sorted arrangements of the same rows are the same list when the
    order tells any two of the rows apart. *)
Lemma sorted_perm_unique {A : Type} (R : relation A) (l1 l2 : list A) :
  (∀ x y, x ∈ l1 → y ∈ l1 → R x y → R y x → x = y) →
  StronglySorted R l1 → StronglySorted R l2 → l1 ≡ₚ l2 → l1 = l2.
Proof.
  revert l2. induction l1 as [|x l1 IH]; intros l2 Hanti Hs1 Hs2 Hperm.
  - by apply Permutation_nil_l in Hperm.
  - destruct l2 as [|y l2]; [by apply Permutation_nil_r in Hperm|].
    apply StronglySorted_inv in Hs1 as [Hs1 Hall1].
    apply StronglySorted_inv in Hs2 as [Hs2 Hall2].
    rewrite Forall_forall in Hall1, Hall2.
    assert (x = y) as <-.
    { assert (x ∈ y :: l2) as Hx by (rewrite <- Hperm; left).
      assert (y ∈ x :: l1) as Hy by (rewrite Hperm; left).
      apply elem_of_cons in Hx as [?|Hx]; [done|].
      apply elem_of_cons in Hy as [?|Hy]; [done|].
      apply Hanti; [left|by right|by apply Hall1|by apply Hall2]. }
    f_equal. apply IH; try done.
    + intros a b Ha Hb. apply Hanti; by right.
    + by apply Permutation_cons_inv in Hperm.
Qed.

Lemma name_le_names (e1 e2 : Employee.t) :
  name_le e1 e2 → name_le e2 e1 →
  (Employee.last_name e1, Employee.first_name e1)
  = (Employee.last_name e2, Employee.first_name e2).
Proof.
  unfold name_le.
  intros [[Hn H12]|[Hl H12]] [[Hn' H21]|[Hl' H21]]; try congruence.
  - exfalso. apply Hn. by apply (anti_symm String.le).
  - f_equal; [done|]. by apply (anti_symm String.le).
Qed.

(** When no two rows of the queryset share both names, the order of the
    result does not depend on how the database breaks ties. *)
Lemma order_by_name_unique (rank rank' : Employee.t → nat)
    (queryset : list Employee.t) :
  NoDup ((λ e, (Employee.last_name e, Employee.first_name e)) <$> queryset) →
  order_by_name rank queryset = order_by_name rank' queryset.
Proof.
  intros Hnd.
  destruct (order_by_name_sorted rank queryset) as [Hperm Hsorted].
  destruct (order_by_name_sorted rank' queryset) as [Hperm' Hsorted'].
  apply (sorted_perm_unique name_le); try done; [|by rewrite Hperm, Hperm'].
  intros x y Hx Hy Hxy Hyx. rewrite Hperm in Hx, Hy.
  eapply (NoDup_fmap_eq _ queryset); try done.
  by apply name_le_names.
Qed.

(** X19.  The pages partition the result: for a search on a stored, active
    organization whose parameters validate and that keeps no two employees
    of the same first and last name, asking for the pages 1, 2, ... up to
    the last one, each of these requests validates and is answered 200,
    whatever order the database serves ties in on each of them, and the
    employees whose projections they show, one page after the other, are
    the employees the filters keep, in order of name; none is left out and
    none is served twice. *)
Theorem pages_partition_the_result (db : Database.t) (request : Request.t)
    (organization_id : UUID) (organization : Organization.t)
    (search_data : EmployeeSearchSerializer.validated_data_t) :
  schema_constraints db →
  active_organization db organization_id organization →
  EmployeeSearchSerializer.is_valid (Request.query_params request)
    = inl search_data →
  let matches := Views.filter_queryset db organization search_data in
  NoDup ((λ e, (Employee.last_name e, Employee.first_name e)) <$> matches) →
  let per_page :=
    EmployeeSearchPagination.get_page_size
      (EmployeeSearchSerializer.page_size search_data)
      (Request.query_params request) in
  let pages :=
    EmployeeSearchPagination.num_pages (Z.of_nat (length matches)) per_page in
  ∃ served : list (list Employee.t),
    concat served ≡ₚ matches ∧
    StronglySorted name_le (concat served) ∧
    Forall2 (λ p rows,
               EmployeeSearchSerializer.is_valid
                 (Request.query_params (asking_for_page p request))
               = inl (at_page p search_data) ∧
               ∀ rank, ∃ visible_columns,
                 Response.status_code
                   (Views.search_employees (with_rank rank db)
                      (asking_for_page p request) organization_id) = 200 ∧
                 response_item "results"
                   (Views.search_employees (with_rank rank db)
                      (asking_for_page p request) organization_id)
                 = Some (VList (VDict <$> DynamicEmployeeSerializer.many_data
                                            (Some visible_columns) rows)))
            (seqZ 1 pages) served.
Proof.
  intros Hschema Hactive Hvalid matches Hnd per_page pages.
  pose proof (is_valid_bounds _ _ Hvalid) as (_ & Hps & _).
  pose proof (get_page_size_pos (EmployeeSearchSerializer.page_size search_data)
                (Request.query_params request) ltac:(lia)) as Hpp.
  fold per_page in Hpp.
  destruct (num_pages_cover (Z.of_nat (length matches)) per_page Hpp)
    as [Hpages Hcover]. fold pages in Hpages, Hcover.
  set (ordered := order_by_name (Database.tie_rank db) matches).
  destruct (order_by_name_sorted (Database.tie_rank db) matches)
    as [Hperm Hsorted]. fold ordered in Hperm, Hsorted.
  assert (concat ((λ p, page_slice per_page p ordered) <$> seqZ 1 pages)
          = ordered) as Hconcat.
  { replace pages with (Z.of_nat (Z.to_nat pages)) by lia.
    rewrite concat_page_slices by done.
    apply take_ge. apply Permutation_length in Hperm. nia. }
  exists ((λ p, page_slice per_page p ordered) <$> seqZ 1 pages).
  rewrite Hconcat. split; [done|]. split; [done|].
  apply Forall2_fmap_r, Forall_Forall2_diag, Forall_forall.
  intros p Hp. apply elem_of_seqZ in Hp.
  assert (EmployeeSearchSerializer.is_valid
            (Request.query_params (asking_for_page p request))
          = inl (at_page p search_data)) as Hvalid'
    by (apply is_valid_with_page; [done|lia]).
  split; [done|]. intros rank.
  destruct (search_employees_served (with_rank rank db)
              (asking_for_page p request) organization_id organization
              (at_page p search_data) Hschema Hactive Hvalid' I)
    as (vc & _ & Hresponse).
  { change (p ≤ pages). lia. }
  exists vc. rewrite Hresponse. split; [reflexivity|].
  change (Views.filter_queryset (with_rank rank db) organization
            (at_page p search_data)) with matches.
  change (Database.tie_rank (with_rank rank db)) with rank.
  rewrite (order_by_name_unique rank (Database.tie_rank db) matches Hnd).
  reflexivity.
Qed.

Lemma pages_partition_the_result_org1 :
  ∃ served : list (list Employee.t),
    concat served ≡ₚ
      Views.filter_queryset Fixtures.db Fixtures.org1 Pages.one_per_page_data ∧
    StronglySorted name_le (concat served) ∧
    Forall2 (λ p rows,
               EmployeeSearchSerializer.is_valid
                 (Request.query_params
                    (asking_for_page p (Fixtures.search_org1 Pages.one_per_page)))
               = inl (at_page p Pages.one_per_page_data) ∧
               ∀ rank, ∃ visible_columns,
                 Response.status_code
                   (Views.search_employees (with_rank rank Fixtures.db)
                      (asking_for_page p
                         (Fixtures.search_org1 Pages.one_per_page)) 1%N) = 200 ∧
                 response_item "results"
                   (Views.search_employees (with_rank rank Fixtures.db)
                      (asking_for_page p
                         (Fixtures.search_org1 Pages.one_per_page)) 1%N)
                 = Some (VList (VDict <$> DynamicEmployeeSerializer.many_data
                                            (Some visible_columns) rows)))
            (seqZ 1 2) served.
Proof.
  apply (pages_partition_the_result Fixtures.db
           (Fixtures.search_org1 Pages.one_per_page) 1%N Fixtures.org1
           Pages.one_per_page_data).
  - exact fixtures_schema.
  - exact fixtures_org1.
  - vm_compute. reflexivity.
  - apply (bool_decide_unpack _). vm_compute. exact I.
Defined.

(** ** A page number with a decimal point *)

(** X23.  The serializer and the paginator read the [page] parameter
    differently: on a stored, active organization, when every parameter
    validates and [page] is a numeral followed by a point and zeros
    (['1.0']), which the serializer reads as an integer, the paginator
    refuses the text and the search is answered 500, whatever page the
    numeral names. *)
Theorem page_with_point_is_500 (db : Database.t) (request : Request.t)
    (organization_id : UUID) (organization : Organization.t)
    (search_data : EmployeeSearchSerializer.validated_data_t) (n : Z) :
  schema_constraints db →
  active_organization db organization_id organization →
  EmployeeSearchSerializer.is_valid (Request.query_params request)
    = inl search_data →
  QueryParams.page (Request.query_params request) = Some (WithPoint n) →
  Views.search_page db organization (Request.query_params request) search_data
    = Raise NotFound ∧
  Views.search_employees db request organization_id =
    {| Response.status_code := 500;
       Response.data := VDict [("error", VStr "Internal server error")] |}.
Proof.
  intros Hschema Hactive Hvalid Hpage.
  pose proof (get_object_or_404_active _ _ _ Hschema Hactive) as Horg.
  destruct (get_visible_columns_Ok db organization Hschema) as [vc Hvc].
  assert (Views.search_page db organization (Request.query_params request)
            search_data = Raise NotFound) as Hraise.
  { unfold Views.search_page, EmployeeSearchPagination.paginate_queryset.
    pose proof (is_valid_bounds _ _ Hvalid) as (_ & Hps & _).
    pose proof (get_page_size_pos (EmployeeSearchSerializer.page_size search_data)
                  (Request.query_params request)).
    rewrite decide_False by lia. by rewrite Hpage. }
  split; [done|].
  unfold Views.search_employees, Views.search_employees_try.
  rewrite Horg. simpl. rewrite Hvc. simpl. rewrite Hvalid, Hraise. done.
Qed.

Lemma page_with_point_is_500_org1 :
  Views.search_page Fixtures.db Fixtures.org1 Pages.first_page_with_point
    Searches.no_params_data = Raise NotFound ∧
  Views.search_employees Fixtures.db
    (Fixtures.search_org1 Pages.first_page_with_point) 1%N =
    {| Response.status_code := 500;
       Response.data := VDict [("error", VStr "Internal server error")] |}.
Proof.
  apply (page_with_point_is_500 Fixtures.db
           (Fixtures.search_org1 Pages.first_page_with_point) 1%N Fixtures.org1
           Searches.no_params_data 1).
  - exact fixtures_schema.
  - exact fixtures_org1.
  - vm_compute. reflexivity.
  - reflexivity.
Defined.

(** ** The list of organizations *)

Lemma paginate_queryset_raises (self_page_size : Z)
    (queryset : list Employee.t) (q : QueryParams.t) (e : Exception) :
  EmployeeSearchPagination.paginate_queryset self_page_size queryset q
    = Raise e → e = NotFound.
Proof.
  unfold EmployeeSearchPagination.paginate_queryset.
  case_decide; [done|].
  destruct (QueryParams.page q) as [[n|n|]|]; repeat case_decide;
    intros Hraise; by inversion Hraise.
Qed.

(** On a stored, active organization a search is answered 200, 400 or
    500. *)
Lemma search_employees_active (db : Database.t) (request : Request.t)
    (organization_id : UUID) (organization : Organization.t) :
  schema_constraints db →
  active_organization db organization_id organization →
  Response.status_code (Views.search_employees db request organization_id)
    ≠ 404.
Proof.
  intros Hschema Hactive.
  pose proof (get_object_or_404_active _ _ _ Hschema Hactive) as Horg.
  destruct (get_visible_columns_Ok db organization Hschema) as [vc Hvc].
  unfold Views.search_employees, Views.search_employees_try.
  rewrite Horg. simpl. rewrite Hvc. simpl.
  destruct (EmployeeSearchSerializer.is_valid _) as [sd|errors]; [|done].
  destruct (Views.search_page db organization _ sd) as [[page|]|e] eqn:Hpage;
    simpl; [done|done|].
  apply paginate_queryset_raises in Hpage. by subst e.
Qed.

Lemma name_le_organization_total : Total organization_le.
Proof. intros o1 o2. apply (total String.le). Qed.

Lemma name_le_organization_trans : Transitive organization_le.
Proof. intros o1 o2 o3. unfold organization_le. apply transitivity. Qed.

(** X20.  The list of organizations and the search agree: the list holds
    the stored organizations that are active, each once, in order of name,
    [count] is their number, and an id is in the list exactly when a search
    on it is not answered 404. *)
Theorem listed_organizations_are_the_searchable_ones (db : Database.t)
    (request : Request.t) (organization_id : UUID) :
  schema_constraints db →
  let listing := list_organizations db in
  organizations_count listing = Z.of_nat (length (organizations listing)) ∧
  NoDup (OrganizationSerializer.id <$> organizations listing) ∧
  StronglySorted (λ d1 d2, String.le (OrganizationSerializer.name d1)
                                     (OrganizationSerializer.name d2))
                 (organizations listing) ∧
  (∀ d, d ∈ organizations listing ↔
        ∃ o, o ∈ Database.organizations db ∧
             Organization.is_active o = true ∧
             d = OrganizationSerializer.data o) ∧
  (organization_id ∈ OrganizationSerializer.id <$> organizations listing ↔
   Response.status_code (Views.search_employees db request organization_id)
     ≠ 404).
Proof.
  intros Hschema listing.
  set (active := filter (λ o, Organization.is_active o = true)
                        (Database.organizations db)).
  assert (organizations listing
          = OrganizationSerializer.data <$> merge_sort organization_le active)
    as Hlist by done.
  assert (∀ d, d ∈ organizations listing ↔
               ∃ o, o ∈ Database.organizations db ∧
                    Organization.is_active o = true ∧
                    d = OrganizationSerializer.data o) as Hin.
  { intros d. rewrite Hlist, list_elem_of_fmap.
    split; intros (o & Hd & Ho); exists o.
    - rewrite merge_sort_Permutation in Ho.
      apply list_elem_of_filter in Ho. tauto.
    - split; [tauto|]. rewrite merge_sort_Permutation.
      apply list_elem_of_filter. tauto. }
  split; [|split; [|split; [|split]]].
  - subst listing. unfold list_organizations. simpl.
    unfold OrganizationSerializer.many_data. by rewrite length_fmap.
  - rewrite Hlist, <- list_fmap_compose.
    change (OrganizationSerializer.id ∘ OrganizationSerializer.data)
      with Organization.id.
    rewrite merge_sort_Permutation. apply NoDup_fmap_filter, Hschema.
  - rewrite Hlist.
    assert (StronglySorted organization_le (merge_sort organization_le active))
      as Hsorted
      by (apply (@StronglySorted_merge_sort _ organization_le _
                   name_le_organization_trans name_le_organization_total)).
    clear Hlist Hin.
    induction Hsorted as [|o os _ IH Hall]; [constructor|].
    rewrite fmap_cons. constructor; [exact IH|].
    rewrite Forall_fmap. exact Hall.
  - exact Hin.
  - split.
    + intros Hid. apply list_elem_of_fmap in Hid as (d & -> & Hd).
      apply Hin in Hd as (o & Ho & Hactive & ->).
      by apply (search_employees_active db request _ o).
    + intros Hnot.
      destruct (decide (organization_id ∈
                  OrganizationSerializer.id <$> organizations listing))
        as [|Hout]; [done|].
      exfalso. apply Hnot.
      assert (no_active_organization db organization_id) as Hnone.
      { apply Forall_forall. intros o Ho [Hid Hactive]. apply Hout.
        apply list_elem_of_fmap. exists (OrganizationSerializer.data o).
        split; [done|]. apply Hin. by exists o. }
      unfold Views.search_employees, Views.search_employees_try.
      by rewrite get_object_or_404_none.
Qed.

Lemma listed_organizations_are_the_searchable_ones_org1 :
  let listing := list_organizations Fixtures.db in
  organizations_count listing = Z.of_nat (length (organizations listing)) ∧
  NoDup (OrganizationSerializer.id <$> organizations listing) ∧
  StronglySorted (λ d1 d2, String.le (OrganizationSerializer.name d1)
                                     (OrganizationSerializer.name d2))
                 (organizations listing) ∧
  (∀ d, d ∈ organizations listing ↔
        ∃ o, o ∈ Database.organizations Fixtures.db ∧
             Organization.is_active o = true ∧
             d = OrganizationSerializer.data o) ∧
  (1%N ∈ OrganizationSerializer.id <$> organizations listing ↔
   Response.status_code (Views.search_employees Fixtures.db Ledgers.search 1%N)
     ≠ 404).
Proof.
  apply (listed_organizations_are_the_searchable_ones Fixtures.db
           Ledgers.search 1%N).
  exact fixtures_schema.
Defined.

(** ** The two projections *)

Lemma to_dict_data_lookup (e : Employee.t) (k : string) (v : Value) :
  Employee.to_dict_data e !! k = Some v ↔
  k ∈ ["id"; "first_name"; "last_name"; "email"; "phone"; "department";
       "position"; "location"; "status"; "hire_date"] ∧
  v = DynamicEmployeeSerializer.get_attribute e k.
Proof.
  split.
  - unfold Employee.to_dict_data. cbn [list_to_map foldr fst snd].
    repeat (rewrite lookup_insert_Some;
            intros [[<- <-]|[_ Hk]];
            [split; [set_solver|reflexivity]|revert Hk]).
    by rewrite lookup_empty.
  - intros [Hk ->]. repeat (apply elem_of_cons in Hk as [->|Hk]; [reflexivity|]).
    by apply elem_of_nil in Hk.
Qed.

(** X21.  The two projections of an employee agree where both speak: for a
    non-empty column list, every entry of [Employee.to_dict] is an entry of
    the serializer's row, with the same value, and the serializer's row has
    nothing more than that except [id], which it always shows, and
    [full_name], [created_at], [updated_at] and [organization], which the
    dictionary never shows. *)
Theorem to_dict_within_serializer_row (e : Employee.t)
    (visible_columns : list string) (k : string) (v : Value) :
  visible_columns ≠ [] →
  (Employee.to_dict e (Some visible_columns) !! k = Some v →
   (k, v) ∈ DynamicEmployeeSerializer.data (Some visible_columns) e) ∧
  ((k, v) ∈ DynamicEmployeeSerializer.data (Some visible_columns) e →
   Employee.to_dict e (Some visible_columns) !! k = Some v ∨
   k ∈ ["id"; "full_name"; "created_at"; "updated_at"; "organization"]).
Proof.
  intros Hne. destruct visible_columns as [|c cols]; [done|].
  unfold Employee.to_dict, DynamicEmployeeSerializer.data,
    DynamicEmployeeSerializer.to_representation.
  rewrite to_dict_fold_lookup, lookup_empty, list_elem_of_fmap.
  split.
  - case_decide as Hin; [|done].
    destruct (Employee.to_dict_data e !! k) as [v'|] eqn:Hk; [|done].
    intros Hv; inversion Hv; subst v'.
    apply to_dict_data_lookup in Hk as [Hk ->].
    exists k. split; [done|]. apply init_elem. split; [|by left].
    unfold DynamicEmployeeSerializer.Meta_fields. set_solver.
  - intros (f & Hkv & Hf). inversion Hkv; subst f v.
    apply init_elem in Hf as [Hmeta Hallowed].
    destruct (decide (k ∈ ["id"; "full_name"; "created_at"; "updated_at";
                           "organization"])) as [|Hout]; [by right|left].
    destruct Hallowed as [Hin|[->|[-> _]]]; [|set_solver..].
    rewrite decide_True by done.
    assert (Employee.to_dict_data e !! k
            = Some (DynamicEmployeeSerializer.get_attribute e k)) as ->; [|done].
    apply to_dict_data_lookup. split; [|done].
    unfold DynamicEmployeeSerializer.Meta_fields in Hmeta. set_solver.
Qed.

Lemma to_dict_within_serializer_row_alice :
  (Employee.to_dict Fixtures.alice (Some ["email"; "nickname"]) !! "email"
     = Some (VStr "alice.smith@org1.com") →
   ("email", VStr "alice.smith@org1.com")
     ∈ DynamicEmployeeSerializer.data (Some ["email"; "nickname"])
         Fixtures.alice) ∧
  (("email", VStr "alice.smith@org1.com")
     ∈ DynamicEmployeeSerializer.data (Some ["email"; "nickname"])
         Fixtures.alice →
   Employee.to_dict Fixtures.alice (Some ["email"; "nickname"]) !! "email"
     = Some (VStr "alice.smith@org1.com") ∨
   "email" ∈ ["id"; "full_name"; "created_at"; "updated_at"; "organization"]).
Proof. apply to_dict_within_serializer_row. discriminate. Defined.

(** ** After a quiet minute *)

(** A request for a key whose one row was last written more than a minute,
    and no more than a day, ago: the minute window counts nothing, the hour
    window counts the row when it was written within the hour. *)
Lemma handle_quiet_record (mw : RateLimitMiddleware.t) (request : Request.t)
    (ip : string) (org : option UUID) (c t now : Z) (w : World.t) :
  counted_for ip org request →
  one_record_of ip org c t w →
  now - timedelta 24 0 ≤ t → t < now - timedelta 0 1 →
  1 ≤ RateLimitMiddleware.requests_per_minute mw →
  1 ≤ RateLimitMiddleware.requests_per_hour mw →
  c < RateLimitMiddleware.requests_per_hour mw →
  ∃ w',
    handle mw now request w = (Ok None, w') ∧
    one_record_of ip org (c + 1) now w'.
Proof.
  intros (Hskip & Hip & Horg) (Hf & r & Hr & Hc & Ht & Huniq) Hday Hquiet
    Hm Hh Hch.
  destruct w as [rows n clk fs]; simpl in *; subst fs.
  unfold handle, RateLimitMiddleware.process_request.
  rewrite Hskip, Hip, Horg.
  unfold RateLimitMiddleware._is_rate_limited.
  unfold mbind, M_bind, timezone_now. simpl.
  unfold World.set_records, World.set_clock; simpl.
  set (rows1 := filter _ rows).
  assert (filter (RateLimitRecords.matches ip org) rows1 = [r]) as Hr1.
  { subst rows1. rewrite filter_filter_comm, Hr.
    rewrite filter_cons_True, filter_nil; [done|].
    intros [_ ?]. lia. }
  assert (∀ r', r' ∈ rows1 →
            RateLimitRecord.pk r' = RateLimitRecord.pk r → r' = r) as Huniq1.
  { intros r' Hr'. apply Huniq. subst rows1.
    by apply list_elem_of_filter in Hr' as [_ ?]. }
  assert (RateLimitRecords.matches ip org r) as Hmr.
  { assert (r ∈ filter (RateLimitRecords.matches ip org) rows1) as Hin
      by (rewrite Hr1; left).
    by apply list_elem_of_filter in Hin as [? _]. }
  rewrite (get_or_create_found ip org 0 _ r) by done.
  rewrite count_requests_since_spec by done. simpl.
  rewrite (count_of_one_record ip org _ rows1 r Hr1).
  rewrite (decide_False (P := now - timedelta 0 1 ≤ RateLimitRecord.last_request r))
    by lia.
  rewrite decide_False by lia.
  rewrite count_requests_since_spec by done. simpl.
  rewrite (count_of_one_record ip org _ rows1 r Hr1).
  assert (¬ RateLimitMiddleware.requests_per_hour mw ≤
            (if decide (now - timedelta 1 0 ≤ RateLimitRecord.last_request r)
             then RateLimitRecord.request_count r else 0)) as Hhour
    by (case_decide; lia).
  rewrite decide_False by done.
  unfold mret, M_ret. simpl.
  rewrite (record_request_found ip org _ r) by done. simpl.
  eexists. split; [done|]. split; [done|].
  eexists. split; [|split; [|split]].
  - by apply filter_matches_save.
  - simpl. lia.
  - done.
  - intros r' Hr' Hpk. simpl in Hpk.
    apply list_elem_of_fmap in Hr' as (x & -> & Hx).
    case_decide as Hx'; [done|]. simpl in Hpk. done.
Qed.

(** X22.  The count of a row is never reset while the row lives: a client
    whose row has reached the minute limit, and stays below the hour limit,
    and who then sends nothing for more than a minute (and less than a
    day), gets one request through, not a new allowance; the request that
    follows within a minute is answered 429. *)
Theorem allowance_is_not_renewed (mw : RateLimitMiddleware.t)
    (request : Request.t) (ip : string) (org : option UUID)
    (c t now now' : Z) (w : World.t) :
  counted_for ip org request →
  one_record_of ip org c t w →
  1 ≤ RateLimitMiddleware.requests_per_minute mw ≤ c →
  c < RateLimitMiddleware.requests_per_hour mw →
  now - timedelta 24 0 ≤ t → t < now - timedelta 0 1 →
  now ≤ now' ≤ now + timedelta 0 1 →
  (handle_all mw [(now, request); (now', request)] w).1
  = [Ok None; Ok (Some (RateLimitMiddleware._rate_limit_response mw ip))].
Proof.
  intros Hreq Hone Hm Hh Hday Hquiet Hnext.
  destruct (handle_quiet_record mw request ip org c t now w)
    as (w1 & Hfirst & Hone1); try done; try lia.
  destruct (handle_one_record mw request ip org (c + 1) now now' w1)
    as (w2 & Hsecond & _); try done; try lia.
  rewrite decide_True in Hsecond by (left; lia).
  simpl. by rewrite Hfirst, Hsecond.
Qed.

Lemma allowance_is_not_renewed_after_ten_minutes :
  (handle_all Ledgers.mw3
     [(600000000, Ledgers.search); (600000001, Ledgers.search)]
     quiet_for_ten_minutes).1
  = [Ok None;
     Ok (Some (RateLimitMiddleware._rate_limit_response Ledgers.mw3
                 "10.0.0.1"))].
Proof.
  apply (allowance_is_not_renewed Ledgers.mw3 Ledgers.search "10.0.0.1"
           (Some 1%N) 3 0).
  - exact search_is_counted.
  - split; [reflexivity|].
    exists (Ledgers.row 1 "10.0.0.1" (Some 1%N) 3 0).
    split; [reflexivity|]. split; [reflexivity|]. split; [reflexivity|].
    intros r' Hr' Hpk.
    apply elem_of_cons in Hr' as [->|Hr']; [done|].
    apply list_elem_of_singleton in Hr' as ->. discriminate.
  - vm_compute. split; discriminate.
  - vm_compute. reflexivity.
  - vm_compute. discriminate.
  - vm_compute. reflexivity.
  - vm_compute. split; discriminate.
Defined.
